(** * Tube-Calculation: the bend-parameter engine, the material table and the
      report layout of [app.py] with the page around them, the duplicate
      helpers of [bending_calc.py], and the small modules [report.py],
      [pdf_reader.py] and [mesh_ops.py].

    Python's [float] is IEEE 754 binary64, which is what Rocq's primitive
    [float] is, so the arithmetic of the source is embedded operation for
    operation: every [*], [+], [/] below rounds the way CPython's does, and
    the embedding evaluates to the very bits the program prints.  Python
    raises [ZeroDivisionError] where IEEE 754 would return an infinity or a
    NaN, and [KeyError] on a missing dictionary key; both are kept, in a
    small exception monad.  Calls into fpdf, PyPDF2 and trimesh are
    parameters of the sections that use them. *)

From Stdlib Require Import ZArith QArith Qround Qpower Floats List String Ascii.
From Stdlib Require Import Bool Lia Lqa.
From Stdlib Require Import DecimalString.
Import ListNotations.

(** ** Python values *)

(** A Python [str] is a sequence of Unicode code points. *)
Definition codepoint := N.
Definition pystr := list codepoint.

(** The code points of an ASCII literal of the source. *)
Definition lit (s : string) : pystr :=
  map N_of_ascii (list_ascii_of_string s).

Definition pystr_eqb (a b : pystr) : bool :=
  if list_eq_dec N.eq_dec a b then true else false.

(** The exceptions the modelled code can raise. *)
Inductive exn : Type :=
| KeyError (key : pystr)
| ZeroDivisionError
| UnicodeEncodeError.

Inductive result (A : Type) : Type :=
| Ok (a : A)
| Raise (e : exn).

Arguments Ok {A} a.
Arguments Raise {A} e.

Definition bind {A B : Type} (r : result A) (k : A -> result B) : result B :=
  match r with
  | Ok a => k a
  | Raise e => Raise e
  end.

Declare Scope py_scope.
Delimit Scope py_scope with py.
Notation "x <- r ;; k" := (bind r (fun x => k))
  (at level 61, r at next level, right associativity) : py_scope.

(** ** Python float operations *)

Module PyFloat.
Local Open Scope float_scope.

(** [a / b] on floats: CPython's [float_div] raises when the divisor
    compares equal to zero (either sign) and otherwise divides. *)
Definition truediv (a b : float) : result float :=
  if b =? 0 then Raise ZeroDivisionError else Ok (a / b).

(** [max(a, b)] of two arguments: the builtin keeps the first item and
    replaces it only by a later item that compares strictly greater. *)
Definition max (a b : float) : float :=
  if a <? b then b else a.

(** [a > b]. *)
Definition gt (a b : float) : bool := b <? a.

(** [math.pi], the double nearest to pi: 3.141592653589793. *)
Definition pi : float := 0x1.921fb54442d18p+1.

(** CPython's [degToRad = Py_MATH_PI / 180.0], folded in double. *)
Definition degToRad : float := Eval compute in (pi / 180).

(** [math.radians(x)] is [x * degToRad]. *)
Definition radians (x : float) : float := x * degToRad.

(** [float("inf")]. *)
Definition inf : float := infinity.
End PyFloat.

(** ** app.py *)

Module app.
Local Open Scope float_scope.
Local Open Scope py_scope.

(** An entry of [MATERIALS]: the inner dictionary with the keys ["E"] and
    ["yield"], both in MPa. *)
Record material_props : Type := mk_props {
  E : float;
  yield : float
}.

(** [MATERIALS], in the order of the dictionary literal. *)
Definition MATERIALS : list (pystr * material_props) :=
  [ (lit "Copper",       mk_props 110000 200);
    (lit "Carbon Steel", mk_props 210000 250);
    (lit "Aluminium",    mk_props 70000 120) ].

(** [d[key]]: the value of the first entry with that key, [KeyError]
    when there is none. *)
Fixpoint getitem {V : Type} (d : list (pystr * V)) (key : pystr) : result V :=
  match d with
  | [] => Raise (KeyError key)
  | (k, v) :: d' => if pystr_eqb k key then Ok v else getitem d' key
  end.

(** The dictionary [compute_bend_parameters] returns. *)
Record bend_results : Type := mk_results {
  wf : float;
  clr : float;
  mbr : float;
  arc_len : float;
  total_len : float;
  stress : float;
  fos : float
}.

(** The clamp of the source, the literal [1e-6] (the double nearest to it). *)
Definition epsilon : float := 0x1.0c6f7a0b5ed8dp-20.

Definition compute_bend_parameters
    (od_mm wall_mm angle_deg straight_mm d_of_bend : float)
    (material_name : pystr) : result bend_results :=
  props <- getitem MATERIALS material_name ;;
  let E := E props in
  let sigma_y := yield props in
  let wall_eff := PyFloat.max wall_mm epsilon in
  let clr := d_of_bend * od_mm in
  wf <- PyFloat.truediv od_mm wall_eff ;;
  let mbr := wf * od_mm in
  let theta_rad := PyFloat.radians angle_deg in
  let arc_len := clr * theta_rad in
  let total_len := straight_mm + arc_len in
  half_wall <- PyFloat.truediv wall_mm 2 ;;
  strain <- PyFloat.truediv half_wall (PyFloat.max clr epsilon) ;;
  stress <- PyFloat.truediv (E * strain) 1000 ;;
  fos <- (if PyFloat.gt stress 0
          then PyFloat.truediv sigma_y stress
          else Ok PyFloat.inf) ;;
  Ok (mk_results wf clr mbr arc_len total_len stress fos).
End app.

(** ** Formatting: the [:.2f] of the f-strings *)

Module PyFormat.
Local Open Scope Z_scope.

(** [n / d] rounded to the nearest integer, ties to even ([n >= 0], [d > 0]):
    the correctly rounded conversion CPython's [float.__format__] makes. *)
Definition div_half_even (n d : Z) : Z :=
  let q := n / d in
  let r := n mod d in
  match 2 * r ?= d with
  | Lt => q
  | Gt => q + 1
  | Eq => if Z.even q then q else q + 1
  end.

(** The absolute value of the finite float [m * 2^e] in hundredths, rounded. *)
Definition hundredths (m : positive) (e : Z) : Z :=
  match e with
  | Zneg p => div_half_even (Zpos m * 100) (2 ^ Zpos p)
  | _ => Zpos m * 100 * 2 ^ e
  end.

(** Decimal digits of a natural number, without leading zeros (["0"] for 0). *)
Definition decimal (n : Z) : pystr :=
  lit (NilZero.string_of_uint (N.to_uint (Z.to_N n))).

Definition sign_prefix (s : bool) : pystr :=
  if s then lit "-" else [].

(** [h] hundredths as [<integer part>.<two digits>]. *)
Definition fixed2 (h : Z) : pystr :=
  decimal (h / 100) ++ lit "." ++ decimal (h mod 100 / 10) ++ decimal (h mod 10).

(** [format(x, ".2f")]. *)
Definition format_2f (x : float) : pystr :=
  match Prim2SF x with
  | S754_nan => lit "nan"
  | S754_infinity s => sign_prefix s ++ lit "inf"
  | S754_zero s => sign_prefix s ++ lit "0.00"
  | S754_finite s m e => sign_prefix s ++ fixed2 (hundredths m e)
  end.
End PyFormat.

(** ** app.py: the report *)

Module report.
Import app.

(** The dictionary [inputs_dict] handed to [generate_pdf_report]. *)
Record bend_inputs : Type := mk_inputs {
  material : pystr;
  od : float;
  wall : float;
  angle : float;
  straight : float;
  d_of_bend : float
}.

(** The calls the function makes on its [FPDF] object.  What the library
    draws for a call is the library's business; the document is modelled
    as the sequence of calls. *)
Inductive fpdf_call : Type :=
| set_auto_page_break (auto : bool) (margin : Z)
| add_page
| set_font (family style : string) (size : Z)
| cell (w h : Z) (txt : pystr) (ln : bool) (align : string)
| ln (h : Z)
| multi_cell (w h : Z) (txt : pystr).

(** Code points of the source's non-ASCII and quote characters. *)
Definition quote : pystr := [34%N].
Definition degree : pystr := [176%N].       (* U+00B0 *)
Definition times : pystr := [215%N].        (* U+00D7 *)
Definition theta : pystr := [952%N].        (* U+03B8 *)
Definition approx : pystr := [8776%N].      (* U+2248 *)
Definition arrow : pystr := [8594%N].       (* U+2192 *)
Definition newline : pystr := [10%N].

Definition fmt := PyFormat.format_2f.

Definition title_block : list fpdf_call :=
  [ set_font "Arial" "B" 16;
    cell 0 10 (lit "Tube Bending Report") true "C";
    ln 5 ].

Definition inputs_block (i : bend_inputs) : list fpdf_call :=
  [ set_font "Arial" "" 12;
    cell 0 8 (lit "Material          : " ++ material i) true "";
    cell 0 8 (lit "Tube O.D.         : " ++ fmt (od i) ++ lit " mm") true "";
    cell 0 8 (lit "Wall Thickness    : " ++ fmt (wall i) ++ lit " mm") true "";
    cell 0 8 (lit "Bend Angle        : " ++ fmt (angle i) ++ lit " " ++ degree) true "";
    cell 0 8 (lit "Straight Length   : " ++ fmt (straight i) ++ lit " mm") true "";
    cell 0 8 (quote ++ lit "D" ++ quote ++ lit " of Bend (CLR/OD): "
              ++ fmt (d_of_bend i)) true "";
    ln 4 ].

Definition results_block (r : bend_results) : list fpdf_call :=
  [ set_font "Arial" "B" 13;
    cell 0 8 (lit "Calculated Values") true "";
    set_font "Arial" "" 12;
    cell 0 8 (lit "Wall Factor (WF = OD / t)         : " ++ fmt (wf r)) true "";
    cell 0 8 (lit "Center-Line Radius (CLR)          : " ++ fmt (clr r)
              ++ lit " mm") true "";
    cell 0 8 (lit "Minimum Bend Radius (WF " ++ times ++ lit " OD)     : "
              ++ fmt (mbr r) ++ lit " mm") true "";
    cell 0 8 (lit "Bend Arc Length                   : " ++ fmt (arc_len r)
              ++ lit " mm") true "";
    cell 0 8 (lit "Approx. Total Tube Length         : " ++ fmt (total_len r)
              ++ lit " mm") true "";
    cell 0 8 (lit "Simplified Outer-Fibre Stress     : " ++ fmt (stress r)
              ++ lit " MPa") true "";
    cell 0 8 (lit "Factor of Safety vs Yield (FoS)   : " ++ fmt (fos r)) true "";
    ln 5 ].

Definition formulas_text : pystr :=
  lit "Wall Factor (WF) = O.D. / Wall" ++ newline
  ++ quote ++ lit "D" ++ quote ++ lit " of Bend      = CLR / O.D." ++ newline
  ++ lit "CLR              = D " ++ times ++ lit " O.D." ++ newline
  ++ lit "Bend Arc Length  = CLR " ++ times ++ lit " " ++ theta ++ lit "(rad)"
  ++ newline
  ++ lit "Total Length     = Straight Length + Bend Arc Length" ++ newline
  ++ lit "Outer-fibre strain " ++ approx ++ lit " (t/2) / CLR " ++ arrow
  ++ lit " Stress " ++ approx ++ lit " E " ++ times ++ lit " strain"
  ++ newline ++ newline
  ++ lit "NOTE: Stress and FoS here are simplified estimates for study / comparison, "
  ++ lit "not for final certification.".

Definition formulas_block : list fpdf_call :=
  [ set_font "Arial" "B" 13;
    cell 0 8 (lit "Key Formulas (from Bend Manual concepts)") true "";
    set_font "Arial" "" 11;
    multi_cell 0 6 formulas_text ].

(** Everything [generate_pdf_report] does to the [FPDF] object before it
    asks for the output. *)
Definition report_calls (i : bend_inputs) (r : bend_results) : list fpdf_call :=
  [ set_auto_page_break true 15; add_page ]
  ++ title_block ++ inputs_block i ++ results_block r ++ formulas_block.

(** [s.encode("latin-1", "replace")]: a code point above 255 becomes ["?"]. *)
Definition encode_latin1_replace (s : pystr) : list N :=
  map (fun c => if (c <=? 255)%N then c else 63%N) s.

(** [s.encode("latin-1")], the strict codec. *)
Definition encode_latin1_strict (s : pystr) : result (list N) :=
  if forallb (fun c => (c <=? 255)%N) s then Ok s else Raise UnicodeEncodeError.

Section WithLibrary.
(** [pdf.output(dest="S")] of the fpdf package, which is not part of the
    repository: the serialised document as a [str], or an exception. *)
Variable FPDF_output : list fpdf_call -> result pystr.

Definition generate_pdf_report (i : bend_inputs) (r : bend_results)
    : result (list N) :=
  bind (FPDF_output (report_calls i r))
       (fun s => Ok (encode_latin1_replace s)).
End WithLibrary.

(** The text a call puts on the page, if any. *)
Definition call_text (c : fpdf_call) : option pystr :=
  match c with
  | cell _ _ txt _ _ => Some txt
  | multi_cell _ _ txt => Some txt
  | _ => None
  end.

Fixpoint texts (cs : list fpdf_call) : list pystr :=
  match cs with
  | [] => []
  | c :: cs' =>
      match call_text c with
      | Some t => t :: texts cs'
      | None => texts cs'
      end
  end.

(** [needle in haystack] for [str]. *)
Fixpoint starts_with (needle hay : pystr) : bool :=
  match needle, hay with
  | [], _ => true
  | _ :: _, [] => false
  | a :: needle', b :: hay' => (a =? b)%N && starts_with needle' hay'
  end.

Fixpoint contains (needle hay : pystr) : bool :=
  starts_with needle hay ||
  match hay with
  | [] => false
  | _ :: hay' => contains needle hay'
  end.
End report.

(** ** bending_calc.py *)

Module bending_calc.
Local Open Scope float_scope.

(** [bend_angle] is a parameter the body never reads. *)
Definition calculate_bend_radius
    (tube_diameter bend_angle material_factor : float) : float :=
  tube_diameter * material_factor.

Definition calculate_tube_length
    (straight_length bend_angle bend_radius : float) : float :=
  let arc_length := PyFloat.radians bend_angle * bend_radius in
  straight_length + arc_length.
End bending_calc.

(** ** Closed forms and the example used in the statements *)

Section Statements.
Local Open Scope float_scope.

(** What the engine returns once the material is resolved: every field as
    the source computes it, and no exception. *)
Definition results_of (p : app.material_props)
    (od_mm wall_mm angle_deg straight_mm d_of_bend : float) : app.bend_results :=
  let clr := d_of_bend * od_mm in
  let wf := od_mm / PyFloat.max wall_mm app.epsilon in
  let arc_len := clr * PyFloat.radians angle_deg in
  let stress :=
    app.E p * (wall_mm / 2 / PyFloat.max clr app.epsilon) / 1000 in
  app.mk_results wf clr (wf * od_mm) arc_len (straight_mm + arc_len) stress
    (if 0 <? stress then app.yield p / stress else PyFloat.inf).

(** A rendering with exactly two digits after the decimal point. *)
Definition is_digit (c : codepoint) : Prop := (48 <= c <= 57)%N.

Definition two_decimals (s : pystr) : Prop :=
  exists ip d1 d2,
    s = ip ++ lit "." ++ [d1; d2] /\ is_digit d1 /\ is_digit d2.

(** The (inputs, results) pair of the end-to-end example. *)
Definition example_inputs : report.bend_inputs :=
  report.mk_inputs (lit "Carbon Steel") 10 1 90 500 3.

Definition example_results : app.bend_results :=
  results_of (app.mk_props 210000 250) 10 1 90 500 3.
(** The largest diameter whose quotient by the clamp is still finite,
    1.7976931348623154e302, and the float after it. *)
Definition od_last_finite : float := 0x1.0c6f7a0b5ed8cp+1004.
Definition od_first_infinite : float := 0x1.0c6f7a0b5ed8dp+1004.

(** A wall of 1e-320 mm: positive, and thin enough for the quotient
    yield / stress to overflow. *)
Definition tiny_wall : float := 0x7e8p-1074.

(** What the fpdf package does with a text its font cannot encode.  The
    fonts [set_font "Arial"] selects are core fonts, whose text the library
    keeps in Latin-1: for a document that holds a text outside Latin-1 the
    library raises instead of returning the document. *)
Definition core_fonts_are_latin1
    (FPDF_output : list report.fpdf_call -> result pystr) : Prop :=
  forall calls t,
    In t (report.texts calls) ->
    report.encode_latin1_strict t = Raise UnicodeEncodeError ->
    exists e, FPDF_output calls = Raise e.

(** A library of that kind: it writes a document when every text is within
    Latin-1 and raises otherwise. *)
Definition strict_output (calls : list report.fpdf_call) : result pystr :=
  if forallb (forallb (fun c => (c <=? 255)%N)) (report.texts calls)
  then Ok (lit "%PDF-1.3")
  else Raise UnicodeEncodeError.
End Statements.

(** ** Binary64 rounding, as arithmetic on ranks

    A non-negative float is an integer number of least subnormals
    ([2 ^ -1074]); the operations of [SpecFloat] round an exact rational to
    the nearest such integer with at most 53 significant bits, ties to even,
    and saturate at infinity. *)

Section RoundingDefinitions.
Local Open Scope Q_scope.

Definition bpow (e : Z) : Q := 2 ^ e.

(** Round to the nearest integer, ties to even. *)
Definition rne (y : Q) : Z :=
  let f := Qfloor y in
  match Qcompare (y - inject_Z f) (1 # 2) with
  | Lt => f
  | Eq => if Z.even f then f else (f + 1)%Z
  | Gt => (f + 1)%Z
  end.

Definition shift_of (u : Q) : Z := Z.max 0 (Z.log2 (Qfloor u) - 52).

Definition RN (u : Q) : Z :=
  (rne (u * bpow (- shift_of u)) * 2 ^ shift_of u)%Z.

(** Where [y] lies in [[m, m + 1)]: on [m], below, on or above the middle. *)
Definition inbetween (y : Q) (m : Z) (l : location) : Prop :=
  match l with
  | loc_Exact => y == inject_Z m
  | loc_Inexact Lt => inject_Z m < y /\ y < inject_Z m + (1#2)
  | loc_Inexact Eq => y == inject_Z m + (1#2)
  | loc_Inexact Gt => inject_Z m + (1#2) < y /\ y < inject_Z m + 1
  end.

Definition inb (y : Q) (mrs : shr_record) : Prop :=
  inbetween y (shr_m mrs) (loc_of_shr_record mrs).

(** One past the largest finite float, in units of the least subnormal. *)
Definition top : Z := 2 ^ 2098.

(** The value of a float in units of [2 ^ -1074], [top] for an infinity. *)
Definition rk (f : spec_float) : Z :=
  match f with
  | S754_zero _ => 0
  | S754_infinity _ => top
  | S754_nan => 0
  | S754_finite _ m e => Z.pos m * 2 ^ (e + 1074)
  end.

Definition nonneg (f : spec_float) : bool :=
  match f with
  | S754_zero _ => true
  | S754_infinity s => negb s
  | S754_nan => false
  | S754_finite s _ _ => negb s
  end.

(** The exact quotient of two ranks, in units of the least subnormal. *)
Definition quot_units (a b : Z) : Q := inject_Z a * bpow 1074 / inject_Z b.

(** The exact product of two ranks, in units of the least subnormal. *)
Definition prod_units (a b : Z) : Q := inject_Z (a * b) * bpow (- 1074).

(** What division and multiplication by a finite positive float do to the
    rank of a non-negative float. *)
Definition div_rank (a b : Z) : Z :=
  if (a =? 0)%Z then 0
  else if (b =? top)%Z then 0
  else if (a =? top)%Z then top
  else Z.min (RN (quot_units a b)) top.

Definition mul_rank (c a : Z) : Z :=
  if (a =? 0)%Z then 0
  else if (a =? top)%Z then top
  else Z.min (RN (prod_units c a)) top.

Definition rank (x : float) : Z := rk (Prim2SF x).

(** Neither a NaN nor negative (a zero of either sign is good). *)
Definition good (x : float) : bool := nonneg (Prim2SF x).
End RoundingDefinitions.

(** ** app.py: the page *)

Module page.
Import app report.
Local Open Scope float_scope.
Local Open Scope py_scope.

(** The input widgets of lines 155 to 183, with the arguments the script
    gives them. *)
Record number_input : Type := mk_number_input {
  label : pystr;
  min_value : float;
  max_value : option float;
  value : float;
  step : float
}.

Record selectbox (A : Type) : Type := mk_selectbox {
  select_label : pystr;
  options : list A;
  index : nat
}.

Arguments mk_selectbox {A} select_label options index.
Arguments options {A} s.
Arguments index {A} s.

(** The literal [0.1]. *)
Definition tenth : float := 0x1.999999999999ap-4.

Definition material_select : selectbox pystr :=
  mk_selectbox (lit "Material") (map fst MATERIALS) 0.

Definition od_input : number_input :=
  mk_number_input (lit "Tube O.D. (mm)") 1 None 10 tenth.

Definition wall_input : number_input :=
  mk_number_input (lit "Wall Thickness (mm)") tenth None 1 tenth.

Definition angle_input : number_input :=
  mk_number_input (lit "Bend Angle (" ++ degree ++ lit ")") 1 (Some 180) 90 1.

Definition straight_input : number_input :=
  mk_number_input (lit "Straight Length before Bend (mm)") 1 None 500 1.

Definition d_of_bend_select : selectbox float :=
  mk_selectbox (quote ++ lit "D" ++ quote ++ lit " of Bend (CLR / O.D.)")
    [2; 2.5; 3; 4; 5] 2.

(** What a widget can hand to the script: a finite number within the
    bounds of the widget, one of the options of a select box. *)
Definition number_offers (w : number_input) (x : float) : bool :=
  is_finite x && (min_value w <=? x)
  && match max_value w with
     | Some top_value => x <=? top_value
     | None => true
     end.

Definition select_offers {A : Type} (w : selectbox A) (a : A) : Prop :=
  In a (options w).

Section WithLibrary.
Variable FPDF_output : list fpdf_call -> result pystr.

(** Lines 188 and 280 to 289: the results, then the report of the inputs
    and the results. *)
Definition run (material : pystr) (od wall angle straight_len d_of_bend : float)
    : result (bend_results * list N) :=
  results <- compute_bend_parameters od wall angle straight_len d_of_bend
               material ;;
  let inputs_dict :=
    mk_inputs material od wall angle straight_len d_of_bend in
  pdf_bytes <- generate_pdf_report FPDF_output inputs_dict results ;;
  Ok (results, pdf_bytes).
End WithLibrary.
End page.

(** ** bending_calc.py: the default of [material_factor] *)

Definition default_material_factor : float := 2%float.

(** ** Calls into libraries that are not part of the repository *)

(** What a call into PyPDF2, trimesh or fpdf does: it returns a value or
    raises one of the library's exceptions. *)
Inductive outcome (E A : Type) : Type :=
| Returns (a : A)
| Raises (e : E).

Arguments Returns {E A} a.
Arguments Raises {E A} e.

(** ** report.py *)

Module report_py.
Import report.

Definition default_filename : pystr := lit "Tube_Bending_Report.pdf".

Section WithLibrary.
(** [f"{x}"] of a float, Python's [str(x)]. *)
Variable str : float -> pystr.
(** [pdf.output(filename)] of fpdf: writes the file. *)
Variable error : Type.
Variable FPDF_output_file : list fpdf_call -> pystr -> outcome error unit.

Definition generate_pdf_calls (diameter angle bend_radius total_length : float)
    : list fpdf_call :=
  [ add_page;
    set_font "Arial" "B" 16;
    cell 0 10 (lit "Tube Bending Report") true "C";
    ln 10;
    set_font "Arial" "" 12;
    multi_cell 0 10 (lit "Tube Diameter: " ++ str diameter ++ lit " mm");
    multi_cell 0 10 (lit "Bend Angle: " ++ str angle ++ degree);
    multi_cell 0 10 (lit "Recommended Bend Radius: " ++ fmt bend_radius
                     ++ lit " mm");
    multi_cell 0 10 (lit "Total Tube Length: " ++ fmt total_length
                     ++ lit " mm") ].

Definition generate_pdf (diameter angle bend_radius total_length : float)
    (filename : pystr) : outcome error unit :=
  FPDF_output_file
    (generate_pdf_calls diameter angle bend_radius total_length) filename.
End WithLibrary.
End report_py.

(** ** pdf_reader.py *)

Module pdf_reader.

Section WithLibrary.
Variables (error file page : Type).
(** [open(pdf_path, "rb")], [PyPDF2.PdfReader(f).pages] and
    [page.extract_text()]. *)
Variable open_rb : pystr -> outcome error file.
Variable PdfReader_pages : file -> outcome error (list page).
Variable page_extract_text : page -> outcome error pystr.

(** The [for] loop, [text] being the string accumulated so far. *)
Fixpoint read_pages (pages : list page) (text : pystr) : outcome error pystr :=
  match pages with
  | [] => Returns text
  | p :: rest =>
      match page_extract_text p with
      | Returns t => read_pages rest (text ++ t)
      | Raises e => Raises e
      end
  end.

Definition extract_text (pdf_path : pystr) : outcome error pystr :=
  match open_rb pdf_path with
  | Raises e => Raises e
  | Returns f =>
      match PdfReader_pages f with
      | Raises e => Raises e
      | Returns pages => read_pages pages []
      end
  end.
End WithLibrary.

(** [text[:500]], what the module prints. *)
Definition first_500 (text : pystr) : pystr := firstn 500 text.
End pdf_reader.

(** ** mesh_ops.py *)

Module mesh_ops.

Section Slice.
Context {A : Type}.

(** [a[::step]] for [step = period + 1]: the items at the indices 0, step,
    2 * step, ...; [wait] counts the items still to skip. *)
Fixpoint take_every (period wait : nat) (a : list A) : list A :=
  match a with
  | [] => []
  | x :: a' =>
      match wait with
      | O => x :: take_every period period a'
      | S w => take_every period w a'
      end
  end.

(** [a[::10]]. *)
Definition slice_step_10 (a : list A) : list A := take_every 9 0 a.
End Slice.

Section WithLibrary.
Variables (error mesh box point rng : Type).
(** [trimesh.load(file, force='mesh')], [mesh.bounding_box_oriented] and
    [bbox.sample_volume(count)], which draws from numpy's generator. *)
Variable trimesh_load : pystr -> outcome error mesh.
Variable bounding_box_oriented : mesh -> outcome error box.
Variable sample_volume : box -> nat -> rng -> outcome error (list point * rng).

Definition load_stl_and_extract_centerline (file : pystr) (g : rng)
    : outcome error (list point * list point * rng) :=
  match trimesh_load file with
  | Raises e => Raises e
  | Returns mesh =>
      match bounding_box_oriented mesh with
      | Raises e => Raises e
      | Returns bbox =>
          match sample_volume bbox 50 g with
          | Raises e => Raises e
          | Returns (center_points, g') =>
              let bends := slice_step_10 center_points in
              Returns (center_points, bends, g')
          end
      end
  end.
End WithLibrary.
End mesh_ops.

(** ** Code points a codec has *)

Definition latin1 (c : codepoint) : bool := (c <=? 255)%N.
Definition ascii7 (c : codepoint) : bool := (c <? 128)%N.

(** ** Ranks under addition, signs *)

Section RankDefinitions.
Local Open Scope Z_scope.

(** What the addition of two non-negative floats does to their ranks. *)
Definition add_rank (a b : Z) : Z :=
  if (a =? top) || (b =? top) then top
  else Z.min (RN (inject_Z (a + b))) top.

(** A NaN, or a float whose sign bit is set / clear. *)
Definition sign_set (f : spec_float) : bool :=
  match f with
  | S754_nan => true
  | S754_zero s | S754_infinity s | S754_finite s _ _ => s
  end.

Definition sign_clear (f : spec_float) : bool :=
  match f with
  | S754_nan => true
  | S754_zero s | S754_infinity s | S754_finite s _ _ => negb s
  end.
End RankDefinitions.

(** * Lemmas *)

Local Open Scope float_scope.

(** ** The engine never divides by zero *)

(** A float that compares equal to zero is strictly below the clamp. *)
Lemma zero_below_epsilon (x : float) :
  (x =? 0) = true -> (x <? app.epsilon) = true.
Proof.
  rewrite FloatAxioms.eqb_spec, FloatAxioms.ltb_spec.
  change (Prim2SF 0) with (S754_zero false).
  change (Prim2SF app.epsilon)
    with (S754_finite false 4722366482869645 (-72)).
  destruct (Prim2SF x) as [s | [|] | | [|] m e]; intros H; cbn in H;
    try discriminate H; reflexivity.
Qed.

Lemma max_epsilon_nonzero (x : float) :
  (PyFloat.max x app.epsilon =? 0) = false.
Proof.
  unfold PyFloat.max.
  destruct (x <? app.epsilon) eqn:Hlt; [reflexivity|].
  destruct (x =? 0) eqn:Hz; [|reflexivity].
  apply zero_below_epsilon in Hz. congruence.
Qed.

Lemma gt_zero_nonzero (x : float) :
  PyFloat.gt x 0 = true -> (x =? 0) = false.
Proof.
  unfold PyFloat.gt.
  rewrite FloatAxioms.eqb_spec, FloatAxioms.ltb_spec.
  change (Prim2SF 0) with (S754_zero false).
  destruct (Prim2SF x) as [s | [|] | | [|] m e]; intros H; cbn in H;
    try discriminate H; reflexivity.
Qed.

Lemma truediv_max_epsilon (a x : float) :
  PyFloat.truediv a (PyFloat.max x app.epsilon)
  = Ok (a / PyFloat.max x app.epsilon).
Proof. unfold PyFloat.truediv. now rewrite max_epsilon_nonzero. Qed.

Lemma eq_zero_not_positive (x : float) : (x =? 0) = true -> (0 <? x) = false.
Proof.
  rewrite FloatAxioms.eqb_spec, FloatAxioms.ltb_spec.
  change (Prim2SF 0) with (S754_zero false).
  destruct (Prim2SF x) as [s | [|] | | [|] m e]; intros H; cbn in H;
    try discriminate H; reflexivity.
Qed.

(** The engine is the material lookup followed by the closed form: no
    division of the body can raise. *)
Lemma compute_bend_parameters_unfold
    (od_mm wall_mm angle_deg straight_mm d_of_bend : float) (name : pystr) :
  app.compute_bend_parameters od_mm wall_mm angle_deg straight_mm d_of_bend name
  = match app.getitem app.MATERIALS name with
    | Ok p => Ok (results_of p od_mm wall_mm angle_deg straight_mm d_of_bend)
    | Raise e => Raise e
    end.
Proof.
  unfold app.compute_bend_parameters.
  destruct (app.getitem app.MATERIALS name) as [p | e]; [|reflexivity].
  cbn [bind].
  rewrite truediv_max_epsilon. cbn [bind].
  change (PyFloat.truediv wall_mm 2) with (@Ok float (wall_mm / 2)).
  cbn [bind].
  rewrite truediv_max_epsilon. cbn [bind].
  set (st := app.E p * (wall_mm / 2
                        / PyFloat.max (d_of_bend * od_mm) app.epsilon)).
  change (PyFloat.truediv st 1000) with (@Ok float (st / 1000)).
  cbn [bind].
  unfold results_of. fold st.
  destruct (PyFloat.gt (st / 1000) 0) eqn:Hgt.
  - unfold PyFloat.truediv. rewrite (gt_zero_nonzero _ Hgt). cbn [bind].
    unfold PyFloat.gt in Hgt. now rewrite Hgt.
  - cbn [bind]. unfold PyFloat.gt in Hgt. now rewrite Hgt.
Qed.

(** ** Float multiplication commutes *)

Lemma SFmul_comm (x y : spec_float) : SF64mul x y = SF64mul y x.
Proof.
  unfold SF64mul.
  destruct x as [sx | sx | | sx mx ex], y as [sy | sy | | sy my ey]; cbn;
    rewrite ?(xorb_comm sx sy); try reflexivity.
  now rewrite (Pos.mul_comm mx my), (Z.add_comm ex ey).
Qed.

Lemma float_mul_comm (x y : float) : x * y = y * x.
Proof. apply Prim2SF_inj. rewrite !mul_spec. apply SFmul_comm. Qed.

(** ** Strings and the two-decimal format *)

Lemma pystr_eqb_eq (a b : pystr) : pystr_eqb a b = true <-> a = b.
Proof.
  unfold pystr_eqb. destruct (list_eq_dec N.eq_dec a b); split;
    congruence.
Qed.

Lemma pystr_eqb_neq (a b : pystr) : a <> b -> pystr_eqb a b = false.
Proof.
  intros H. destruct (pystr_eqb a b) eqn:E; [|reflexivity].
  apply pystr_eqb_eq in E. contradiction.
Qed.

Lemma decimal_digit (n : Z) :
  (0 <= n < 10)%Z -> exists d, PyFormat.decimal n = [d] /\ is_digit d.
Proof.
  intros H. exists (Z.to_N (48 + n)). split; [|unfold is_digit; lia].
  rewrite <- (Z2Nat.id n) by lia.
  assert (Z.to_nat n < 10)%nat as Hk by lia.
  revert Hk. generalize (Z.to_nat n) as k. intros k Hk.
  do 10 (destruct k as [|k]; [reflexivity|]). lia.
Qed.

Lemma fixed2_two_decimals (h : Z) : two_decimals (PyFormat.fixed2 h).
Proof.
  unfold PyFormat.fixed2.
  destruct (decimal_digit (h mod 100 / 10)) as (d1 & E1 & D1).
  { pose proof (Z.mod_pos_bound h 100 ltac:(lia)).
    split; [apply Z.div_pos; lia | apply Z.div_lt_upper_bound; lia]. }
  destruct (decimal_digit (h mod 10)) as (d2 & E2 & D2).
  { apply Z.mod_pos_bound. lia. }
  exists (PyFormat.decimal (h / 100)), d1, d2.
  rewrite E1, E2. split; [reflexivity | split; assumption].
Qed.

Lemma is_finite_spec (x : float) :
  is_finite x = true ->
  exists s, Prim2SF x = S754_zero s \/ exists m e, Prim2SF x = S754_finite s m e.
Proof.
  unfold is_finite, is_nan, is_infinity.
  rewrite !FloatAxioms.eqb_spec, abs_spec.
  change (Prim2SF infinity) with (S754_infinity false).
  destruct (Prim2SF x) as [s | [|] | | s m e]; cbn; try discriminate; intros _.
  - exists s. left. reflexivity.
  - exists s. right. exists m, e. reflexivity.
Qed.

Lemma format_2f_two_decimals (x : float) :
  is_finite x = true -> two_decimals (PyFormat.format_2f x).
Proof.
  intros H. destruct (is_finite_spec x H) as (s & [E | (m & e & E)]);
    unfold PyFormat.format_2f; rewrite E.
  - exists (PyFormat.sign_prefix s ++ lit "0"), 48%N, 48%N.
    rewrite <- app_assoc. unfold is_digit. split; [reflexivity | lia].
  - destruct (fixed2_two_decimals (PyFormat.hundredths m e))
      as (ip & d1 & d2 & E' & D1 & D2).
    exists (PyFormat.sign_prefix s ++ ip), d1, d2.
    rewrite E', <- app_assoc. split; [reflexivity | split; assumption].
Qed.

Lemma is_finite_cases (x : float) :
  is_finite x
  = match Prim2SF x with
    | S754_zero _ | S754_finite _ _ _ => true
    | _ => false
    end.
Proof.
  unfold is_finite, is_nan, is_infinity.
  rewrite !FloatAxioms.eqb_spec, abs_spec.
  change (Prim2SF infinity) with (S754_infinity false).
  destruct (Prim2SF x) as [s | [|] | | [|] m e]; try reflexivity;
    unfold SFeqb; cbn [SFcompare SFabs]; rewrite Z.compare_refl;
    change (Pos.compare_cont Eq m m) with (m ?= m)%positive;
    rewrite Pos.compare_refl; reflexivity.
Qed.

(** What is not finite prints without decimals. *)
Lemma format_2f_not_finite (x : float) :
  is_finite x = false ->
  In (PyFormat.format_2f x) [lit "inf"; lit "-inf"; lit "nan"].
Proof.
  rewrite is_finite_cases. unfold PyFormat.format_2f.
  destruct (Prim2SF x) as [s | [|] | | s m e]; try discriminate; intros _;
    cbn [In]; auto.
Qed.

Lemma inf_not_two_decimals : ~ two_decimals (lit "inf").
Proof.
  intros (ip & d1 & d2 & E & _).
  destruct ip as [|a [|b [|c [|d ip]]]]; cbn in E; discriminate E.
Qed.

(** [strict_output] is a library of the kind [core_fonts_are_latin1]
    describes. *)
Lemma strict_output_is_strict : core_fonts_are_latin1 strict_output.
Proof.
  intros calls t Ht Hs. exists UnicodeEncodeError. unfold strict_output.
  destruct (forallb (forallb (fun c => (c <=? 255)%N)) (report.texts calls))
    eqn:E; [|reflexivity].
  rewrite forallb_forall in E. specialize (E t Ht).
  unfold report.encode_latin1_strict in Hs. rewrite E in Hs. discriminate Hs.
Qed.

(** * Rounding is monotone *)

Section Rounding.
Local Open Scope Q_scope.

Lemma bpow_pos e : 0 < bpow e.
Proof. apply Qpower_0_lt. reflexivity. Qed.

Lemma bpow_add a b : bpow (a + b) == bpow a * bpow b.
Proof. apply Qpower_plus. discriminate. Qed.

Lemma bpow_Z k : (0 <= k)%Z -> bpow k == inject_Z (2 ^ k).
Proof. intros H. unfold bpow. rewrite Zpower_Qpower by assumption. reflexivity. Qed.

Lemma bpow_0 : bpow 0 == 1.
Proof. reflexivity. Qed.

Lemma bpow_1 : bpow 1 == 2.
Proof. reflexivity. Qed.

Lemma bpow_opp a : bpow a * bpow (- a) == 1.
Proof. rewrite <- bpow_add, Z.add_opp_diag_r. reflexivity. Qed.

Lemma bpow_le a b : (a <= b)%Z -> bpow a <= bpow b.
Proof.
  intros H. replace b with (a + (b - a))%Z by lia. rewrite bpow_add.
  assert (1 <= bpow (b - a)).
  { rewrite bpow_Z by lia. change 1 with (inject_Z 1). rewrite <- Zle_Qle.
    pose proof (Z.pow_pos_nonneg 2 (b - a)). lia. }
  pose proof (bpow_pos a). nra.
Qed.

Lemma bpow_lt a b : (a < b)%Z -> bpow a < bpow b.
Proof.
  intros H. replace b with (a + 1 + (b - a - 1))%Z by lia.
  rewrite !bpow_add, bpow_1.
  assert (1 <= bpow (b - a - 1)).
  { rewrite bpow_Z by lia. change 1 with (inject_Z 1). rewrite <- Zle_Qle.
    pose proof (Z.pow_pos_nonneg 2 (b - a - 1)). lia. }
  pose proof (bpow_pos a). nra.
Qed.

Lemma Qfloor_eq (y : Q) (m : Z) :
  inject_Z m <= y -> y < inject_Z m + 1 -> Qfloor y = m.
Proof.
  intros H1 H2.
  pose proof (Qfloor_le y) as F1. pose proof (Qlt_floor y) as F2.
  rewrite inject_Z_plus in F2. change (inject_Z 1) with 1 in F2.
  assert (inject_Z (Qfloor y) < inject_Z m + 1) as A by lra.
  assert (inject_Z m < inject_Z (Qfloor y) + 1) as B by lra.
  change 1 with (inject_Z 1) in A, B. rewrite <- inject_Z_plus in A, B.
  rewrite <- Zlt_Qlt in A, B. lia.
Qed.

Lemma rne_bounds (y : Q) : (Qfloor y <= rne y <= Qfloor y + 1)%Z.
Proof.
  unfold rne. destruct (Qcompare (y - inject_Z (Qfloor y)) (1 # 2));
    try destruct (Z.even (Qfloor y)); lia.
Qed.

Lemma rne_mono (y z : Q) : y <= z -> (rne y <= rne z)%Z.
Proof.
  intros H. pose proof (Qfloor_resp_le _ _ H) as Hf.
  destruct (Z.eq_dec (Qfloor y) (Qfloor z)) as [E | NE].
  - unfold rne. rewrite <- E.
    destruct (Qcompare_spec (y - inject_Z (Qfloor y)) (1 # 2));
      destruct (Qcompare_spec (z - inject_Z (Qfloor y)) (1 # 2));
      try destruct (Z.even (Qfloor y)); try lia; lra.
  - pose proof (rne_bounds y). pose proof (rne_bounds z). lia.
Qed.

Lemma rne_Z (n : Z) : rne (inject_Z n) = n.
Proof.
  unfold rne. rewrite Qfloor_Z.
  destruct (Qcompare_spec (inject_Z n - inject_Z n) (1 # 2)); try reflexivity; lra.
Qed.

Lemma rne_ge (y : Q) (n : Z) : inject_Z n <= y -> (n <= rne y)%Z.
Proof. intros H. rewrite <- (rne_Z n). now apply rne_mono. Qed.

Lemma rne_le (y : Q) (n : Z) : y <= inject_Z n -> (rne y <= n)%Z.
Proof. intros H. rewrite <- (rne_Z n). now apply rne_mono. Qed.

(** ** Rounding a non-negative rational, in units of the least subnormal *)

Lemma shift_of_nonneg u : (0 <= shift_of u)%Z.
Proof. unfold shift_of. lia. Qed.

Lemma Qfloor_nonneg u : 0 <= u -> (0 <= Qfloor u)%Z.
Proof. intros H. change 0%Z with (Qfloor 0). now apply Qfloor_resp_le. Qed.

Lemma below_next_binade (u : Q) : 0 <= u -> u < bpow (shift_of u + 53).
Proof.
  intros Hu. pose proof (Qfloor_nonneg u Hu) as HN.
  pose proof (Qlt_floor u) as Hlt.
  assert (Hk : (Z.log2 (Qfloor u) + 1 <= shift_of u + 53)%Z)
    by (unfold shift_of; lia).
  assert (HN1 : (Qfloor u + 1 <= 2 ^ (Z.log2 (Qfloor u) + 1))%Z).
  { destruct (Z.eq_dec (Qfloor u) 0) as [-> | NZ]; [cbn; lia|].
    pose proof (Z.log2_spec (Qfloor u) ltac:(lia)). lia. }
  apply Qlt_le_trans with (1 := Hlt).
  apply Qle_trans with (inject_Z (2 ^ (Z.log2 (Qfloor u) + 1))).
  - now rewrite <- Zle_Qle.
  - rewrite <- bpow_Z by (pose proof (Z.log2_nonneg (Qfloor u)); lia).
    now apply bpow_le.
Qed.

Lemma above_binade (u : Q) :
  0 <= u -> (1 <= shift_of u)%Z -> bpow (shift_of u + 52) <= u.
Proof.
  intros Hu Hk. pose proof (Qfloor_nonneg u Hu) as HN.
  assert (E : (shift_of u + 52 = Z.log2 (Qfloor u))%Z)
    by (unfold shift_of in *; lia).
  assert (NZ : (0 < Qfloor u)%Z).
  { destruct (Z.eq_dec (Qfloor u) 0) as [Z0 | NZ]; [|lia].
    rewrite Z0 in E. cbn in E. lia. }
  rewrite E, bpow_Z by apply Z.log2_nonneg.
  apply Qle_trans with (inject_Z (Qfloor u)); [|apply Qfloor_le].
  rewrite <- Zle_Qle. apply Z.log2_spec. exact NZ.
Qed.

Lemma scale_lt (u : Q) (k j : Z) : u < bpow (k + j) -> u * bpow (- k) < bpow j.
Proof.
  intros H. rewrite bpow_add in H.
  pose proof (bpow_opp k). pose proof (bpow_pos (-k)). pose proof (bpow_pos k).
  pose proof (bpow_pos j). nra.
Qed.

Lemma scale_le (u : Q) (k j : Z) : bpow (k + j) <= u -> bpow j <= u * bpow (- k).
Proof.
  intros H. rewrite bpow_add in H.
  pose proof (bpow_opp k). pose proof (bpow_pos (-k)). pose proof (bpow_pos k).
  pose proof (bpow_pos j). nra.
Qed.

Lemma RN_mono (u v : Q) : 0 <= u -> u <= v -> (RN u <= RN v)%Z.
Proof.
  intros Hu Huv. assert (Hv : 0 <= v) by lra.
  assert (Hk : (shift_of u <= shift_of v)%Z).
  { unfold shift_of. pose proof (Qfloor_resp_le _ _ Huv).
    pose proof (Z.log2_le_mono (Qfloor u) (Qfloor v)). lia. }
  pose proof (shift_of_nonneg u) as Hku.
  unfold RN.
  destruct (Z.eq_dec (shift_of u) (shift_of v)) as [E | NE].
  - rewrite <- E. apply Z.mul_le_mono_nonneg_r; [apply Z.pow_nonneg; lia|].
    apply rne_mono. pose proof (bpow_pos (- shift_of u)). nra.
  - assert (A : (rne (u * bpow (- shift_of u)) <= 2 ^ 53)%Z).
    { apply rne_le. rewrite <- bpow_Z by lia. apply Qlt_le_weak, scale_lt.
      now apply below_next_binade. }
    assert (B : (2 ^ 52 <= rne (v * bpow (- shift_of v)))%Z).
    { apply rne_ge. rewrite <- bpow_Z by lia. apply scale_le.
      apply above_binade; [exact Hv | lia]. }
    apply Z.le_trans with (2 ^ 53 * 2 ^ shift_of u)%Z.
    { apply Z.mul_le_mono_nonneg_r; [apply Z.pow_nonneg; lia | exact A]. }
    apply Z.le_trans with (2 ^ 52 * 2 ^ shift_of v)%Z.
    { rewrite <- !Z.pow_add_r by lia. apply Z.pow_le_mono_r; lia. }
    apply Z.mul_le_mono_nonneg_r; [apply Z.pow_nonneg; lia | exact B].
Qed.

Lemma inject_Z_xO (p : positive) : inject_Z (Z.pos p~0) == 2 * inject_Z (Z.pos p).
Proof. change (Z.pos p~0) with (2 * Z.pos p)%Z. now rewrite inject_Z_mult. Qed.

Lemma inject_Z_xI (p : positive) : inject_Z (Z.pos p~1) == 2 * inject_Z (Z.pos p) + 1.
Proof.
  change (Z.pos p~1) with (2 * Z.pos p + 1)%Z.
  now rewrite inject_Z_plus, inject_Z_mult.
Qed.

Lemma shr_1_inb (y z : Q) (mrs : shr_record) :
  (0 <= shr_m mrs)%Z -> inb y mrs -> y == 2 * z ->
  inb z (shr_1 mrs) /\ shr_m (shr_1 mrs) = (shr_m mrs / 2)%Z.
Proof.
  destruct mrs as [m r s]. unfold inb. cbn [shr_m].
  intros Hm H Hz. split.
  - destruct m as [|[p|p|]|p]; try lia; destruct r, s;
      cbn [shr_1 loc_of_shr_record shr_m inbetween orb] in *;
      rewrite ?inject_Z_xO, ?inject_Z_xI in H;
      change (inject_Z 0) with 0 in *; change (inject_Z 1) with 1 in *;
      lra.
  - destruct m as [|[p|p|]|p]; try lia; cbn [shr_1 shr_m].
    + reflexivity.
    + change (Z.pos p~1) with (1 + 2 * Z.pos p)%Z.
      rewrite Z.add_comm, Z.mul_comm, Z.div_add_l by lia. reflexivity.
    + change (Z.pos p~0) with (2 * Z.pos p)%Z.
      rewrite Z.mul_comm, Z.div_mul by lia. reflexivity.
    + reflexivity.
Qed.

Lemma inbetween_eq (y z : Q) (m : Z) (l : location) :
  y == z -> inbetween y m l -> inbetween z m l.
Proof. intros E. destruct l as [|[| |]]; cbn [inbetween]; lra. Qed.

Lemma iter_pos_nat {A} (f : A -> A) (p : positive) (x : A) :
  iter_pos f p x = Nat.iter (Pos.to_nat p) f x.
Proof.
  revert x. induction p as [p IH | p IH |]; intros x; cbn [iter_pos].
  - rewrite !IH, Pos2Nat.inj_xI. cbn [Nat.iter].
    rewrite <- Nat.iter_add. rewrite Nat.iter_succ_r. f_equal. lia.
  - rewrite !IH, Pos2Nat.inj_xO, <- Nat.iter_add. f_equal. lia.
  - reflexivity.
Qed.

Lemma shr_iter_inb (n : nat) (y z : Q) (mrs : shr_record) :
  (0 <= shr_m mrs)%Z -> inb y mrs -> y == inject_Z (2 ^ Z.of_nat n) * z ->
  inb z (Nat.iter n shr_1 mrs)
  /\ shr_m (Nat.iter n shr_1 mrs) = (shr_m mrs / 2 ^ Z.of_nat n)%Z.
Proof.
  revert y z mrs. induction n as [|n IH]; intros y z mrs Hm H Hz.
  - cbn [Nat.iter]. change (2 ^ Z.of_nat 0)%Z with 1%Z in *.
    rewrite Z.div_1_r. split; [|reflexivity].
    apply (inbetween_eq y); [|exact H].
    change (inject_Z 1) with 1 in Hz. lra.
  - rewrite Nat.iter_succ_r.
    assert (Hp : (2 ^ Z.of_nat (S n) = 2 * 2 ^ Z.of_nat n)%Z).
    { rewrite Nat2Z.inj_succ, Z.pow_succ_r by lia. reflexivity. }
    rewrite Hp in *. rewrite inject_Z_mult in Hz.
    destruct (shr_1_inb y (inject_Z (2 ^ Z.of_nat n) * z) mrs Hm H) as [H1 E1].
    { change (inject_Z 2) with 2 in Hz. lra. }
    assert (Hm1 : (0 <= shr_m (shr_1 mrs))%Z).
    { rewrite E1. apply Z.div_pos; lia. }
    destruct (IH _ z _ Hm1 H1) as [H2 E2]; [reflexivity|].
    split; [exact H2|].
    rewrite E2, E1, Z.div_div by lia. reflexivity.
Qed.

(** ** The shifts of [SpecFloat] *)

Lemma fexp_eq (e : Z) : fexp prec emax e = Z.max (e - 53) (-1074).
Proof. reflexivity. Qed.

Lemma digits2_pos_size (p : positive) : digits2_pos p = Pos.size p.
Proof. induction p as [p IH | p IH |]; cbn; now rewrite ?IH. Qed.

Lemma Zdigits2_log2 (m : Z) : (0 < m)%Z -> Zdigits2 m = (Z.log2 m + 1)%Z.
Proof.
  destruct m as [|p|p]; try lia. intros _. cbn [Zdigits2].
  rewrite digits2_pos_size. destruct p; cbn [Z.log2 Pos.size]; lia.
Qed.

Lemma inb_of_loc (y : Q) (m : Z) (l : location) :
  inb y (shr_record_of_loc m l) <-> inbetween y m l.
Proof. unfold inb. destruct l as [|[| |]]; reflexivity. Qed.

Lemma shr_m_of_loc (m : Z) (l : location) : shr_m (shr_record_of_loc m l) = m.
Proof. destruct l as [|[| |]]; reflexivity. Qed.

(** [shr mrs e n] divides by [2 ^ max n 0] and keeps track of what is lost. *)
Lemma shr_spec (y z : Q) (mrs : shr_record) (e n : Z) :
  (0 <= shr_m mrs)%Z -> inb y mrs -> y == bpow (Z.max n 0) * z ->
  inb z (fst (shr mrs e n))
  /\ shr_m (fst (shr mrs e n)) = (shr_m mrs / 2 ^ Z.max n 0)%Z
  /\ snd (shr mrs e n) = (e + Z.max n 0)%Z.
Proof.
  intros Hm H Hz. destruct n as [|p|p]; cbn [shr fst snd].
  - change (Z.max 0 0) with 0%Z in *. rewrite bpow_0 in Hz.
    rewrite Z.div_1_r, Z.add_0_r. repeat split.
    apply (inbetween_eq y); [lra | exact H].
  - rewrite Z.max_l in * by lia. rewrite iter_pos_nat.
    rewrite bpow_Z in Hz by lia. rewrite <- (positive_nat_Z p) in Hz |- * at 1.
    destruct (shr_iter_inb (Pos.to_nat p) y z mrs Hm H Hz) as [A B].
    rewrite positive_nat_Z in *. repeat split; assumption.
  - rewrite Z.max_r in * by lia. rewrite bpow_0 in Hz.
    rewrite Z.div_1_r, Z.add_0_r. repeat split.
    apply (inbetween_eq y); [lra | exact H].
Qed.

Lemma inbetween_floor (y : Q) (m : Z) (l : location) :
  inbetween y m l -> Qfloor y = m.
Proof.
  intros H. apply Qfloor_eq; destruct l as [|[| |]]; cbn [inbetween] in H; lra.
Qed.

Lemma rne_inbetween (y : Q) (m : Z) (l : location) :
  inbetween y m l -> round_nearest_even m l = rne y.
Proof.
  intros H. unfold rne. rewrite (inbetween_floor y m l H).
  destruct (Qcompare_spec (y - inject_Z m) (1 # 2));
    destruct l as [|[| |]]; cbn [inbetween round_nearest_even] in *;
    try reflexivity; lra.
Qed.

(** ** Where a rational sits among the binades *)

Lemma log2_floor (u : Q) (a : Z) :
  (0 <= a)%Z -> bpow a <= u -> u < bpow (a + 1) -> Z.log2 (Qfloor u) = a.
Proof.
  intros Ha H1 H2. rewrite bpow_Z in H1, H2 by lia.
  apply Z.log2_unique; [exact Ha|]. split.
  - rewrite <- (Qfloor_Z (2 ^ a)). now apply Qfloor_resp_le.
  - rewrite Z.add_1_r in *. rewrite Zlt_Qlt.
    apply Qle_lt_trans with (2 := H2). apply Qfloor_le.
Qed.

Lemma shift_of_small (u : Q) : 0 <= u -> u < 1 -> shift_of u = 0%Z.
Proof.
  intros H0 H1. unfold shift_of.
  rewrite (Qfloor_eq u 0) by (change (inject_Z 0) with 0; lra).
  reflexivity.
Qed.

Lemma shift_of_binade (u : Q) (a : Z) :
  bpow a <= u -> u < bpow (a + 1) -> shift_of u = Z.max 0 (a - 52).
Proof.
  intros H1 H2. destruct (Z_le_gt_dec 0 a) as [Ha | Ha].
  - unfold shift_of. now rewrite (log2_floor u a).
  - rewrite shift_of_small.
    + lia.
    + pose proof (bpow_pos a). lra.
    + apply Qlt_le_trans with (1 := H2). rewrite <- bpow_0. apply bpow_le. lia.
Qed.

Lemma unscale (u : Q) (g : Z) : u == u * bpow (- g) * bpow g.
Proof.
  pose proof (bpow_opp g) as E. rewrite <- Qmult_assoc.
  rewrite (Qmult_comm (bpow (- g))), E. ring.
Qed.

Lemma Zpos_binade (m : Z) :
  (0 < m)%Z -> (2 ^ Z.log2 m <= m < 2 ^ (Z.log2 m + 1))%Z.
Proof. intros H. pose proof (Z.log2_spec m H). rewrite Z.add_1_r. lia. Qed.

(** The first shift of [binary_round_aux] brings any sufficiently fine
    description of [u] to the exponent [shift_of u - 1074]. *)
Lemma first_shift_amount (u : Q) (m e : Z) (l : location) :
  0 <= u -> (0 <= m)%Z ->
  inbetween (u * bpow (- (e + 1074))) m l ->
  (e + 1074 <= shift_of u)%Z ->
  Z.max (fexp prec emax (Zdigits2 m + e) - e) 0
  = (shift_of u - (e + 1074))%Z.
Proof.
  intros Hu Hm Hin Hg. rewrite fexp_eq.
  set (g := (e + 1074)%Z) in *. set (y := u * bpow (- g)) in *.
  pose proof (unscale u g) as Eu. fold y in Eu.
  pose proof (bpow_pos g) as Pg.
  assert (Hy : inject_Z m <= y /\ y < inject_Z m + 1)
    by (destruct l as [|[| |]]; cbn [inbetween] in Hin; lra).
  destruct (Z.eq_dec m 0) as [-> | NZ].
  - change (inject_Z 0) with 0 in Hy. cbn [Zdigits2].
    assert (Hlt : u < bpow g) by nra.
    assert (K : shift_of u = 0%Z).
    { destruct (Z_le_gt_dec 1 (shift_of u)) as [K1 | K1]; [|pose proof (shift_of_nonneg u); lia].
      exfalso. pose proof (above_binade u Hu K1) as A.
      assert (bpow g <= bpow (shift_of u + 52)) by (apply bpow_le; lia).
      lra. }
    lia.
  - assert (Hpos : (0 < m)%Z) by lia.
    rewrite (Zdigits2_log2 m Hpos).
    destruct (Zpos_binade m Hpos) as [B1 B2].
    set (L := Z.log2 m) in *.
    assert (HL : (0 <= L)%Z) by apply Z.log2_nonneg.
    assert (B3 : (m + 1 <= 2 ^ (L + 1))%Z) by lia.
    rewrite Zle_Qle in B1, B3.
    rewrite <- bpow_Z in B1, B3 by lia.
    rewrite inject_Z_plus in B3. change (inject_Z 1) with 1 in B3.
    assert (U1 : bpow (L + g) <= u) by (rewrite bpow_add; nra).
    assert (U2 : u < bpow (L + g + 1)).
    { replace (L + g + 1)%Z with (L + 1 + g)%Z by lia. rewrite bpow_add.
      assert (y < bpow (L + 1)) by lra.
      nra. }
    rewrite (shift_of_binade u (L + g) U1 U2) in *. lia.
Qed.

Lemma first_shift (u : Q) (m e : Z) (l : location) :
  0 <= u -> (0 <= m)%Z ->
  inbetween (u * bpow (- (e + 1074))) m l ->
  (e + 1074 <= shift_of u)%Z ->
  inb (u * bpow (- shift_of u)) (fst (shr_fexp prec emax m e l))
  /\ (0 <= shr_m (fst (shr_fexp prec emax m e l)))%Z
  /\ snd (shr_fexp prec emax m e l) = (shift_of u - 1074)%Z.
Proof.
  intros Hu Hm Hin Hg. unfold shr_fexp.
  pose proof (first_shift_amount u m e l Hu Hm Hin Hg) as Hn.
  set (n := (fexp prec emax (Zdigits2 m + e) - e)%Z) in *.
  destruct (shr_spec (u * bpow (- (e + 1074))) (u * bpow (- shift_of u))
              (shr_record_of_loc m l) e n) as (A & B & C).
  - now rewrite shr_m_of_loc.
  - now apply inb_of_loc.
  - rewrite Hn.
    replace (- (e + 1074))%Z
      with (shift_of u - (e + 1074) + - shift_of u)%Z by lia.
    rewrite bpow_add. ring.
  - split; [exact A|]. split.
    + rewrite B, shr_m_of_loc. apply Z.div_pos; [exact Hm|].
      apply Z.pow_pos_nonneg; lia.
    + rewrite C, Hn. lia.
Qed.

(** The second shift only renormalises a mantissa that rounding carried
    up to [2 ^ 53]. *)
Lemma second_shift_small (M e : Z) :
  (0 <= M < 2 ^ 53)%Z -> (-1074 <= e)%Z ->
  shr_fexp prec emax M e loc_Exact = (shr_record_of_loc M loc_Exact, e).
Proof.
  intros HM He. unfold shr_fexp. rewrite fexp_eq.
  assert (Hd : (Zdigits2 M <= 53)%Z).
  { destruct (Z.eq_dec M 0) as [-> | NZ]; [cbn; lia|].
    rewrite Zdigits2_log2 by lia.
    assert (Z.log2 M < 53)%Z by (apply Z.log2_lt_pow2; lia). lia. }
  destruct (Z.max (Zdigits2 M + e - 53) (-1074) - e)%Z eqn:E; try reflexivity.
  lia.
Qed.

Lemma second_shift_carry (e : Z) :
  (-1074 <= e)%Z ->
  shr_m (fst (shr_fexp prec emax (2 ^ 53) e loc_Exact)) = (2 ^ 52)%Z
  /\ snd (shr_fexp prec emax (2 ^ 53) e loc_Exact) = (e + 1)%Z.
Proof.
  intros He. unfold shr_fexp. rewrite fexp_eq.
  change (Zdigits2 (2 ^ 53)) with 54%Z.
  replace (Z.max (54 + e - 53) (-1074) - e)%Z with 1%Z by lia.
  split; reflexivity.
Qed.

(** ** Floats as integers: the rank of a non-negative float *)

Lemma pow2_split (a b : Z) :
  (0 <= a)%Z -> (0 <= b)%Z -> (2 ^ a * 2 ^ b = 2 ^ (a + b))%Z.
Proof. intros. now rewrite Z.pow_add_r. Qed.

Lemma below_top (M k : Z) :
  (0 <= M)%Z -> (0 <= k)%Z -> (M < 2 ^ 53)%Z -> (k <= 2045)%Z ->
  (M * 2 ^ k < top)%Z.
Proof.
  intros HM Hk HM' Hk'. unfold top.
  apply Z.lt_le_trans with (2 ^ 53 * 2 ^ k)%Z.
  - apply Z.mul_lt_mono_pos_r; [apply Z.pow_pos_nonneg; lia | exact HM'].
  - rewrite pow2_split by lia. apply Z.pow_le_mono_r; lia.
Qed.

Lemma above_top (M k j : Z) :
  (0 <= j)%Z -> (2 ^ j <= M)%Z -> (2098 <= j + k)%Z -> (0 <= k)%Z ->
  (top <= M * 2 ^ k)%Z.
Proof.
  intros Hj HM Hjk Hk. unfold top.
  apply Z.le_trans with (2 ^ j * 2 ^ k)%Z.
  - rewrite pow2_split by lia. apply Z.pow_le_mono_r; lia.
  - apply Z.mul_le_mono_nonneg_r; [apply Z.pow_nonneg; lia | exact HM].
Qed.

(** [binary_round_aux] rounds to nearest even and saturates at infinity. *)
Lemma round_aux_rk (u : Q) (m e : Z) (l : location) :
  0 <= u -> (0 <= m)%Z ->
  inbetween (u * bpow (- (e + 1074))) m l ->
  (e + 1074 <= shift_of u)%Z ->
  rk (binary_round_aux prec emax false m e l) = Z.min (RN u) top
  /\ nonneg (binary_round_aux prec emax false m e l) = true.
Proof.
  intros Hu Hm Hin Hg.
  destruct (first_shift u m e l Hu Hm Hin Hg) as (A & B & C).
  unfold binary_round_aux.
  destruct (shr_fexp prec emax m e l) as [mrs' e'] eqn:E1.
  cbn [fst snd] in A, B, C. subst e'.
  pose proof (shift_of_nonneg u) as Hk.
  assert (RNeq : RN u = (rne (u * bpow (- shift_of u)) * 2 ^ shift_of u)%Z)
    by reflexivity.
  assert (Hbin : (1 <= shift_of u)%Z ->
                 (2 ^ 52 <= rne (u * bpow (- shift_of u)))%Z).
  { intros K1. apply rne_ge. rewrite <- bpow_Z by lia.
    apply scale_le. now apply above_binade. }
  set (k := shift_of u) in *. set (z := u * bpow (- k)) in *.
  rewrite (rne_inbetween z _ _ A).
  assert (Hz0 : 0 <= z) by (unfold z; pose proof (bpow_pos (- k)); nra).
  assert (Hz1 : z < bpow 53) by (apply scale_lt, below_next_binade; exact Hu).
  assert (R0 : (0 <= rne z)%Z) by (apply rne_ge; exact Hz0).
  assert (R1 : (rne z <= 2 ^ 53)%Z)
    by (apply rne_le; rewrite <- bpow_Z by lia; lra).
  change (emax - prec)%Z with 971%Z.
  destruct (Z.eq_dec (rne z) (2 ^ 53)) as [Ec | Nc].
  - rewrite Ec in *.
    destruct (second_shift_carry (k - 1074)) as [S1 S2]; [lia|].
    destruct (shr_fexp prec emax (2 ^ 53) (k - 1074) loc_Exact)
      as [mrs'' e''] eqn:E2.
    cbn [fst snd] in S1, S2. rewrite S1, S2.
    change (2 ^ 52)%Z with (Z.pos (2 ^ 52)).
    destruct (Z.leb_spec (k - 1074 + 1) 971) as [Le | Gt]; cbn [rk nonneg negb].
    + split; [|reflexivity].
      replace (k - 1074 + 1 + 1074)%Z with (1 + k)%Z by lia.
      rewrite RNeq, Z.min_l.
      * change (Z.pos (2 ^ 52)) with (2 ^ 52)%Z.
        rewrite <- (pow2_split 1 k) by lia. change (2 ^ 53)%Z with (2 ^ 52 * 2 ^ 1)%Z.
        ring.
      * apply Z.lt_le_incl. rewrite pow2_split by lia. unfold top.
        apply Z.pow_lt_mono_r; lia.
    + split; [|reflexivity]. rewrite RNeq, Z.min_r; [reflexivity|].
      apply (above_top _ k 53); lia.
  - rewrite second_shift_small by lia. cbn [shr_m shr_record_of_loc].
    destruct (rne z) as [|p|p] eqn:Er; [| |lia].
    + cbn [rk nonneg]. split; [|reflexivity].
      rewrite RNeq, Z.mul_0_l. unfold top. rewrite Z.min_l; [reflexivity|].
      apply Z.pow_nonneg. lia.
    + destruct (Z.leb_spec (k - 1074) 971) as [Le | Gt]; cbn [rk nonneg negb].
      * split; [|reflexivity].
        replace (k - 1074 + 1074)%Z with k by lia.
        rewrite RNeq, Z.min_l; [reflexivity|].
        apply Z.lt_le_incl, below_top; lia.
      * split; [|reflexivity]. rewrite RNeq, Z.min_r; [reflexivity|].
        apply (above_top _ k 52); lia.
Qed.

(** ** Order on valid non-negative floats is order on ranks *)

Lemma valid_finite (s : bool) (m : positive) (e : Z) :
  valid_binary (S754_finite s m e) = true ->
  (-1074 <= e <= 971)%Z
  /\ (Z.pos m < 2 ^ 53)%Z
  /\ (e = -1074 \/ 2 ^ 52 <= Z.pos m)%Z.
Proof.
  cbn [SpecFloat.valid_binary]. unfold bounded, canonical_mantissa.
  rewrite andb_true_iff, Z.eqb_eq, Z.leb_le, fexp_eq.
  change (emax - prec)%Z with 971%Z.
  change (Z.pos (digits2_pos m)) with (Zdigits2 (Z.pos m)).
  rewrite Zdigits2_log2 by lia.
  intros [Hc He].
  destruct (Zpos_binade (Z.pos m) ltac:(lia)) as [B1 B2].
  assert (HL : (0 <= Z.log2 (Z.pos m))%Z) by apply Z.log2_nonneg.
  split; [lia|]. split.
  - apply Z.lt_le_trans with (1 := B2). apply Z.pow_le_mono_r; lia.
  - destruct (Z.eq_dec e (-1074)) as [-> | Ne]; [left; reflexivity | right].
    apply Z.le_trans with (2 := B1). apply Z.pow_le_mono_r; lia.
Qed.

Lemma rk_finite_bounds (s : bool) (m : positive) (e : Z) :
  valid_binary (S754_finite s m e) = true ->
  (0 < rk (S754_finite s m e) < top)%Z.
Proof.
  intros H. destruct (valid_finite s m e H) as (He & Hm & _). cbn [rk]. split.
  - apply Z.mul_pos_pos; [lia | apply Z.pow_pos_nonneg; lia].
  - apply below_top; lia.
Qed.

Lemma top_pos : (0 < top)%Z.
Proof. unfold top. apply Z.pow_pos_nonneg; lia. Qed.

Lemma rk_range (f : spec_float) :
  valid_binary f = true -> (0 <= rk f <= top)%Z.
Proof.
  pose proof top_pos. destruct f as [s | s | | s m e]; cbn [rk]; intros V; try lia.
  pose proof (rk_finite_bounds s m e V) as B. cbn [rk] in B. lia.
Qed.

Lemma rk_compare_finite (m1 m2 : positive) (e1 e2 : Z) :
  valid_binary (S754_finite false m1 e1) = true ->
  valid_binary (S754_finite false m2 e2) = true ->
  match (e1 ?= e2)%Z with
  | Lt => Lt
  | Gt => Gt
  | Eq => Pos.compare_cont Eq m1 m2
  end
  = (Z.pos m1 * 2 ^ (e1 + 1074) ?= Z.pos m2 * 2 ^ (e2 + 1074))%Z.
Proof.
  intros V1 V2.
  destruct (valid_finite _ _ _ V1) as (He1 & Hm1 & Hn1).
  destruct (valid_finite _ _ _ V2) as (He2 & Hm2 & Hn2).
  assert (Step : forall (ma mb : positive) (ea eb : Z),
             (-1074 <= ea < eb)%Z -> (Z.pos ma < 2 ^ 53)%Z ->
             (2 ^ 52 <= Z.pos mb)%Z ->
             (Z.pos ma * 2 ^ (ea + 1074) < Z.pos mb * 2 ^ (eb + 1074))%Z).
  { intros ma mb ea eb Ha Hma Hmb.
    apply Z.lt_le_trans with (2 ^ 53 * 2 ^ (ea + 1074))%Z.
    - apply Z.mul_lt_mono_pos_r; [apply Z.pow_pos_nonneg; lia | exact Hma].
    - apply Z.le_trans with (2 ^ 52 * 2 ^ (eb + 1074))%Z.
      + rewrite !pow2_split by lia. apply Z.pow_le_mono_r; lia.
      + apply Z.mul_le_mono_nonneg_r; [apply Z.pow_nonneg; lia | exact Hmb]. }
  destruct (Z.compare_spec e1 e2) as [E | L | G]; symmetry.
  - subst e2. change (Pos.compare_cont Eq m1 m2) with (Z.pos m1 ?= Z.pos m2)%Z.
    symmetry. apply Zmult_compare_compat_r, Z.lt_gt, Z.pow_pos_nonneg; lia.
  - apply Z.compare_lt_iff. apply Step; lia.
  - apply Z.compare_gt_iff. apply Step; lia.
Qed.

Lemma rk_compare (a b : spec_float) :
  valid_binary a = true -> valid_binary b = true ->
  nonneg a = true -> nonneg b = true ->
  SFcompare a b = Some (rk a ?= rk b)%Z.
Proof.
  intros Va Vb Na Nb. pose proof top_pos as T.
  destruct a as [sa | [|] | | [|] ma ea]; try discriminate Na;
    destruct b as [sb | [|] | | [|] mb eb]; try discriminate Nb;
    cbn [SFcompare rk].
  - reflexivity.
  - apply (f_equal (@Some comparison)). symmetry. apply Z.compare_lt_iff. exact T.
  - pose proof (rk_finite_bounds _ _ _ Vb) as B. cbn [rk] in B.
    apply (f_equal (@Some comparison)). symmetry. apply Z.compare_lt_iff. lia.
  - apply (f_equal (@Some comparison)). symmetry. apply Z.compare_gt_iff. exact T.
  - now rewrite Z.compare_refl.
  - pose proof (rk_finite_bounds _ _ _ Vb) as B. cbn [rk] in B.
    apply (f_equal (@Some comparison)). symmetry. apply Z.compare_gt_iff. lia.
  - pose proof (rk_finite_bounds _ _ _ Va) as B. cbn [rk] in B.
    apply (f_equal (@Some comparison)). symmetry. apply Z.compare_gt_iff. lia.
  - pose proof (rk_finite_bounds _ _ _ Va) as B. cbn [rk] in B.
    apply (f_equal (@Some comparison)). symmetry. apply Z.compare_lt_iff. lia.
  - apply (f_equal (@Some comparison)). now apply rk_compare_finite.
Qed.

(** ** Division *)

Lemma new_location_inbetween (nb q r : Z) (y : Q) :
  (0 < nb)%Z -> (0 <= r < nb)%Z ->
  y * inject_Z nb == inject_Z (nb * q + r) ->
  inbetween y q (new_location nb r).
Proof.
  intros Hnb [Hr0 Hr1] Hy.
  rewrite inject_Z_plus, inject_Z_mult in Hy.
  assert (HN : 0 < inject_Z nb) by (change 0 with (inject_Z 0); now rewrite <- Zlt_Qlt).
  assert (HR0 : 0 <= inject_Z r) by (change 0 with (inject_Z 0); now rewrite <- Zle_Qle).
  assert (HR1 : inject_Z r < inject_Z nb) by now rewrite <- Zlt_Qlt.
  assert (Cmp : forall c : comparison,
             (2 * r ?= nb)%Z = c -> r <> 0%Z ->
             inbetween y q (loc_Inexact c)).
  { intros c Hc Hr. destruct (Z.compare_spec (2 * r) nb) as [E | L | G]; subst c.
    - assert (E' : 2 * inject_Z r == inject_Z nb)
        by (rewrite <- E, inject_Z_mult; reflexivity).
      cbn [inbetween]. apply Qle_antisym; nra.
    - assert (L' : 2 * inject_Z r < inject_Z nb)
        by (change 2 with (inject_Z 2); rewrite <- inject_Z_mult, <- Zlt_Qlt; exact L).
      assert (0 < inject_Z r)
        by (change 0 with (inject_Z 0); rewrite <- Zlt_Qlt; lia).
      cbn [inbetween]. split; nra.
    - assert (G' : inject_Z nb < 2 * inject_Z r)
        by (change 2 with (inject_Z 2); rewrite <- inject_Z_mult, <- Zlt_Qlt; exact G).
      cbn [inbetween]. split; nra. }
  assert (Ex : r = 0%Z -> inbetween y q loc_Exact).
  { intros ->. cbn [inbetween]. change (inject_Z 0) with 0 in Hy.
    apply Qle_antisym; nra. }
  unfold new_location. destruct (Z.even nb) eqn:Ev.
  - unfold new_location_even.
    destruct (Z.eqb_spec r 0) as [E0 | Hr]; [now apply Ex | now apply Cmp].
  - unfold new_location_odd.
    destruct (Z.eqb_spec r 0) as [E0 | Hr]; [now apply Ex |].
    assert (Hodd : (2 * r <> nb)%Z).
    { intros <-. rewrite Z.even_mul in Ev. discriminate Ev. }
    destruct (Z.compare_spec (2 * r + 1) nb) as [E | L | G];
      apply Cmp; try exact Hr.
    + apply Z.compare_lt_iff. lia.
    + apply Z.compare_lt_iff. lia.
    + apply Z.compare_gt_iff. lia.
Qed.

Lemma shift_of_ge (u : Q) (j : Z) : bpow j <= u -> (j - 52 <= shift_of u)%Z.
Proof.
  intros H. pose proof (shift_of_nonneg u).
  destruct (Z_le_gt_dec j 52) as [Hj | Hj]; [lia|].
  rewrite bpow_Z in H by lia.
  assert (N : (2 ^ j <= Qfloor u)%Z).
  { rewrite <- (Qfloor_Z (2 ^ j)). now apply Qfloor_resp_le. }
  assert (P : (0 < 2 ^ j)%Z) by (apply Z.pow_pos_nonneg; lia).
  apply Z.log2_le_pow2 in N; [|lia].
  unfold shift_of. lia.
Qed.

Lemma inject_Z_pow2 (m k : Z) :
  (0 <= k)%Z -> inject_Z (m * 2 ^ k) == inject_Z m * bpow k.
Proof. intros H. now rewrite inject_Z_mult, bpow_Z. Qed.

Lemma bpow_eq (a b : Z) : a = b -> bpow a == bpow b.
Proof. now intros ->. Qed.

Lemma shiftl_match (m s : Z) :
  (0 <= s)%Z ->
  match s with
  | Z.pos _ => Z.shiftl m s
  | 0%Z => m
  | Z.neg _ => 0%Z
  end = (m * 2 ^ s)%Z.
Proof.
  intros Hs. destruct s as [|p|p]; [| |lia].
  - now rewrite Z.pow_0_r, Z.mul_1_r.
  - apply Z.shiftl_mul_pow2. lia.
Qed.

Lemma inject_Z_pos_lt (p : positive) : 0 < inject_Z (Z.pos p).
Proof. change 0 with (inject_Z 0). rewrite <- Zlt_Qlt. lia. Qed.

Lemma digits_bounds (p : positive) :
  bpow (Zdigits2 (Z.pos p) - 1) <= inject_Z (Z.pos p)
  /\ inject_Z (Z.pos p) <= bpow (Zdigits2 (Z.pos p)).
Proof.
  rewrite Zdigits2_log2 by lia.
  destruct (Zpos_binade (Z.pos p) ltac:(lia)) as [B1 B2].
  pose proof (Z.log2_nonneg (Z.pos p)) as HL.
  rewrite !bpow_Z by lia. rewrite <- !Zle_Qle.
  replace (Z.log2 (Z.pos p) + 1 - 1)%Z with (Z.log2 (Z.pos p)) by lia. lia.
Qed.

Lemma SFdiv_finite_rk (ma mb : positive) (ea eb : Z) :
  valid_binary (S754_finite false ma ea) = true ->
  valid_binary (S754_finite false mb eb) = true ->
  rk (SF64div (S754_finite false ma ea) (S754_finite false mb eb))
  = Z.min (RN (quot_units (Z.pos ma * 2 ^ (ea + 1074))
                          (Z.pos mb * 2 ^ (eb + 1074)))) top
  /\ nonneg (SF64div (S754_finite false ma ea) (S754_finite false mb eb))
     = true.
Proof.
  intros Va Vb.
  destruct (valid_finite _ _ _ Va) as (Hea & Hma & _).
  destruct (valid_finite _ _ _ Vb) as (Heb & Hmb & _).
  unfold SF64div, SFdiv, SFdiv_core_binary. cbn [xorb].
  set (d1 := Zdigits2 (Z.pos ma)). set (d2 := Zdigits2 (Z.pos mb)).
  set (e' := Z.min (fexp prec emax (d1 + ea - (d2 + eb))) (ea - eb)).
  set (s := (ea - eb - e')%Z).
  assert (Hs : (0 <= s)%Z) by (unfold s, e'; lia).
  rewrite (shiftl_match (Z.pos ma) s Hs).
  pose proof (Z_div_mod (Z.pos ma * 2 ^ s) (Z.pos mb) ltac:(lia)) as Hdiv.
  destruct (Z.div_eucl (Z.pos ma * 2 ^ s) (Z.pos mb)) as [q r].
  destruct Hdiv as [Hqr Hr].
  set (u := quot_units (Z.pos ma * 2 ^ (ea + 1074))
                       (Z.pos mb * 2 ^ (eb + 1074))).
  pose proof (inject_Z_pos_lt ma) as PA. pose proof (inject_Z_pos_lt mb) as PB.
  pose proof (bpow_pos (ea + 1074)) as P1. pose proof (bpow_pos 1074) as P2.
  pose proof (bpow_pos (eb + 1074)) as P3.
  assert (Eu : u == inject_Z (Z.pos ma) * bpow (ea + 1074) * bpow 1074
                    / (inject_Z (Z.pos mb) * bpow (eb + 1074))).
  { unfold u, quot_units. rewrite !inject_Z_pow2 by lia. reflexivity. }
  assert (PW : 0 < inject_Z (Z.pos mb) * bpow (eb + 1074)) by nra.
  assert (PV0 : 0 < inject_Z (Z.pos ma) * bpow (ea + 1074)) by nra.
  assert (PV : 0 <= inject_Z (Z.pos ma) * bpow (ea + 1074) * bpow 1074) by nra.
  assert (Hu : 0 <= u).
  { rewrite Eu. apply Qle_shift_div_l; [exact PW | lra]. }
  apply round_aux_rk.
  - exact Hu.
  - assert (0 < Z.pos ma * 2 ^ s)%Z
      by (apply Z.mul_pos_pos; [lia | apply Z.pow_pos_nonneg; lia]).
    destruct (Z_lt_le_dec q 0) as [Hq | Hq]; [exfalso | exact Hq].
    assert (Z.pos mb * q <= Z.pos mb * -1)%Z
      by (apply Z.mul_le_mono_nonneg_l; lia).
    lia.
  - apply new_location_inbetween; [lia | lia |].
    rewrite <- Hqr, inject_Z_pow2 by lia. rewrite Eu.
    assert (Rel : bpow (ea + 1074) * bpow 1074 * bpow (- (e' + 1074))
                  == bpow s * bpow (eb + 1074)).
    { rewrite <- !bpow_add. apply bpow_eq. unfold s. lia. }
    transitivity (inject_Z (Z.pos ma)
                  * (bpow (ea + 1074) * bpow 1074 * bpow (- (e' + 1074)))
                  / bpow (eb + 1074)).
    + field. split; lra.
    + rewrite Rel. field. lra.
  - assert (Hj : bpow (d1 - 1 + ea - d2 - eb + 1074) <= u).
    { rewrite Eu. apply Qle_shift_div_l; [exact PW|].
      destruct (digits_bounds ma) as [A1 _]. destruct (digits_bounds mb) as [_ B2].
      fold d1 in A1. fold d2 in B2.
      set (j := (d1 - 1 + ea - d2 - eb + 1074)%Z).
      assert (Rel : bpow j * bpow d2 * bpow (eb + 1074)
                    == bpow (d1 - 1) * bpow (ea + 1074) * bpow 1074).
      { rewrite <- !bpow_add. apply bpow_eq. unfold j. lia. }
      pose proof (bpow_pos j) as Pj. pose proof (bpow_pos d2) as Pd2.
      pose proof (bpow_pos (d1 - 1)) as Pd1.
      apply Qle_trans with (bpow j * bpow d2 * bpow (eb + 1074)).
      - assert (0 < bpow j * bpow (eb + 1074)) by nra. nra.
      - rewrite Rel. assert (0 < bpow (ea + 1074) * bpow 1074) by nra. nra. }
    apply shift_of_ge in Hj. pose proof (shift_of_nonneg u).
    unfold e'. rewrite fexp_eq. lia.
Qed.

(** ** Multiplication *)

Lemma valid_digits (s : bool) (m : positive) (e : Z) :
  valid_binary (S754_finite s m e) = true ->
  (1 <= Zdigits2 (Z.pos m))%Z /\ (e = -1074 \/ 53 <= Zdigits2 (Z.pos m))%Z.
Proof.
  intros V. destruct (valid_finite s m e V) as (_ & _ & Hn).
  rewrite Zdigits2_log2 by lia. pose proof (Z.log2_nonneg (Z.pos m)).
  split; [lia|]. destruct Hn as [-> | Hn]; [left; reflexivity | right].
  apply Z.log2_le_pow2 in Hn; lia.
Qed.

Lemma SFmul_finite_rk (ma mb : positive) (ea eb : Z) :
  valid_binary (S754_finite false ma ea) = true ->
  valid_binary (S754_finite false mb eb) = true ->
  rk (SF64mul (S754_finite false ma ea) (S754_finite false mb eb))
  = Z.min (RN (prod_units (Z.pos ma * 2 ^ (ea + 1074))
                          (Z.pos mb * 2 ^ (eb + 1074)))) top
  /\ nonneg (SF64mul (S754_finite false ma ea) (S754_finite false mb eb))
     = true.
Proof.
  intros Va Vb.
  destruct (valid_finite _ _ _ Va) as (Hea & Hma & _).
  destruct (valid_finite _ _ _ Vb) as (Heb & Hmb & _).
  destruct (valid_digits _ _ _ Va) as (Da1 & Da2).
  destruct (valid_digits _ _ _ Vb) as (Db1 & Db2).
  unfold SF64mul, SFmul. cbn [xorb].
  set (u := prod_units (Z.pos ma * 2 ^ (ea + 1074))
                       (Z.pos mb * 2 ^ (eb + 1074))).
  pose proof (inject_Z_pos_lt ma) as PA. pose proof (inject_Z_pos_lt mb) as PB.
  pose proof (bpow_pos (ea + 1074)) as P1. pose proof (bpow_pos (- 1074)) as P2.
  pose proof (bpow_pos (eb + 1074)) as P3.
  assert (Eu : u == inject_Z (Z.pos ma) * inject_Z (Z.pos mb)
                    * (bpow (ea + 1074) * bpow (eb + 1074) * bpow (- 1074))).
  { unfold u, prod_units. rewrite inject_Z_mult, !inject_Z_pow2 by lia. ring. }
  assert (PAB : 0 < inject_Z (Z.pos ma) * inject_Z (Z.pos mb)) by nra.
  assert (PX0 : 0 < bpow (ea + 1074) * bpow (eb + 1074)) by nra.
  assert (PX : 0 < bpow (ea + 1074) * bpow (eb + 1074) * bpow (- 1074)) by nra.
  assert (Hu : 0 <= u) by (rewrite Eu; nra).
  apply round_aux_rk.
  - exact Hu.
  - lia.
  - cbn [inbetween]. rewrite Eu, Pos2Z.inj_mul, inject_Z_mult.
    assert (Rel : bpow (ea + 1074) * bpow (eb + 1074) * bpow (- 1074)
                  * bpow (- (ea + eb + 1074)) == 1).
    { rewrite <- !bpow_add, <- bpow_0. apply bpow_eq. lia. }
    rewrite <- !Qmult_assoc. rewrite <- Qmult_assoc in Rel.
    rewrite <- Qmult_assoc in Rel. rewrite Rel. ring.
  - set (d1 := Zdigits2 (Z.pos ma)) in *. set (d2 := Zdigits2 (Z.pos mb)) in *.
    assert (Hj : bpow (d1 - 1 + (d2 - 1) + ea + eb + 1074) <= u).
    { rewrite Eu.
      destruct (digits_bounds ma) as [A1 _]. destruct (digits_bounds mb) as [B1 _].
      fold d1 in A1. fold d2 in B1.
      assert (Rel : bpow (d1 - 1 + (d2 - 1) + ea + eb + 1074)
                    == bpow (d1 - 1) * bpow (d2 - 1)
                       * (bpow (ea + 1074) * bpow (eb + 1074) * bpow (- 1074))).
      { rewrite <- !bpow_add. apply bpow_eq. lia. }
      rewrite Rel.
      pose proof (bpow_pos (d1 - 1)) as Pd1. pose proof (bpow_pos (d2 - 1)) as Pd2.
      assert (bpow (d1 - 1) * bpow (d2 - 1)
              <= inject_Z (Z.pos ma) * inject_Z (Z.pos mb)) by nra.
      nra. }
    apply shift_of_ge in Hj. pose proof (shift_of_nonneg u). lia.
Qed.

(** ** Monotonicity of the rounded quotient and product, on ranks *)

Lemma RN_nonneg (u : Q) : 0 <= u -> (0 <= RN u)%Z.
Proof.
  intros Hu. unfold RN. apply Z.mul_nonneg_nonneg.
  - apply rne_ge. change (inject_Z 0) with 0.
    pose proof (bpow_pos (- shift_of u)). nra.
  - apply Z.pow_nonneg. lia.
Qed.

Lemma inject_Z_nonneg (a : Z) : (0 <= a)%Z -> 0 <= inject_Z a.
Proof. intros H. change 0 with (inject_Z 0). now rewrite <- Zle_Qle. Qed.

Lemma inject_Z_pos (a : Z) : (0 < a)%Z -> 0 < inject_Z a.
Proof. intros H. change 0 with (inject_Z 0). now rewrite <- Zlt_Qlt. Qed.

Lemma quot_units_nonneg (a b : Z) :
  (0 <= a)%Z -> (0 < b)%Z -> 0 <= quot_units a b.
Proof.
  intros Ha Hb. unfold quot_units.
  apply Qle_shift_div_l; [now apply inject_Z_pos|].
  pose proof (inject_Z_nonneg a Ha). pose proof (bpow_pos 1074). nra.
Qed.

Lemma quot_units_mono_l (a1 a2 b : Z) :
  (a1 <= a2)%Z -> (0 < b)%Z -> quot_units a1 b <= quot_units a2 b.
Proof.
  intros Ha Hb. unfold quot_units, Qdiv.
  pose proof (Qinv_lt_0_compat _ (inject_Z_pos b Hb)) as Pi.
  pose proof (bpow_pos 1074) as P. rewrite Zle_Qle in Ha.
  assert (inject_Z a1 * bpow 1074 <= inject_Z a2 * bpow 1074) by nra.
  nra.
Qed.

Lemma quot_units_mono_r (a b1 b2 : Z) :
  (0 <= a)%Z -> (0 < b1)%Z -> (b1 <= b2)%Z ->
  quot_units a b2 <= quot_units a b1.
Proof.
  intros Ha Hb1 Hb. unfold quot_units, Qdiv.
  pose proof (inject_Z_pos b1 Hb1) as P1.
  pose proof (inject_Z_pos b2 ltac:(lia)) as P2.
  pose proof (Qinv_lt_0_compat _ P1) as I1.
  pose proof (Qinv_lt_0_compat _ P2) as I2.
  assert (E1 : inject_Z b1 * / inject_Z b1 == 1) by (apply Qmult_inv_r; lra).
  assert (E2 : inject_Z b2 * / inject_Z b2 == 1) by (apply Qmult_inv_r; lra).
  rewrite Zle_Qle in Hb.
  assert (Hi : / inject_Z b2 <= / inject_Z b1).
  { assert (0 < / inject_Z b1 * / inject_Z b2) by nra.
    assert (/ inject_Z b1 * / inject_Z b2 * inject_Z b1
            <= / inject_Z b1 * / inject_Z b2 * inject_Z b2) by nra.
    nra. }
  pose proof (inject_Z_nonneg a Ha). pose proof (bpow_pos 1074).
  assert (0 <= inject_Z a * bpow 1074) by nra.
  nra.
Qed.

Lemma prod_units_nonneg (a b : Z) :
  (0 <= a)%Z -> (0 <= b)%Z -> 0 <= prod_units a b.
Proof.
  intros Ha Hb. unfold prod_units.
  pose proof (inject_Z_nonneg (a * b) ltac:(lia)). pose proof (bpow_pos (- 1074)).
  nra.
Qed.

Lemma prod_units_mono_r (c a1 a2 : Z) :
  (0 <= c)%Z -> (a1 <= a2)%Z -> prod_units c a1 <= prod_units c a2.
Proof.
  intros Hc Ha. unfold prod_units.
  assert (H : (c * a1 <= c * a2)%Z) by (apply Z.mul_le_mono_nonneg_l; lia).
  rewrite Zle_Qle in H. pose proof (bpow_pos (- 1074)). nra.
Qed.

Lemma div_rank_mono_l (a1 a2 b : Z) :
  (0 <= a1 <= a2)%Z -> (a2 <= top)%Z -> (0 < b < top)%Z ->
  (div_rank a1 b <= div_rank a2 b)%Z.
Proof.
  intros Ha Ht Hb. unfold div_rank. pose proof top_pos as T.
  destruct (Z.eqb_spec b top) as [Eb | _]; [lia|].
  destruct (Z.eqb_spec a1 0) as [E1 | N1]; destruct (Z.eqb_spec a2 0) as [E2 | N2];
    try lia.
  - destruct (Z.eqb_spec a2 top); [lia|].
    pose proof (RN_nonneg (quot_units a2 b) (quot_units_nonneg a2 b ltac:(lia) ltac:(lia))).
    lia.
  - destruct (Z.eqb_spec a1 top) as [T1 | T1]; destruct (Z.eqb_spec a2 top) as [T2 | T2];
      try lia.
    pose proof (RN_mono (quot_units a1 b) (quot_units a2 b)
                  (quot_units_nonneg a1 b ltac:(lia) ltac:(lia))
                  (quot_units_mono_l a1 a2 b ltac:(lia) ltac:(lia))).
    lia.
Qed.

Lemma div_rank_mono_r (a b1 b2 : Z) :
  (0 < a < top)%Z -> (0 < b1 <= b2)%Z -> (b2 <= top)%Z ->
  (div_rank a b2 <= div_rank a b1)%Z.
Proof.
  intros Ha Hb Ht. unfold div_rank. pose proof top_pos as T.
  destruct (Z.eqb_spec a 0) as [E | _]; [lia|].
  destruct (Z.eqb_spec a top) as [E | _]; [lia|].
  destruct (Z.eqb_spec b1 top) as [T1 | T1]; destruct (Z.eqb_spec b2 top) as [T2 | T2];
    try lia.
  - pose proof (RN_nonneg (quot_units a b1) (quot_units_nonneg a b1 ltac:(lia) ltac:(lia))).
    lia.
  - pose proof (RN_mono (quot_units a b2) (quot_units a b1)
                  (quot_units_nonneg a b2 ltac:(lia) ltac:(lia))
                  (quot_units_mono_r a b1 b2 ltac:(lia) ltac:(lia) ltac:(lia))).
    lia.
Qed.

Lemma mul_rank_mono_r (c a1 a2 : Z) :
  (0 < c < top)%Z -> (0 <= a1 <= a2)%Z -> (a2 <= top)%Z ->
  (mul_rank c a1 <= mul_rank c a2)%Z.
Proof.
  intros Hc Ha Ht. unfold mul_rank. pose proof top_pos as T.
  destruct (Z.eqb_spec a1 0) as [E1 | N1]; destruct (Z.eqb_spec a2 0) as [E2 | N2];
    try lia.
  - destruct (Z.eqb_spec a2 top); [lia|].
    pose proof (RN_nonneg (prod_units c a2) (prod_units_nonneg c a2 ltac:(lia) ltac:(lia))).
    lia.
  - destruct (Z.eqb_spec a1 top) as [T1 | T1]; destruct (Z.eqb_spec a2 top) as [T2 | T2];
      try lia.
    pose proof (RN_mono (prod_units c a1) (prod_units c a2)
                  (prod_units_nonneg c a1 ltac:(lia) ltac:(lia))
                  (prod_units_mono_r c a1 a2 ltac:(lia) ltac:(lia))).
    lia.
Qed.

(** ** The operations of [SpecFloat] on ranks *)

Lemma rk_finite_neq (s : bool) (m : positive) (e : Z) :
  valid_binary (S754_finite s m e) = true ->
  (rk (S754_finite s m e) =? 0)%Z = false
  /\ (rk (S754_finite s m e) =? top)%Z = false.
Proof.
  intros V. pose proof (rk_finite_bounds s m e V).
  split; apply Z.eqb_neq; lia.
Qed.

Lemma top_neq_0 : (top =? 0)%Z = false.
Proof. apply Z.eqb_neq. pose proof top_pos. lia. Qed.

Lemma SFdiv_rank (a b : spec_float) :
  valid_binary a = true -> valid_binary b = true ->
  nonneg a = true -> nonneg b = true ->
  (0 < rk b)%Z -> (rk a < top \/ rk b < top)%Z ->
  nonneg (SF64div a b) = true /\ rk (SF64div a b) = div_rank (rk a) (rk b).
Proof.
  intros Va Vb Na Nb Hb Hab. unfold div_rank.
  destruct b as [sb | [|] | | [|] mb eb]; try discriminate Nb;
    [cbn [rk] in Hb; lia | | ].
  - (* an infinite divisor *)
    destruct a as [sa | [|] | | [|] ma ea]; try discriminate Na.
    + split; reflexivity.
    + cbn [rk] in Hab. lia.
    + destruct (rk_finite_neq _ _ _ Va) as [E0 _]. rewrite E0.
      cbn [rk]. rewrite Z.eqb_refl. split; reflexivity.
  - (* a finite divisor *)
    destruct (rk_finite_neq _ _ _ Vb) as [_ Eb]. rewrite Eb.
    destruct a as [sa | [|] | | [|] ma ea]; try discriminate Na.
    + split; reflexivity.
    + cbn [rk]. rewrite top_neq_0, Z.eqb_refl. split; reflexivity.
    + destruct (rk_finite_neq _ _ _ Va) as [E0 Et]. rewrite E0, Et.
      destruct (SFdiv_finite_rk ma mb ea eb Va Vb) as [R N].
      split; [exact N | exact R].
Qed.

Lemma SFmul_rank (c a : spec_float) :
  valid_binary c = true -> valid_binary a = true ->
  nonneg c = true -> nonneg a = true ->
  (0 < rk c < top)%Z ->
  nonneg (SF64mul c a) = true /\ rk (SF64mul c a) = mul_rank (rk c) (rk a).
Proof.
  intros Vc Va Nc Na Hc. unfold mul_rank. pose proof top_pos as T.
  destruct c as [sc | [|] | | [|] mc ec]; try discriminate Nc;
    try (cbn [rk] in Hc; lia).
  destruct a as [sa | [|] | | [|] ma ea]; try discriminate Na.
  - split; reflexivity.
  - cbn [rk]. rewrite top_neq_0, Z.eqb_refl. split; reflexivity.
  - destruct (rk_finite_neq _ _ _ Va) as [E0 Et]. rewrite E0, Et.
    destruct (SFmul_finite_rk mc ma ec ea Vc Va) as [R N].
    split; [exact N | exact R].
Qed.

(** ** Binary64 floats *)

Local Open Scope float_scope.

Lemma rank_range (x : float) : (0 <= rank x <= top)%Z.
Proof. apply rk_range, Prim2SF_valid. Qed.

Lemma float_compare_rank (x y : float) :
  good x = true -> good y = true ->
  SFcompare (Prim2SF x) (Prim2SF y) = Some (rank x ?= rank y)%Z.
Proof. intros Gx Gy. apply rk_compare; auto using Prim2SF_valid. Qed.

Lemma float_leb_rank (x y : float) :
  good x = true -> good y = true -> (x <=? y)%float = (rank x <=? rank y)%Z.
Proof.
  intros Gx Gy. rewrite FloatAxioms.leb_spec. unfold SFleb.
  rewrite (float_compare_rank x y Gx Gy). unfold Z.leb.
  now destruct (rank x ?= rank y)%Z.
Qed.

Lemma float_ltb_rank (x y : float) :
  good x = true -> good y = true -> (x <? y)%float = (rank x <? rank y)%Z.
Proof.
  intros Gx Gy. rewrite FloatAxioms.ltb_spec. unfold SFltb.
  rewrite (float_compare_rank x y Gx Gy). unfold Z.ltb.
  now destruct (rank x ?= rank y)%Z.
Qed.

(** Whatever compares above a good float is good. *)
Lemma SFcompare_good (a x : spec_float) :
  nonneg a = true ->
  (SFltb a x = true \/ SFleb a x = true) -> nonneg x = true.
Proof.
  unfold SFltb, SFleb.
  destruct a as [sa | [|] | | [|] ma ea]; try discriminate;
    destruct x as [sx | [|] | | [|] mx ex]; cbn [SFcompare nonneg negb];
    intros _ [H | H]; try reflexivity; discriminate H.
Qed.

Lemma ltb_good (a x : float) :
  good a = true -> (a <? x)%float = true -> good x = true.
Proof.
  intros Ga H. rewrite FloatAxioms.ltb_spec in H.
  apply (SFcompare_good (Prim2SF a)); [exact Ga | now left].
Qed.

Lemma leb_good (a x : float) :
  good a = true -> (a <=? x)%float = true -> good x = true.
Proof.
  intros Ga H. rewrite FloatAxioms.leb_spec in H.
  apply (SFcompare_good (Prim2SF a)); [exact Ga | now right].
Qed.

Lemma good_zero : good 0 = true.
Proof. reflexivity. Qed.

Lemma rank_zero : rank 0 = 0%Z.
Proof. reflexivity. Qed.

Lemma finite_rank (x : float) : is_finite x = true -> (rank x < top)%Z.
Proof.
  intros F. unfold rank. pose proof (Prim2SF_valid x) as V. pose proof top_pos.
  revert F V. unfold is_finite, is_nan, is_infinity.
  rewrite !FloatAxioms.eqb_spec, abs_spec.
  change (Prim2SF infinity) with (S754_infinity false).
  destruct (Prim2SF x) as [s | [|] | | s m e]; intros F V; cbn in F;
    try discriminate F.
  - cbn [rk]. lia.
  - apply (rk_finite_bounds s m e V).
Qed.

Lemma float_div_rank (x y : float) :
  good x = true -> good y = true ->
  (0 < rank y)%Z -> (rank x < top \/ rank y < top)%Z ->
  good (x / y) = true /\ rank (x / y) = div_rank (rank x) (rank y).
Proof.
  intros Gx Gy Hy Hxy. unfold good, rank. rewrite div_spec.
  apply SFdiv_rank; auto using Prim2SF_valid.
Qed.

Lemma float_mul_rank (c x : float) :
  good c = true -> good x = true -> (0 < rank c < top)%Z ->
  good (c * x) = true /\ rank (c * x) = mul_rank (rank c) (rank x).
Proof.
  intros Gc Gx Hc. unfold good, rank. rewrite mul_spec.
  apply SFmul_rank; auto using Prim2SF_valid.
Qed.

(** A positive float, as the comparisons of the source see it. *)
Lemma positive_rank (x : float) :
  (0 <? x) = true -> good x = true /\ (0 < rank x)%Z.
Proof.
  intros H. pose proof (ltb_good 0 x good_zero H) as G. split; [exact G|].
  rewrite (float_ltb_rank 0 x good_zero G), rank_zero in H.
  now apply Z.ltb_lt.
Qed.

(** Dividing by a finite positive float is monotone in the dividend. *)
Theorem float_div_mono_l (x1 x2 y : float) :
  good x1 = true -> (x1 <=? x2) = true ->
  (0 <? y) = true -> is_finite y = true ->
  (x1 / y <=? x2 / y) = true /\ good (x1 / y) = true.
Proof.
  intros G1 Hx Hy Fy.
  pose proof (leb_good x1 x2 G1 Hx) as G2.
  destruct (positive_rank y Hy) as [Gy Py].
  pose proof (finite_rank y Fy) as Ty.
  rewrite (float_leb_rank x1 x2 G1 G2) in Hx. apply Z.leb_le in Hx.
  destruct (float_div_rank x1 y G1 Gy Py (or_intror Ty)) as [Q1 R1].
  destruct (float_div_rank x2 y G2 Gy Py (or_intror Ty)) as [Q2 R2].
  split; [|exact Q1].
  rewrite (float_leb_rank _ _ Q1 Q2), R1, R2. apply Z.leb_le.
  pose proof (rank_range x1). pose proof (rank_range x2).
  apply div_rank_mono_l; lia.
Qed.

(** Dividing a finite positive float is antitone in a positive divisor. *)
Theorem float_div_mono_r (x y1 y2 : float) :
  (0 <? x) = true -> is_finite x = true ->
  (0 <? y1) = true -> (y1 <=? y2) = true ->
  (x / y2 <=? x / y1) = true.
Proof.
  intros Hx Fx Hy Hyy.
  destruct (positive_rank x Hx) as [Gx Px]. pose proof (finite_rank x Fx) as Tx.
  destruct (positive_rank y1 Hy) as [G1 P1].
  pose proof (leb_good y1 y2 G1 Hyy) as G2.
  rewrite (float_leb_rank y1 y2 G1 G2) in Hyy. apply Z.leb_le in Hyy.
  destruct (float_div_rank x y1 Gx G1 P1 (or_introl Tx)) as [Q1 R1].
  destruct (float_div_rank x y2 Gx G2 ltac:(lia) (or_introl Tx)) as [Q2 R2].
  rewrite (float_leb_rank _ _ Q2 Q1), R1, R2. apply Z.leb_le.
  pose proof (rank_range y2).
  apply div_rank_mono_r; lia.
Qed.

(** Multiplying by a finite positive float is monotone. *)
Theorem float_mul_mono_r (c x1 x2 : float) :
  (0 <? c) = true -> is_finite c = true ->
  good x1 = true -> (x1 <=? x2) = true ->
  (c * x1 <=? c * x2) = true /\ good (c * x1) = true.
Proof.
  intros Hc Fc G1 Hx.
  pose proof (leb_good x1 x2 G1 Hx) as G2.
  destruct (positive_rank c Hc) as [Gc Pc]. pose proof (finite_rank c Fc) as Tc.
  rewrite (float_leb_rank x1 x2 G1 G2) in Hx. apply Z.leb_le in Hx.
  destruct (float_mul_rank c x1 Gc G1 (conj Pc Tc)) as [Q1 R1].
  destruct (float_mul_rank c x2 Gc G2 (conj Pc Tc)) as [Q2 R2].
  split; [|exact Q1].
  rewrite (float_leb_rank _ _ Q1 Q2), R1, R2. apply Z.leb_le.
  pose proof (rank_range x1). pose proof (rank_range x2).
  apply mul_rank_mono_r; lia.
Qed.

Lemma good_finite (x : float) :
  good x = true -> (rank x < top)%Z -> is_finite x = true.
Proof.
  unfold good, rank, is_finite, is_nan, is_infinity.
  rewrite !FloatAxioms.eqb_spec, abs_spec.
  change (Prim2SF infinity) with (S754_infinity false).
  destruct (Prim2SF x) as [s | [|] | | [|] m e]; cbn [nonneg negb rk];
    try discriminate; intros _ H; try lia.
  - reflexivity.
  - unfold SFeqb. cbn [SFcompare SFabs]. rewrite Z.compare_refl.
    change (Pos.compare_cont Eq m m) with (m ?= m)%positive.
    rewrite Pos.compare_refl. reflexivity.
Qed.

Lemma good_infinite (x : float) :
  good x = true -> (top <= rank x)%Z -> x = infinity.
Proof.
  intros G H. apply Prim2SF_inj. change (Prim2SF infinity) with (S754_infinity false).
  pose proof (Prim2SF_valid x) as V. revert G H V. unfold good, rank.
  destruct (Prim2SF x) as [s | [|] | | [|] m e]; cbn [nonneg negb rk];
    try discriminate; intros _ H V.
  - pose proof top_pos. lia.
  - reflexivity.
  - pose proof (rk_finite_bounds _ _ _ V) as B. cbn [rk] in B. lia.
Qed.
End Rounding.

(** * The clamp and the material constants *)

Section Clamp.
Local Open Scope float_scope.

Lemma epsilon_good : good app.epsilon = true.
Proof. reflexivity. Qed.

Lemma epsilon_positive : (0 <? app.epsilon) = true.
Proof. reflexivity. Qed.

(** Above the clamp, [max(w, 1e-6)] is [w]. *)
Lemma above_epsilon (w : float) :
  (app.epsilon <? w) = true ->
  PyFloat.max w app.epsilon = w /\ (0 <? w) = true /\ good w = true.
Proof.
  intros H. pose proof (ltb_good _ _ epsilon_good H) as G.
  rewrite (float_ltb_rank _ _ epsilon_good G) in H. apply Z.ltb_lt in H.
  destruct (positive_rank app.epsilon epsilon_positive) as [_ Pe].
  split; [|split; [|exact G]].
  - unfold PyFloat.max. rewrite (float_ltb_rank _ _ G epsilon_good).
    destruct (Z.ltb_spec (rank w) (rank app.epsilon)); [lia | reflexivity].
  - rewrite (float_ltb_rank _ _ good_zero G), rank_zero. apply Z.ltb_lt. lia.
Qed.

(** At or below zero thickness the clamp takes over. *)
Lemma zero_wall_clamped (w : float) :
  (w =? 0) = true -> PyFloat.max w app.epsilon = app.epsilon.
Proof.
  intros H. unfold PyFloat.max. now rewrite (zero_below_epsilon w H).
Qed.

Lemma materials_finite_positive (name : pystr) (p : app.material_props) :
  app.getitem app.MATERIALS name = Ok p ->
  (0 <? app.E p) = true /\ is_finite (app.E p) = true.
Proof.
  unfold app.MATERIALS. cbn [app.getitem].
  destruct (pystr_eqb (lit "Copper") name);
    [|destruct (pystr_eqb (lit "Carbon Steel") name);
      [|destruct (pystr_eqb (lit "Aluminium") name)]];
    intros H; inversion H; subst; split; reflexivity.
Qed.
End Clamp.

(** * The claims *)

Section Claims.
Local Open Scope float_scope.

(** ** C1 to C3: the engine *)

(** C1. The end-to-end example: O.D. 10 mm, wall 1 mm, 90 degrees, 500 mm
    straight, D = 3, Carbon Steel (E = 210000, yield = 250).  The engine
    returns wall factor 10, centre-line radius 30, minimum bend radius 100,
    arc length 30 * (pi / 2), total length 500 + that, stress 3.5 and factor
    of safety 250 / 3.5; to two decimals these print as 10.00, 30.00, 100.00,
    47.12, 547.12, 3.50 and 71.43. *)
Theorem C1_end_to_end :
  app.getitem app.MATERIALS (lit "Carbon Steel") = Ok (app.mk_props 210000 250)
  /\ exists r,
       app.compute_bend_parameters 10 1 90 500 3 (lit "Carbon Steel") = Ok r
       /\ app.wf r = 10 /\ app.clr r = 30 /\ app.mbr r = 100
       /\ app.arc_len r = 30 * (PyFloat.pi / 2)
       /\ app.total_len r = 500 + 30 * (PyFloat.pi / 2)
       /\ app.stress r = 3.5
       /\ app.fos r = 250 / 3.5
       /\ map PyFormat.format_2f
            [app.wf r; app.clr r; app.mbr r; app.arc_len r; app.total_len r;
             app.stress r; app.fos r]
          = [lit "10.00"; lit "30.00"; lit "100.00"; lit "47.12"; lit "547.12";
             lit "3.50"; lit "71.43"].
Proof.
  split; [reflexivity|].
  eexists. split; [vm_compute; reflexivity|].
  cbn [app.wf app.clr app.mbr app.arc_len app.total_len app.stress app.fos].
  repeat split; vm_compute; reflexivity.
Qed.

(** C2. For every input whose material is in the table (in particular for
    od > 0, wall > 0, 0 < angle <= 360, D > 0, straight >= 0) the engine
    returns, and the geometric outputs are the centre-line radius D * od
    (the binary64 product itself, so within any tolerance), the minimum
    bend radius wallFactor * od, the arc length
    centreLineRadius * (angle * (pi / 180)) and the total length
    straight + arcLength. *)
Theorem C2_geometry
    (od wall angle straight D : float) (name : pystr) (p : app.material_props) :
  app.getitem app.MATERIALS name = Ok p ->
  exists r,
    app.compute_bend_parameters od wall angle straight D name = Ok r
    /\ app.clr r = D * od
    /\ app.mbr r = app.wf r * od
    /\ app.arc_len r = app.clr r * (angle * (PyFloat.pi / 180))
    /\ app.total_len r = straight + app.arc_len r.
Proof.
  intros Hp. rewrite compute_bend_parameters_unfold, Hp.
  eexists. split; [reflexivity|]. repeat split.
Qed.

Lemma C2_geometry_witness :
  exists r,
    app.compute_bend_parameters 10 1 90 500 3 (lit "Carbon Steel") = Ok r
    /\ app.clr r = 3 * 10
    /\ app.mbr r = app.wf r * 10
    /\ app.arc_len r = app.clr r * (90 * (PyFloat.pi / 180))
    /\ app.total_len r = 500 + app.arc_len r.
Proof.
  apply (C2_geometry 10 1 90 500 3 (lit "Carbon Steel")
           (app.mk_props 210000 250)).
  reflexivity.
Defined.

(** C3. For every input whose material is in the table the engine returns
    stress = E * ((wall / 2) / max(centreLineRadius, epsilon)) / 1000 and
    factor of safety = yield / stress when stress > 0, positive infinity
    otherwise; a stress that is exactly zero gives positive infinity and
    no exception. *)
Theorem C3_stress_and_safety
    (od wall angle straight D : float) (name : pystr) (p : app.material_props) :
  app.getitem app.MATERIALS name = Ok p ->
  exists r,
    app.compute_bend_parameters od wall angle straight D name = Ok r
    /\ app.stress r
       = app.E p * (wall / 2 / PyFloat.max (app.clr r) app.epsilon) / 1000
    /\ app.fos r
       = (if PyFloat.gt (app.stress r) 0
          then app.yield p / app.stress r else PyFloat.inf)
    /\ ((app.stress r =? 0) = true -> app.fos r = PyFloat.inf).
Proof.
  intros Hp. rewrite compute_bend_parameters_unfold, Hp.
  eexists. split; [reflexivity|].
  cbn [results_of app.stress app.clr app.fos].
  split; [reflexivity|]. split; [reflexivity|].
  intros Hz. now rewrite (eq_zero_not_positive _ Hz).
Qed.

Lemma C3_stress_and_safety_witness :
  exists r,
    app.compute_bend_parameters 10 0 90 500 3 (lit "Copper") = Ok r
    /\ app.stress r
       = 110000 * (0 / 2 / PyFloat.max (app.clr r) app.epsilon) / 1000
    /\ app.fos r
       = (if PyFloat.gt (app.stress r) 0
          then 200 / app.stress r else PyFloat.inf)
    /\ ((app.stress r =? 0) = true -> app.fos r = PyFloat.inf).
Proof.
  apply (C3_stress_and_safety 10 0 90 500 3 (lit "Copper")
           (app.mk_props 110000 200)).
  reflexivity.
Defined.

(** A wall of zero is the case the last part of C3 is about: the stress is
    exactly zero and the factor of safety is [inf]. *)
Example zero_wall_gives_infinite_safety :
  app.compute_bend_parameters 10 0 90 500 3 (lit "Copper")
  = Ok (app.mk_results 10000000 30 100000000
          (30 * (PyFloat.pi / 2)) (500 + 30 * (PyFloat.pi / 2)) 0 infinity).
Proof. vm_compute. reflexivity. Qed.

(** ** C4: division by a wall of zero *)

Example od_threshold_adjacent :
  next_up od_last_finite = od_first_infinite
  /\ is_finite (od_last_finite / app.epsilon) = true
  /\ od_first_infinite / app.epsilon = infinity.
Proof. repeat split; vm_compute; reflexivity. Qed.

(** C4, as the code has it.  For every input with a material of the table
    the engine returns wallFactor = od / max(wall, 1e-6), and no division
    raises.  A wall of zero (of either sign) gives od / 1e-6: at least
    1000000 once od >= 1, finite as long as od <= 1.7976931348623154e302,
    and +inf from the next float on. *)
Theorem C4_wall_factor_total
    (od wall angle straight D : float) (name : pystr)
    (p : app.material_props) :
  app.getitem app.MATERIALS name = Ok p ->
  exists r,
    app.compute_bend_parameters od wall angle straight D name = Ok r
    /\ app.wf r = od / PyFloat.max wall app.epsilon
    /\ ((wall =? 0) = true ->
        app.wf r = od / app.epsilon
        /\ ((1 <=? od) = true -> (1000000 <=? app.wf r) = true)
        /\ ((0 <? od) = true -> (od <=? od_last_finite) = true ->
            is_finite (app.wf r) = true)
        /\ ((od_first_infinite <=? od) = true -> app.wf r = infinity)).
Proof.
  intros Hp. rewrite compute_bend_parameters_unfold, Hp.
  eexists. split; [reflexivity|]. cbn [results_of app.wf].
  split; [reflexivity|].
  intros Hz. rewrite (zero_wall_clamped wall Hz).
  split; [reflexivity|]. split; [|split].
  - intros H1.
    destruct (float_div_mono_l 1 od app.epsilon eq_refl H1
                epsilon_positive eq_refl) as [H _].
    exact H.
  - intros Hpos Hle. destruct (positive_rank od Hpos) as [G _].
    destruct (float_div_mono_l od od_last_finite app.epsilon G Hle
                epsilon_positive eq_refl) as [H Gq].
    pose proof (leb_good _ _ Gq H) as Gt.
    rewrite (float_leb_rank _ _ Gq Gt) in H. apply Z.leb_le in H.
    apply good_finite; [exact Gq|].
    assert (Ft : is_finite (od_last_finite / app.epsilon) = true) by reflexivity.
    apply finite_rank in Ft. lia.
  - intros Hge.
    destruct (float_div_mono_l od_first_infinite od app.epsilon eq_refl Hge
                epsilon_positive eq_refl) as [H Gq].
    pose proof (leb_good _ _ Gq H) as G.
    rewrite (float_leb_rank _ _ Gq G) in H. apply Z.leb_le in H.
    apply good_infinite; [exact G|].
    assert (E : od_first_infinite / app.epsilon = infinity) by reflexivity.
    rewrite E in H. exact H.
Qed.

Lemma C4_wall_factor_total_witness :
  exists r,
    app.compute_bend_parameters 10 0 90 500 3 (lit "Copper") = Ok r
    /\ app.wf r = 10 / PyFloat.max 0 app.epsilon
    /\ ((0 =? 0) = true ->
        app.wf r = 10 / app.epsilon
        /\ ((1 <=? 10) = true -> (1000000 <=? app.wf r) = true)
        /\ ((0 <? 10) = true -> (10 <=? od_last_finite) = true ->
            is_finite (app.wf r) = true)
        /\ ((od_first_infinite <=? 10) = true -> app.wf r = infinity)).
Proof.
  apply (C4_wall_factor_total 10 0 90 500 3 (lit "Copper")
           (app.mk_props 110000 200)).
  reflexivity.
Defined.

(** A diameter of 1e308 with a wall of zero: the quotient overflows, the
    wall factor is [inf], not a finite number. *)
Lemma C4_counterexample :
  ~ (forall (od angle straight D : float) (name : pystr)
            (r : app.bend_results),
        (0 <? od) = true ->
        app.compute_bend_parameters od 0 angle straight D name = Ok r ->
        is_finite (app.wf r) = true).
Proof.
  intros H.
  pose proof (H 0x1.1ccf385ebc8ap+1023 90 500 3 (lit "Copper") _
                eq_refl eq_refl) as Hf.
  vm_compute in Hf. discriminate Hf.
Qed.

(** ** C5: the material table *)

(** C5. The lookup returns Copper (110000, 200), Carbon Steel (210000, 250)
    and Aluminium (70000, 120), all positive, and raises [KeyError] (the
    spec's UnknownMaterial) for every other name: no entry and no default
    is substituted, and the engine passes the exception on unchanged. *)
Theorem C5_material_lookup :
  app.getitem app.MATERIALS (lit "Copper") = Ok (app.mk_props 110000 200)
  /\ app.getitem app.MATERIALS (lit "Carbon Steel")
     = Ok (app.mk_props 210000 250)
  /\ app.getitem app.MATERIALS (lit "Aluminium") = Ok (app.mk_props 70000 120)
  /\ Forall (fun kv => (0 <? app.E (snd kv)) = true
                       /\ (0 <? app.yield (snd kv)) = true) app.MATERIALS
  /\ forall name,
       ~ In name [lit "Copper"; lit "Carbon Steel"; lit "Aluminium"] ->
       app.getitem app.MATERIALS name = Raise (KeyError name)
       /\ forall od wall angle straight D,
            app.compute_bend_parameters od wall angle straight D name
            = Raise (KeyError name).
Proof.
  repeat split; try reflexivity.
  - repeat constructor.
  - revert H. cbn [In]. intros Hn.
    unfold app.MATERIALS. cbn [app.getitem].
    rewrite !pystr_eqb_neq; [reflexivity | | | ]; intuition congruence.
  - revert H. cbn [In]. intros Hn od wall angle straight D.
    rewrite compute_bend_parameters_unfold.
    unfold app.MATERIALS. cbn [app.getitem].
    rewrite !pystr_eqb_neq; [reflexivity | | | ]; intuition congruence.
Qed.

Example unobtainium_is_rejected :
  app.getitem app.MATERIALS (lit "Unobtainium")
  = Raise (KeyError (lit "Unobtainium"))
  /\ app.compute_bend_parameters 10 1 90 500 3 (lit "Unobtainium")
     = Raise (KeyError (lit "Unobtainium")).
Proof. split; vm_compute; reflexivity. Qed.

(** ** C6: a change of wall thickness *)

(** C6, as the code has it.  With the other inputs fixed (a finite positive
    diameter, a material of the table), a thicker wall above the clamp never
    gives a larger wall factor; and, for a finite centre-line radius above
    the clamp, a thinner wall never gives a larger stress: the stress falls
    with the wall, it does not rise. *)
Theorem C6_wall_monotone
    (od w1 w2 angle straight D : float) (name : pystr)
    (p : app.material_props) :
  app.getitem app.MATERIALS name = Ok p ->
  (0 <? od) = true -> is_finite od = true ->
  (app.epsilon <? w1) = true -> (w1 <=? w2) = true ->
  exists r1 r2,
    app.compute_bend_parameters od w1 angle straight D name = Ok r1
    /\ app.compute_bend_parameters od w2 angle straight D name = Ok r2
    /\ (app.wf r2 <=? app.wf r1) = true
    /\ app.clr r1 = app.clr r2
    /\ ((app.epsilon <? app.clr r1) = true -> is_finite (app.clr r1) = true ->
        (app.stress r1 <=? app.stress r2) = true).
Proof.
  intros Hp Hod Fod Hw1 Hw.
  rewrite !compute_bend_parameters_unfold, Hp.
  eexists. eexists. split; [reflexivity|]. split; [reflexivity|].
  cbn [results_of app.wf app.clr app.stress].
  destruct (above_epsilon w1 Hw1) as (M1 & P1 & G1).
  assert (Hw2 : (app.epsilon <? w2) = true).
  { pose proof (leb_good _ _ G1 Hw) as G2.
    rewrite (float_ltb_rank _ _ epsilon_good G1) in Hw1.
    rewrite (float_leb_rank _ _ G1 G2) in Hw.
    rewrite (float_ltb_rank _ _ epsilon_good G2).
    apply Z.ltb_lt in Hw1. apply Z.leb_le in Hw. apply Z.ltb_lt. lia. }
  destruct (above_epsilon w2 Hw2) as (M2 & P2 & G2).
  rewrite M1, M2.
  split; [now apply float_div_mono_r|]. split; [reflexivity|].
  intros Hc Fc. destruct (above_epsilon _ Hc) as (Mc & Pc & Gc). rewrite Mc.
  destruct (materials_finite_positive name p Hp) as [PE FE].
  destruct (float_div_mono_l w1 w2 2 G1 Hw eq_refl eq_refl) as [H1 K1].
  destruct (float_div_mono_l _ _ (D * od) K1 H1 Pc Fc) as [H2 K2].
  destruct (float_mul_mono_r (app.E p) _ _ PE FE K2 H2) as [H3 K3].
  destruct (float_div_mono_l _ _ 1000 K3 H3 eq_refl eq_refl) as [H4 _].
  exact H4.
Qed.

Lemma C6_wall_monotone_witness :
  exists r1 r2,
    app.compute_bend_parameters 10 1 90 500 3 (lit "Carbon Steel") = Ok r1
    /\ app.compute_bend_parameters 10 2 90 500 3 (lit "Carbon Steel") = Ok r2
    /\ (app.wf r2 <=? app.wf r1) = true
    /\ app.clr r1 = app.clr r2
    /\ ((app.epsilon <? app.clr r1) = true -> is_finite (app.clr r1) = true ->
        (app.stress r1 <=? app.stress r2) = true).
Proof.
  apply (C6_wall_monotone 10 1 2 90 500 3 (lit "Carbon Steel")
           (app.mk_props 210000 250)); reflexivity.
Defined.

(** C6 as the spec words it fails twice on the code.  The stress is
    proportional to the wall, so going from a 2 mm wall down to 1 mm lowers
    it from 7 to 3.5 instead of raising it; this is the instance refuted
    here. *)
Lemma C6_counterexample :
  ~ (forall (od w1 w2 angle straight D : float) (name : pystr)
            (r1 r2 : app.bend_results),
        (0 <? od) = true ->
        (app.epsilon <? w1) = true -> (w1 <? w2) = true ->
        (app.epsilon <? D * od) = true ->
        app.compute_bend_parameters od w1 angle straight D name = Ok r1 ->
        app.compute_bend_parameters od w2 angle straight D name = Ok r2 ->
        (app.wf r2 <? app.wf r1) = true
        /\ (app.stress r2 <? app.stress r1) = true).
Proof.
  intros H.
  destruct (H 10 1 2 90 500 3 (lit "Carbon Steel") _ _
              eq_refl eq_refl eq_refl eq_refl eq_refl eq_refl) as [_ Hs].
  vm_compute in Hs. discriminate Hs.
Qed.

(** The other failure is one of strictness only: the walls 27.03 and the
    next float, 27.030000000000005, give the same wall factor for a 10 mm
    tube. *)
Example wall_factor_plateau :
  (0x1.b07ae147ae148p+4 <? 0x1.b07ae147ae149p+4) = true
  /\ 10 / PyFloat.max 0x1.b07ae147ae148p+4 app.epsilon
     = 10 / PyFloat.max 0x1.b07ae147ae149p+4 app.epsilon.
Proof. split; vm_compute; reflexivity. Qed.

(** ** C7 and C8: the report *)

(** C7, as the code has it.  For every (inputs, results) pair and every
    PDF library, [generate_pdf_report] hands the library one page with, in
    order: the title; the echo of the inputs (the material name and the five
    numeric fields, each through [:.2f]); the block of the seven results,
    each through [:.2f]; the static block of the six formulas and the note
    that the values are not for final certification.  What it returns is the
    library's document re-encoded, or the library's exception.  [:.2f] gives
    exactly two decimals for a finite value and [inf], [-inf] or [nan] for
    any other; for the end-to-end example the page carries the two literal
    lines of the spec. *)
Theorem C7_report_layout :
  (forall (FPDF_output : list report.fpdf_call -> result pystr)
          (i : report.bend_inputs) (r : app.bend_results),
      let f := PyFormat.format_2f in
      report.generate_pdf_report FPDF_output i r
      = match FPDF_output (report.report_calls i r) with
        | Ok s => Ok (report.encode_latin1_replace s)
        | Raise e => Raise e
        end
      /\ report.texts (report.report_calls i r)
      = [ lit "Tube Bending Report";
          lit "Material          : " ++ report.material i;
          lit "Tube O.D.         : " ++ f (report.od i) ++ lit " mm";
          lit "Wall Thickness    : " ++ f (report.wall i) ++ lit " mm";
          lit "Bend Angle        : " ++ f (report.angle i) ++ lit " "
            ++ report.degree;
          lit "Straight Length   : " ++ f (report.straight i) ++ lit " mm";
          report.quote ++ lit "D" ++ report.quote ++ lit " of Bend (CLR/OD): "
            ++ f (report.d_of_bend i);
          lit "Calculated Values";
          lit "Wall Factor (WF = OD / t)         : " ++ f (app.wf r);
          lit "Center-Line Radius (CLR)          : " ++ f (app.clr r)
            ++ lit " mm";
          lit "Minimum Bend Radius (WF " ++ report.times ++ lit " OD)     : "
            ++ f (app.mbr r) ++ lit " mm";
          lit "Bend Arc Length                   : " ++ f (app.arc_len r)
            ++ lit " mm";
          lit "Approx. Total Tube Length         : " ++ f (app.total_len r)
            ++ lit " mm";
          lit "Simplified Outer-Fibre Stress     : " ++ f (app.stress r)
            ++ lit " MPa";
          lit "Factor of Safety vs Yield (FoS)   : " ++ f (app.fos r);
          lit "Key Formulas (from Bend Manual concepts)";
          lit "Wall Factor (WF) = O.D. / Wall" ++ report.newline
            ++ report.quote ++ lit "D" ++ report.quote
            ++ lit " of Bend      = CLR / O.D." ++ report.newline
            ++ lit "CLR              = D " ++ report.times ++ lit " O.D."
            ++ report.newline
            ++ lit "Bend Arc Length  = CLR " ++ report.times ++ lit " "
            ++ report.theta ++ lit "(rad)" ++ report.newline
            ++ lit "Total Length     = Straight Length + Bend Arc Length"
            ++ report.newline
            ++ lit "Outer-fibre strain " ++ report.approx
            ++ lit " (t/2) / CLR " ++ report.arrow ++ lit " Stress "
            ++ report.approx ++ lit " E " ++ report.times ++ lit " strain"
            ++ report.newline ++ report.newline
            ++ lit "NOTE: Stress and FoS here are simplified estimates for study / comparison, not for final certification." ])
  /\ (forall x,
        (is_finite x = true -> two_decimals (PyFormat.format_2f x))
        /\ (is_finite x = false ->
            In (PyFormat.format_2f x) [lit "inf"; lit "-inf"; lit "nan"]))
  /\ app.compute_bend_parameters 10 1 90 500 3 (lit "Carbon Steel")
     = Ok example_results
  /\ In (lit "Wall Factor (WF = OD / t)         : 10.00")
        (report.texts (report.report_calls example_inputs example_results))
  /\ In (lit "Factor of Safety vs Yield (FoS)   : 71.43")
        (report.texts (report.report_calls example_inputs example_results)).
Proof.
  split.
  { intros FPDF_output i r f. split.
    - unfold report.generate_pdf_report.
      now destruct (FPDF_output (report.report_calls i r)).
    - reflexivity. }
  split.
  { intros x. split;
      [apply format_2f_two_decimals | apply format_2f_not_finite]. }
  split; [vm_compute; reflexivity|].
  split.
  - do 8 right. left. vm_compute. reflexivity.
  - do 14 right. left. vm_compute. reflexivity.
Qed.

(** C7 as the spec words it promises two decimals for every result field.
    With the positive wall of 1e-320 mm on the 10 mm Carbon Steel tube the
    stress is 3.5e-320, the quotient 250 / stress overflows, and the line of
    the factor of safety reads [inf]. *)
Lemma C7_counterexample :
  ~ (forall (od wall angle straight D : float) (name : pystr)
            (r : app.bend_results),
        (0 <? od) = true -> (0 <? wall) = true ->
        (0 <? angle) = true -> (angle <=? 360) = true -> (0 <? D) = true ->
        app.compute_bend_parameters od wall angle straight D name = Ok r ->
        Forall two_decimals
          (map PyFormat.format_2f
             [app.wf r; app.clr r; app.mbr r; app.arc_len r; app.total_len r;
              app.stress r; app.fos r])).
Proof.
  intros H.
  pose proof (H 10 tiny_wall 90 500 3 (lit "Carbon Steel") _
                eq_refl eq_refl eq_refl eq_refl eq_refl eq_refl) as F.
  rewrite Forall_forall in F. apply (inf_not_two_decimals).
  apply F. do 6 right. left. vm_compute. reflexivity.
Qed.


(** The encoding step of line 112 on its own: [encode("latin-1", "replace")]
    returns for every string, keeps its length, keeps every code point the
    codec has and puts ["?"] for every other one. *)
Lemma encode_latin1_replace_spec (s : pystr) :
  List.length (report.encode_latin1_replace s) = List.length s
  /\ Forall (fun b => (b <= 255)%N) (report.encode_latin1_replace s)
  /\ forall n c, nth_error s n = Some c ->
       nth_error (report.encode_latin1_replace s) n
       = Some (if (c <=? 255)%N then c else 63%N).
Proof.
  unfold report.encode_latin1_replace. split; [apply length_map|]. split.
  - apply Forall_forall. intros b Hb. apply in_map_iff in Hb.
    destruct Hb as (c & <- & _). destruct (N.leb_spec c 255); lia.
  - intros n c H. apply map_nth_error with (f := fun c => if (c <=? 255)%N then c else 63%N) in H. exact H.
Qed.

(** The function itself, whatever the library's [output] is: it returns
    exactly when the library returns, and then with the replacing encoding
    of what the library returned; an exception of the library is passed on. *)
Lemma generate_pdf_report_spec
    (FPDF_output : list report.fpdf_call -> result pystr)
    (i : report.bend_inputs) (r : app.bend_results) :
  report.generate_pdf_report FPDF_output i r
  = match FPDF_output (report.report_calls i r) with
    | Ok s => Ok (report.encode_latin1_replace s)
    | Raise e => Raise e
    end.
Proof.
  unfold report.generate_pdf_report.
  now destruct (FPDF_output (report.report_calls i r)).
Qed.

(** Where the strict codec would raise, the replacing one does not: theta,
    the approximation sign and the arrow of the formula block are outside
    latin-1, the degree and multiplication signs are inside. *)
Example formulas_text_not_latin1 :
  report.encode_latin1_strict report.formulas_text = Raise UnicodeEncodeError
  /\ report.encode_latin1_replace (report.theta ++ report.degree)
     = [63%N; 176%N].
Proof. split; vm_compute; reflexivity. Qed.

(** C8.  The formula block is on every page the function builds, and it is
    outside Latin-1.  With a PDF library that keeps the text of its core
    fonts in Latin-1, the report is therefore never rendered: for every
    (inputs, results) pair the call raises, inside the library, before the
    replacing codec of line 112 is reached. *)
Theorem C8_formula_block_stops_the_report
    (FPDF_output : list report.fpdf_call -> result pystr) :
  core_fonts_are_latin1 FPDF_output ->
  forall (i : report.bend_inputs) (r : app.bend_results),
    In report.formulas_text (report.texts (report.report_calls i r))
    /\ report.encode_latin1_strict report.formulas_text
       = Raise UnicodeEncodeError
    /\ exists e, report.generate_pdf_report FPDF_output i r = Raise e.
Proof.
  intros Hlib i r.
  assert (Hin : In report.formulas_text
                  (report.texts (report.report_calls i r))).
  { do 16 right. left. reflexivity. }
  assert (Hs : report.encode_latin1_strict report.formulas_text
               = Raise UnicodeEncodeError) by (vm_compute; reflexivity).
  split; [exact Hin|]. split; [exact Hs|].
  destruct (Hlib _ _ Hin Hs) as [e He]. exists e.
  unfold report.generate_pdf_report. now rewrite He.
Qed.

Lemma C8_formula_block_stops_the_report_witness :
  In report.formulas_text
     (report.texts (report.report_calls example_inputs example_results))
  /\ report.encode_latin1_strict report.formulas_text
     = Raise UnicodeEncodeError
  /\ exists e,
       report.generate_pdf_report strict_output example_inputs example_results
       = Raise e.
Proof.
  apply (C8_formula_block_stops_the_report strict_output
           strict_output_is_strict example_inputs example_results).
Defined.

(** ** C9 and C10: bending_calc.py *)

(** C9. [calculate_tube_length s a r] is [s + radians a * r], and with
    [r] the engine's centre-line radius [D * od] it is the very total
    length the engine returns. *)
Theorem C9_tube_length_agrees
    (od wall a s D : float) (name : pystr) (p : app.material_props) :
  app.getitem app.MATERIALS name = Ok p ->
  (forall r, bending_calc.calculate_tube_length s a r
             = s + PyFloat.radians a * r)
  /\ exists res,
       app.compute_bend_parameters od wall a s D name = Ok res
       /\ app.clr res = D * od
       /\ bending_calc.calculate_tube_length s a (D * od)
          = app.total_len res.
Proof.
  intros Hp. split; [reflexivity|].
  rewrite compute_bend_parameters_unfold, Hp.
  eexists. split; [reflexivity|]. split; [reflexivity|].
  cbn [results_of app.total_len]. unfold bending_calc.calculate_tube_length.
  now rewrite float_mul_comm.
Qed.

Lemma C9_tube_length_agrees_witness :
  (forall r, bending_calc.calculate_tube_length 500 90 r
             = 500 + PyFloat.radians 90 * r)
  /\ exists res,
       app.compute_bend_parameters 10 1 90 500 3 (lit "Carbon Steel") = Ok res
       /\ app.clr res = 3 * 10
       /\ bending_calc.calculate_tube_length 500 90 (3 * 10)
          = app.total_len res.
Proof.
  apply (C9_tube_length_agrees 10 1 90 500 3 (lit "Carbon Steel")
           (app.mk_props 210000 250)).
  reflexivity.
Defined.

(** C10. [calculate_bend_radius] does not depend on its [bend_angle]: for
    any two angles the results are equal, both [d * f]. *)
Theorem C10_bend_radius_ignores_angle (d f a1 a2 : float) :
  bending_calc.calculate_bend_radius d a1 f
  = bending_calc.calculate_bend_radius d a2 f
  /\ bending_calc.calculate_bend_radius d a1 f = d * f.
Proof. split; reflexivity. Qed.
End Claims.

(** * More of binary64: addition, signs and NaN *)

Section Addition.
Local Open Scope Q_scope.

Lemma rne_eq (y : Q) (n : Z) : y == inject_Z n -> rne y = n.
Proof.
  intros H. apply Z.le_antisymm.
  - apply rne_le. rewrite H. apply Qle_refl.
  - apply rne_ge. rewrite H. apply Qle_refl.
Qed.

(** The rank of a float is a fixed point of the rounding. *)
Lemma RN_representable (s : bool) (m : positive) (e : Z) :
  valid_binary (S754_finite s m e) = true ->
  RN (inject_Z (Z.pos m * 2 ^ (e + 1074))) = (Z.pos m * 2 ^ (e + 1074))%Z.
Proof.
  intros V. destruct (valid_finite s m e V) as (He & Hm & Hn).
  assert (L : Z.log2 (Z.pos m * 2 ^ (e + 1074)) = (e + 1074 + Z.log2 (Z.pos m))%Z)
    by (apply Z.log2_mul_pow2; lia).
  assert (L52 : (Z.log2 (Z.pos m) <= 52)%Z).
  { assert (Z.log2 (Z.pos m) < 53)%Z by (apply Z.log2_lt_pow2; lia). lia. }
  pose proof (Z.log2_nonneg (Z.pos m)) as L0.
  unfold RN, shift_of. rewrite Qfloor_Z, L.
  destruct Hn as [-> | Hn].
  - change (-1074 + 1074)%Z with 0%Z. rewrite Z.add_0_l.
    rewrite Z.max_l by lia. rewrite Z.pow_0_r, !Z.mul_1_r.
    apply rne_eq. change (- 0)%Z with 0%Z. rewrite bpow_0. ring.
  - assert (Z.log2 (Z.pos m) = 52%Z).
    { apply Z.log2_le_pow2 in Hn; lia. }
    replace (e + 1074 + Z.log2 (Z.pos m) - 52)%Z with (e + 1074)%Z by lia.
    rewrite Z.max_r by lia. f_equal.
    apply rne_eq. rewrite inject_Z_pow2 by lia.
    rewrite <- Qmult_assoc, bpow_opp. ring.
Qed.

Lemma RN_zero : RN (inject_Z 0) = 0%Z.
Proof. reflexivity. Qed.

Lemma RN_rk (f : spec_float) :
  valid_binary f = true -> (rk f < top)%Z -> RN (inject_Z (rk f)) = rk f.
Proof.
  intros V H. destruct f as [s | s | | s m e]; cbn [rk] in *.
  - reflexivity.
  - lia.
  - reflexivity.
  - now apply (RN_representable s).
Qed.

Lemma iter_xO (m d : positive) : Z.pos (Pos.iter xO m d) = (Z.pos m * 2 ^ Z.pos d)%Z.
Proof.
  rewrite <- Z.pow_pos_fold. unfold Z.pow_pos.
  revert m. induction d using Pos.peano_ind; intros m.
  - cbn. lia.
  - rewrite !Pos.iter_succ. rewrite Pos2Z.inj_xO, IHd. lia.
Qed.

(** [shl_align] lowers the exponent to [e'] when that is lower, and keeps the value. *)
Lemma shl_align_spec (m : positive) (e e' : Z) :
  (snd (shl_align m e e') = Z.min e e'
   /\ Z.pos (fst (shl_align m e e'))
      = Z.pos m * 2 ^ (e - Z.min e e'))%Z.
Proof.
  unfold shl_align. destruct (e' - e)%Z as [|d|d] eqn:E; cbn [fst snd].
  - rewrite Z.min_l by lia. replace (e - e)%Z with 0%Z by lia.
    split; [reflexivity | lia].
  - rewrite Z.min_l by lia. replace (e - e)%Z with 0%Z by lia.
    split; [reflexivity | lia].
  - rewrite Z.min_r by lia. split; [reflexivity|].
    rewrite iter_xO. f_equal. f_equal. lia.
Qed.

Lemma binary_round_rk (P : positive) (e : Z) :
  (-1074 <= e)%Z ->
  rk (binary_round prec emax false P e)
  = Z.min (RN (inject_Z (Z.pos P * 2 ^ (e + 1074)))) top
  /\ nonneg (binary_round prec emax false P e) = true.
Proof.
  intros He. unfold binary_round.
  set (f := fexp prec emax (Z.pos (digits2_pos P) + e)).
  destruct (shl_align_spec P e f) as [S2 S1].
  destruct (shl_align P e f) as [mz ez]. cbn [fst snd] in S1, S2.
  set (u := inject_Z (Z.pos P * 2 ^ (e + 1074))).
  assert (Ff : (-1074 <= f)%Z) by (unfold f; rewrite fexp_eq; lia).
  assert (Hez : (-1074 <= ez <= e)%Z) by lia.
  assert (Hu : 0 <= u).
  { apply inject_Z_nonneg. apply Z.mul_nonneg_nonneg; [lia|].
    apply Z.pow_nonneg. lia. }
  apply round_aux_rk.
  - exact Hu.
  - lia.
  - cbn [inbetween]. rewrite S1. unfold u.
    rewrite !inject_Z_pow2 by lia.
    rewrite <- Qmult_assoc, <- bpow_add.
    apply Qmult_comp; [reflexivity|]. apply bpow_eq. lia.
  - assert (Hj : bpow (Zdigits2 (Z.pos P) - 1 + (e + 1074)) <= u).
    { unfold u. rewrite inject_Z_pow2 by lia. rewrite bpow_add.
      destruct (digits_bounds P) as [A _].
      pose proof (bpow_pos (e + 1074)).
      pose proof (bpow_pos (Zdigits2 (Z.pos P) - 1)). nra. }
    apply shift_of_ge in Hj. pose proof (shift_of_nonneg u).
    assert (ez <= f)%Z by lia.
    unfold f in *. rewrite fexp_eq in *.
    change (Z.pos (digits2_pos P)) with (Zdigits2 (Z.pos P)) in *. lia.
Qed.

Lemma SFadd_finite_rk (ma mb : positive) (ea eb : Z) :
  valid_binary (S754_finite false ma ea) = true ->
  valid_binary (S754_finite false mb eb) = true ->
  rk (SF64add (S754_finite false ma ea) (S754_finite false mb eb))
  = Z.min (RN (inject_Z (Z.pos ma * 2 ^ (ea + 1074)
                         + Z.pos mb * 2 ^ (eb + 1074)))) top
  /\ nonneg (SF64add (S754_finite false ma ea) (S754_finite false mb eb))
     = true.
Proof.
  intros Va Vb.
  destruct (valid_finite _ _ _ Va) as (Hea & _ & _).
  destruct (valid_finite _ _ _ Vb) as (Heb & _ & _).
  unfold SF64add, SFadd. cbn [cond_Zopp].
  set (ez := Z.min ea eb).
  destruct (shl_align_spec ma ea ez) as [_ A].
  destruct (shl_align_spec mb eb ez) as [_ B].
  rewrite Z.min_r in A by (unfold ez; lia).
  rewrite Z.min_r in B by (unfold ez; lia).
  set (pa := fst (shl_align ma ea ez)) in *.
  set (pb := fst (shl_align mb eb ez)) in *.
  change (Z.pos pa + Z.pos pb)%Z with (Z.pos (pa + pb)).
  cbn [binary_normalize].
  destruct (binary_round_rk (pa + pb) ez ltac:(unfold ez; lia)) as [R N].
  split; [|exact N]. rewrite R. f_equal. f_equal. f_equal.
  rewrite Pos2Z.inj_add, A, B, Z.mul_add_distr_r.
  rewrite <- !Z.mul_assoc, <- !Z.pow_add_r by (unfold ez; lia).
  f_equal; f_equal; f_equal; unfold ez; lia.
Qed.

Lemma zero_neq_top : (0 =? top)%Z = false.
Proof. apply Z.eqb_neq. pose proof top_pos. lia. Qed.

Lemma SFadd_rank (a b : spec_float) :
  valid_binary a = true -> valid_binary b = true ->
  nonneg a = true -> nonneg b = true ->
  nonneg (SF64add a b) = true /\ rk (SF64add a b) = add_rank (rk a) (rk b).
Proof.
  intros Va Vb Na Nb. unfold add_rank. pose proof top_pos as T.
  destruct a as [sa | [|] | | [|] ma ea]; try discriminate Na.
  - (* zero + b *)
    cbn [rk]. rewrite zero_neq_top. cbn [orb]. rewrite Z.add_0_l.
    destruct b as [sb | [|] | | [|] mb eb]; try discriminate Nb.
    + destruct sa, sb; split; reflexivity.
    + cbn [rk]. rewrite Z.eqb_refl. split; reflexivity.
    + destruct (rk_finite_neq _ _ _ Vb) as [_ Et]. rewrite Et.
      pose proof (rk_finite_bounds _ _ _ Vb) as Bd.
      rewrite (RN_rk _ Vb) by lia. rewrite Z.min_l by lia.
      split; reflexivity.
  - (* inf + b *)
    cbn [rk]. rewrite Z.eqb_refl. cbn [orb].
    destruct b as [sb | [|] | | [|] mb eb]; try discriminate Nb;
      split; reflexivity.
  - (* finite + b *)
    destruct (rk_finite_neq _ _ _ Va) as [_ Eta]. rewrite Eta. cbn [orb].
    destruct b as [sb | [|] | | [|] mb eb]; try discriminate Nb.
    + cbn [rk SF64add SFadd]. rewrite zero_neq_top, Z.add_0_r.
      pose proof (rk_finite_bounds _ _ _ Va) as Bd. cbn [rk] in Bd.
      rewrite (RN_representable _ _ _ Va). rewrite Z.min_l by lia.
      split; reflexivity.
    + cbn [rk]. rewrite Z.eqb_refl. split; reflexivity.
    + destruct (rk_finite_neq _ _ _ Vb) as [_ Etb]. rewrite Etb.
      destruct (SFadd_finite_rk ma mb ea eb Va Vb) as [R N].
      split; [exact N | exact R].
Qed.

Lemma add_rank_mono_r (a b1 b2 : Z) :
  (0 <= a)%Z -> (0 <= b1 <= b2)%Z -> (b2 <= top)%Z ->
  (add_rank a b1 <= add_rank a b2)%Z.
Proof.
  intros Ha Hb Ht. unfold add_rank.
  destruct (a =? top)%Z; cbn [orb]; [lia|].
  destruct (Z.eqb_spec b2 top) as [E2 | E2].
  - destruct (b1 =? top)%Z; lia.
  - destruct (Z.eqb_spec b1 top) as [E1 | E1]; [lia|].
    apply Z.min_le_compat_r. apply RN_mono.
    + apply inject_Z_nonneg. lia.
    + rewrite <- Zle_Qle. lia.
Qed.

Lemma add_rank_comm (a b : Z) : add_rank a b = add_rank b a.
Proof. unfold add_rank. now rewrite orb_comm, Z.add_comm. Qed.

(** Adding a non-negative float never gives less. *)
Lemma add_rank_ge (f g : spec_float) :
  valid_binary f = true -> valid_binary g = true ->
  (rk f <= add_rank (rk f) (rk g))%Z.
Proof.
  intros Vf Vg. unfold add_rank.
  pose proof (rk_range f Vf) as Rf. pose proof (rk_range g Vg) as Rg.
  destruct (Z.eqb_spec (rk f) top) as [E | E]; cbn [orb]; [lia|].
  destruct (rk g =? top)%Z; [lia|].
  apply Z.min_glb; [|lia].
  rewrite <- (RN_rk f Vf) at 1 by lia.
  apply RN_mono.
  - apply inject_Z_nonneg. lia.
  - rewrite <- Zle_Qle. lia.
Qed.
End Addition.

Section MoreFloats.
Local Open Scope float_scope.

(** ** Addition of non-negative floats *)

Lemma float_add_rank (x y : float) :
  good x = true -> good y = true ->
  good (x + y) = true /\ rank (x + y) = add_rank (rank x) (rank y).
Proof.
  intros Gx Gy. unfold good, rank. rewrite add_spec.
  apply SFadd_rank; auto using Prim2SF_valid.
Qed.

Lemma float_add_mono_r (c x1 x2 : float) :
  good c = true -> good x1 = true -> (x1 <=? x2) = true ->
  (c + x1 <=? c + x2) = true /\ good (c + x1) = true.
Proof.
  intros Gc G1 Hx. pose proof (leb_good x1 x2 G1 Hx) as G2.
  rewrite (float_leb_rank x1 x2 G1 G2) in Hx. apply Z.leb_le in Hx.
  destruct (float_add_rank c x1 Gc G1) as [Q1 R1].
  destruct (float_add_rank c x2 Gc G2) as [Q2 R2].
  split; [|exact Q1].
  rewrite (float_leb_rank _ _ Q1 Q2), R1, R2. apply Z.leb_le.
  pose proof (rank_range c). pose proof (rank_range x1).
  pose proof (rank_range x2).
  apply add_rank_mono_r; lia.
Qed.

Lemma float_add_ge (s a : float) :
  good s = true -> good a = true ->
  (s <=? s + a) = true /\ good (s + a) = true.
Proof.
  intros Gs Ga. destruct (float_add_rank s a Gs Ga) as [Q R].
  split; [|exact Q].
  rewrite (float_leb_rank _ _ Gs Q), R. apply Z.leb_le.
  apply add_rank_ge; apply Prim2SF_valid.
Qed.

(** ** Order *)

Lemma good_leb0 (x : float) : (0 <=? x) = good x.
Proof.
  rewrite FloatAxioms.leb_spec. unfold good.
  change (Prim2SF 0) with (S754_zero false).
  now destruct (Prim2SF x) as [s | [|] | | [|] m e].
Qed.

Lemma float_leb_trans (x y z : float) :
  good x = true -> (x <=? y) = true -> (y <=? z) = true -> (x <=? z) = true.
Proof.
  intros Gx Hxy Hyz.
  pose proof (leb_good _ _ Gx Hxy) as Gy. pose proof (leb_good _ _ Gy Hyz) as Gz.
  rewrite float_leb_rank in * by assumption.
  apply Z.leb_le in Hxy, Hyz. apply Z.leb_le. lia.
Qed.

Lemma float_ltb_leb_trans (x y z : float) :
  good x = true -> (x <? y) = true -> (y <=? z) = true -> (x <? z) = true.
Proof.
  intros Gx Hxy Hyz.
  pose proof (ltb_good _ _ Gx Hxy) as Gy. pose proof (leb_good _ _ Gy Hyz) as Gz.
  rewrite (float_ltb_rank _ _ Gx Gy) in Hxy. rewrite (float_leb_rank _ _ Gy Gz) in Hyz.
  rewrite (float_ltb_rank _ _ Gx Gz).
  apply Z.ltb_lt in Hxy. apply Z.leb_le in Hyz. apply Z.ltb_lt. lia.
Qed.

Lemma float_leb_infinity (x : float) : good x = true -> (x <=? infinity) = true.
Proof.
  intros G. rewrite (float_leb_rank x infinity G eq_refl).
  apply Z.leb_le. apply rank_range.
Qed.

Lemma float_leb_refl (x : float) : good x = true -> (x <=? x) = true.
Proof. intros G. rewrite (float_leb_rank x x G G). apply Z.leb_refl. Qed.

Lemma not_positive_rank (x : float) :
  good x = true -> (0 <? x) = false -> rank x = 0%Z.
Proof.
  intros G H. rewrite (float_ltb_rank 0 x good_zero G), rank_zero in H.
  apply Z.ltb_ge in H. pose proof (rank_range x). lia.
Qed.

(** ** The clamp, on ranks *)

Lemma max_epsilon_rank (x : float) :
  good x = true ->
  good (PyFloat.max x app.epsilon) = true
  /\ rank (PyFloat.max x app.epsilon) = Z.max (rank x) (rank app.epsilon)
  /\ (0 <? PyFloat.max x app.epsilon) = true.
Proof.
  intros G. unfold PyFloat.max.
  destruct (positive_rank app.epsilon epsilon_positive) as [Ge Pe].
  rewrite (float_ltb_rank x app.epsilon G Ge).
  destruct (Z.ltb_spec (rank x) (rank app.epsilon)) as [L | L].
  - split; [exact Ge|]. split; [lia | exact epsilon_positive].
  - split; [exact G|]. split; [lia|].
    rewrite (float_ltb_rank 0 x good_zero G), rank_zero. apply Z.ltb_lt. lia.
Qed.

Lemma max_epsilon_mono (x y : float) :
  good x = true -> (x <=? y) = true ->
  (PyFloat.max x app.epsilon <=? PyFloat.max y app.epsilon) = true.
Proof.
  intros Gx H. pose proof (leb_good _ _ Gx H) as Gy.
  destruct (max_epsilon_rank x Gx) as (G1 & R1 & _).
  destruct (max_epsilon_rank y Gy) as (G2 & R2 & _).
  rewrite (float_leb_rank _ _ G1 G2), R1, R2.
  rewrite (float_leb_rank _ _ Gx Gy) in H. apply Z.leb_le in H.
  apply Z.leb_le. lia.
Qed.

(** ** Multiplication and division, a little more generally *)

Lemma prod_units_mono_l (c1 c2 a : Z) :
  (0 <= a)%Z -> (c1 <= c2)%Z -> (prod_units c1 a <= prod_units c2 a)%Q.
Proof.
  intros Ha Hc. unfold prod_units.
  rewrite (Z.mul_comm c1 a), (Z.mul_comm c2 a).
  now apply prod_units_mono_r.
Qed.

Lemma mul_rank_mono_l (c1 c2 a : Z) :
  (0 <= c1 <= c2)%Z -> (0 <= a)%Z -> (mul_rank c1 a <= mul_rank c2 a)%Z.
Proof.
  intros Hc Ha. unfold mul_rank.
  destruct (a =? 0)%Z; [lia|]. destruct (a =? top)%Z; [lia|].
  apply Z.min_le_compat_r. apply RN_mono.
  - apply prod_units_nonneg; lia.
  - apply prod_units_mono_l; lia.
Qed.

(** Multiplying a non-negative float is monotone in a finite positive
    factor. *)
Lemma float_mul_mono_l (c1 c2 x : float) :
  (0 <? c1) = true -> (c1 <=? c2) = true -> is_finite c2 = true ->
  good x = true ->
  (c1 * x <=? c2 * x) = true /\ good (c1 * x) = true /\ good (c2 * x) = true.
Proof.
  intros H1 H12 F2 Gx.
  destruct (positive_rank c1 H1) as [G1 P1].
  pose proof (leb_good _ _ G1 H12) as G2.
  pose proof (finite_rank c2 F2) as T2.
  rewrite (float_leb_rank _ _ G1 G2) in H12. apply Z.leb_le in H12.
  destruct (float_mul_rank c1 x G1 Gx ltac:(lia)) as [Q1 R1].
  destruct (float_mul_rank c2 x G2 Gx ltac:(lia)) as [Q2 R2].
  split; [|split; assumption].
  rewrite (float_leb_rank _ _ Q1 Q2), R1, R2. apply Z.leb_le.
  pose proof (rank_range x). apply mul_rank_mono_l; lia.
Qed.

Lemma div_rank_mono_r0 (a b1 b2 : Z) :
  (0 <= a < top)%Z -> (0 < b1 <= b2)%Z -> (b2 <= top)%Z ->
  (div_rank a b2 <= div_rank a b1)%Z.
Proof.
  intros Ha Hb Ht. destruct (Z.eq_dec a 0) as [-> | N].
  - unfold div_rank. cbn. lia.
  - apply div_rank_mono_r; lia.
Qed.

(** Dividing a finite non-negative float is antitone in a positive divisor. *)
Lemma float_div_mono_r0 (x y1 y2 : float) :
  good x = true -> is_finite x = true ->
  (0 <? y1) = true -> (y1 <=? y2) = true ->
  (x / y2 <=? x / y1) = true /\ good (x / y2) = true /\ good (x / y1) = true.
Proof.
  intros Gx Fx Hy Hyy. pose proof (finite_rank x Fx) as Tx.
  destruct (positive_rank y1 Hy) as [G1 P1].
  pose proof (leb_good y1 y2 G1 Hyy) as G2.
  rewrite (float_leb_rank y1 y2 G1 G2) in Hyy. apply Z.leb_le in Hyy.
  destruct (float_div_rank x y1 Gx G1 P1 (or_introl Tx)) as [Q1 R1].
  destruct (float_div_rank x y2 Gx G2 ltac:(lia) (or_introl Tx)) as [Q2 R2].
  split; [|split; assumption].
  rewrite (float_leb_rank _ _ Q2 Q1), R1, R2. apply Z.leb_le.
  pose proof (rank_range y2). pose proof (rank_range x).
  apply div_rank_mono_r0; lia.
Qed.

(** Halving keeps a finite non-negative float finite and non-negative. *)
Lemma half_finite (w : float) :
  good w = true -> is_finite w = true ->
  good (w / 2) = true /\ is_finite (w / 2) = true.
Proof.
  intros G F. pose proof (finite_rank w F) as T.
  destruct (float_div_rank w 2 G eq_refl eq_refl (or_introl T)) as [Q R].
  split; [exact Q|]. apply good_finite; [exact Q|].
  rewrite R. unfold div_rank.
  destruct (rank w =? 0)%Z; [apply top_pos|].
  change (rank 2 =? top)%Z with false. cbv iota.
  destruct (Z.eqb_spec (rank w) top) as [E | _]; [lia|].
  apply Z.min_lt_iff. left.
  pose proof (rank_range w) as Rw.
  apply Z.le_lt_trans with (RN (inject_Z (rank w))).
  - apply RN_mono.
    + apply quot_units_nonneg; [lia | reflexivity].
    + unfold quot_units. change (rank 2) with (2 ^ 1075)%Z.
      apply Qle_shift_div_r; [reflexivity|].
      assert (0 <= inject_Z (rank w))%Q by (apply inject_Z_nonneg; lia).
      assert (bpow 1074 <= inject_Z (2 ^ 1075))%Q.
      { rewrite bpow_Z by lia. rewrite <- Zle_Qle.
        apply Z.pow_le_mono_r; lia. }
      pose proof (bpow_pos 1074). nra.
  - unfold rank in *. rewrite RN_rk; [exact T | apply Prim2SF_valid | exact T].
Qed.
End MoreFloats.

Section Signs.
Local Open Scope float_scope.

(** ** Signs and NaN through the operations *)

(** The rounding keeps the sign it is given. *)
Lemma round_aux_sign (s : bool) (m e : Z) (l : location) :
  (if s then sign_set else sign_clear)
    (binary_round_aux prec emax s m e l) = true.
Proof.
  unfold binary_round_aux.
  destruct (shr_fexp prec emax m e l) as [mrs' e'].
  destruct (shr_fexp prec emax _ e' loc_Exact) as [mrs'' e''].
  destruct (shr_m mrs'') as [|p|p]; [| |now destruct s].
  - now destruct s.
  - destruct (e'' <=? emax - prec)%Z; now destruct s.
Qed.

Lemma SFdiv_sign (a b : spec_float) :
  sign_set a = true -> sign_clear b = true -> sign_set (SF64div a b) = true.
Proof.
  unfold SF64div, SFdiv.
  destruct a as [sa | sa | | sa ma ea]; cbn [sign_set]; intros Ha;
    try subst sa;
    destruct b as [sb | sb | | sb mb eb]; cbn [sign_clear]; intros Hb;
    try (apply negb_true_iff in Hb; subst sb); try reflexivity.
  destruct (SFdiv_core_binary prec emax (Z.pos ma) ea (Z.pos mb) eb)
    as [[mz ez] lz].
  apply (round_aux_sign true).
Qed.

Lemma SFmul_sign (b a : spec_float) :
  sign_clear b = true -> sign_set a = true -> sign_set (SF64mul b a) = true.
Proof.
  unfold SF64mul, SFmul.
  destruct b as [sb | sb | | sb mb eb]; cbn [sign_clear]; intros Hb;
    try (apply negb_true_iff in Hb; subst sb);
    destruct a as [sa | sa | | sa ma ea]; cbn [sign_set]; intros Ha;
    try subst sa; try reflexivity.
  apply (round_aux_sign true).
Qed.

Lemma float_div_sign (x y : float) :
  sign_set (Prim2SF x) = true -> sign_clear (Prim2SF y) = true ->
  sign_set (Prim2SF (x / y)) = true.
Proof. intros Hx Hy. rewrite div_spec. now apply SFdiv_sign. Qed.

Lemma float_mul_sign (y x : float) :
  sign_clear (Prim2SF y) = true -> sign_set (Prim2SF x) = true ->
  sign_set (Prim2SF (y * x)) = true.
Proof. intros Hy Hx. rewrite mul_spec. now apply SFmul_sign. Qed.

(** A float with its sign bit set, or a NaN, is not [> 0]. *)
Lemma sign_set_not_positive (x : float) :
  sign_set (Prim2SF x) = true -> (0 <? x) = false.
Proof.
  rewrite FloatAxioms.ltb_spec. change (Prim2SF 0) with (S754_zero false).
  destruct (Prim2SF x) as [s | s | | s m e]; cbn [sign_set]; intros H;
    try subst s; reflexivity.
Qed.

Lemma negative_sign_set (x : float) :
  (x <? 0) = true -> sign_set (Prim2SF x) = true.
Proof.
  rewrite FloatAxioms.ltb_spec. change (Prim2SF 0) with (S754_zero false).
  destruct (Prim2SF x) as [s | [|] | | [|] m e]; intros H; cbn in H;
    try discriminate H; reflexivity.
Qed.

(** What is not below the clamp is a NaN or has its sign bit clear. *)
Lemma not_below_epsilon_sign (x : float) :
  (x <? app.epsilon) = false -> sign_clear (Prim2SF x) = true.
Proof.
  rewrite FloatAxioms.ltb_spec.
  change (Prim2SF app.epsilon)
    with (S754_finite false 4722366482869645 (-72)).
  destruct (Prim2SF x) as [s | [|] | | [|] m e]; intros H;
    try reflexivity; unfold SFltb in H; cbn [SFcompare] in H;
    discriminate H.
Qed.

Lemma negative_below_epsilon (x : float) :
  (x <? 0) = true -> (x <? app.epsilon) = true.
Proof.
  rewrite !FloatAxioms.ltb_spec. change (Prim2SF 0) with (S754_zero false).
  change (Prim2SF app.epsilon)
    with (S754_finite false 4722366482869645 (-72)).
  destruct (Prim2SF x) as [s | [|] | | [|] m e]; intros H; cbn in H;
    try discriminate H; reflexivity.
Qed.

(** The clamped divisor is a NaN or has its sign bit clear, whatever [x]. *)
Lemma max_epsilon_sign (x : float) :
  sign_clear (Prim2SF (PyFloat.max x app.epsilon)) = true.
Proof.
  unfold PyFloat.max. destruct (x <? app.epsilon) eqn:E; [reflexivity|].
  now apply not_below_epsilon_sign.
Qed.

(** ** NaN *)

Lemma SFcompare_refl (f : spec_float) :
  f <> S754_nan -> SFcompare f f = Some Eq.
Proof.
  destruct f as [s | [|] | | [|] m e]; intros H; try reflexivity;
    try congruence; cbn [SFcompare]; rewrite Z.compare_refl;
    change (Pos.compare_cont Eq m m) with (m ?= m)%positive;
    now rewrite Pos.compare_refl.
Qed.

Lemma is_nan_spec (x : float) : is_nan x = true <-> Prim2SF x = S754_nan.
Proof.
  unfold is_nan. rewrite FloatAxioms.eqb_spec. unfold SFeqb.
  split.
  - intros H. destruct (Prim2SF x) as [s | s | | s m e] eqn:E;
      try reflexivity; rewrite SFcompare_refl in H by congruence;
      discriminate H.
  - intros ->. reflexivity.
Qed.

Lemma div_nan_l (x y : float) : is_nan x = true -> is_nan (x / y) = true.
Proof.
  rewrite !is_nan_spec, div_spec. intros ->. reflexivity.
Qed.

Lemma div_nan_r (x y : float) : is_nan y = true -> is_nan (x / y) = true.
Proof.
  rewrite !is_nan_spec, div_spec. intros ->.
  now destruct (Prim2SF x).
Qed.

Lemma mul_nan_r (x y : float) : is_nan y = true -> is_nan (x * y) = true.
Proof.
  rewrite !is_nan_spec, mul_spec. intros ->.
  now destruct (Prim2SF x).
Qed.

Lemma nan_not_below (x y : float) : is_nan x = true -> (x <? y) = false.
Proof.
  rewrite is_nan_spec, FloatAxioms.ltb_spec. intros ->. reflexivity.
Qed.

Lemma nan_not_above (x y : float) : is_nan x = true -> (y <? x) = false.
Proof.
  rewrite is_nan_spec, FloatAxioms.ltb_spec. intros ->.
  unfold SFltb. now destruct (Prim2SF y).
Qed.

Lemma good_not_nan (x : float) : good x = true -> is_nan x = false.
Proof.
  intros G. destruct (is_nan x) eqn:E; [|reflexivity].
  apply is_nan_spec in E. unfold good in G. rewrite E in G. discriminate G.
Qed.
End Signs.

Section Engine.
Local Open Scope float_scope.

(** ** The engine, piece by piece *)

Lemma materials_yield_positive (name : pystr) (p : app.material_props) :
  app.getitem app.MATERIALS name = Ok p ->
  (0 <? app.yield p) = true /\ is_finite (app.yield p) = true.
Proof.
  unfold app.MATERIALS. cbn [app.getitem].
  destruct (pystr_eqb (lit "Copper") name);
    [|destruct (pystr_eqb (lit "Carbon Steel") name);
      [|destruct (pystr_eqb (lit "Aluminium") name)]];
    intros H; inversion H; subst; split; reflexivity.
Qed.

Lemma positive_sign_clear (x : float) :
  (0 <? x) = true -> sign_clear (Prim2SF x) = true.
Proof.
  rewrite FloatAxioms.ltb_spec. change (Prim2SF 0) with (S754_zero false).
  destruct (Prim2SF x) as [s | [|] | | [|] m e]; intros H; cbn in H;
    try discriminate H; reflexivity.
Qed.

Lemma div_rank_mono_l0 (a1 a2 b : Z) :
  (0 <= a1 <= a2)%Z -> (a2 < top)%Z -> (0 < b <= top)%Z ->
  (div_rank a1 b <= div_rank a2 b)%Z.
Proof.
  intros Ha Ht Hb. destruct (Z.eq_dec b top) as [-> | N].
  - unfold div_rank. rewrite Z.eqb_refl.
    destruct (a1 =? 0)%Z, (a2 =? 0)%Z; lia.
  - apply div_rank_mono_l; lia.
Qed.

(** Dividing by a positive float, infinite or not, is monotone on finite
    non-negative dividends. *)
Lemma float_div_mono_l0 (x1 x2 y : float) :
  good x1 = true -> (x1 <=? x2) = true -> is_finite x2 = true ->
  (0 <? y) = true ->
  (x1 / y <=? x2 / y) = true /\ good (x1 / y) = true /\ good (x2 / y) = true.
Proof.
  intros G1 Hx F2 Hy.
  pose proof (leb_good x1 x2 G1 Hx) as G2.
  destruct (positive_rank y Hy) as [Gy Py].
  pose proof (finite_rank x2 F2) as T2.
  rewrite (float_leb_rank x1 x2 G1 G2) in Hx. apply Z.leb_le in Hx.
  assert (T1 : (rank x1 < top)%Z) by lia.
  destruct (float_div_rank x1 y G1 Gy Py (or_introl T1)) as [Q1 R1].
  destruct (float_div_rank x2 y G2 Gy Py (or_introl T2)) as [Q2 R2].
  split; [|split; assumption].
  rewrite (float_leb_rank _ _ Q1 Q2), R1, R2. apply Z.leb_le.
  pose proof (rank_range x1). pose proof (rank_range y).
  apply div_rank_mono_l0; lia.
Qed.

(** The last line of the engine: a quotient by a positive stress, or [inf];
    never a NaN and never negative, whatever the stress is. *)
Lemma fos_good (sigma_y stress : float) :
  (0 <? sigma_y) = true -> is_finite sigma_y = true ->
  good (if 0 <? stress then sigma_y / stress else PyFloat.inf) = true.
Proof.
  intros Hy Fy. destruct (0 <? stress) eqn:Hs; [|reflexivity].
  destruct (positive_rank sigma_y Hy) as [Gy _].
  destruct (positive_rank stress Hs) as [Gs Ps].
  apply (float_div_rank sigma_y stress Gy Gs Ps).
  left. now apply finite_rank.
Qed.

(** A larger stress never gives a larger factor of safety. *)
Lemma fos_antitone (sigma_y s1 s2 : float) :
  (0 <? sigma_y) = true -> is_finite sigma_y = true ->
  good s1 = true -> (s1 <=? s2) = true ->
  ((if 0 <? s2 then sigma_y / s2 else PyFloat.inf)
   <=? (if 0 <? s1 then sigma_y / s1 else PyFloat.inf)) = true.
Proof.
  intros Hy Fy G1 H12.
  pose proof (fos_good sigma_y s2 Hy Fy) as K2.
  destruct (0 <? s1) eqn:P1.
  - rewrite (float_ltb_leb_trans 0 s1 s2 good_zero P1 H12).
    now apply float_div_mono_r.
  - now apply float_leb_infinity.
Qed.
End Engine.

(** * Properties of the code beyond the claims *)

Section EngineProperties.
Local Open Scope float_scope.

(** ** The engine outside the claims *)

(** X1.  Whatever the five numbers are (negative, infinite, NaN), with a material
    of the table the factor of safety the engine returns is never a NaN and
    never negative. *)
Theorem fos_never_nan_nor_negative
    (od wall angle straight D : float) (name : pystr)
    (p : app.material_props) :
  app.getitem app.MATERIALS name = Ok p ->
  exists r,
    app.compute_bend_parameters od wall angle straight D name = Ok r
    /\ is_nan (app.fos r) = false
    /\ (0 <=? app.fos r) = true.
Proof.
  intros Hp. rewrite compute_bend_parameters_unfold, Hp.
  eexists. split; [reflexivity|]. cbn [results_of app.fos].
  destruct (materials_yield_positive name p Hp) as [Hy Fy].
  pose proof (fos_good (app.yield p)
                (app.E p * (wall / 2 / PyFloat.max (D * od) app.epsilon) / 1000)
                Hy Fy) as G.
  split; [now apply good_not_nan | now rewrite good_leb0].
Qed.

Lemma fos_never_nan_nor_negative_witness :
  exists r,
    app.compute_bend_parameters 10 (-1) nan 500 infinity (lit "Copper") = Ok r
    /\ is_nan (app.fos r) = false
    /\ (0 <=? app.fos r) = true.
Proof.
  apply (fos_never_nan_nor_negative 10 (-1) nan 500 infinity (lit "Copper")
           (app.mk_props 110000 200)).
  reflexivity.
Defined.

(** X2.  A negative wall thickness is not rejected: the wall factor is the one of
    a zero wall, od / 1e-6, the stress is not positive, and the factor of
    safety is reported as [inf]. *)
Theorem negative_wall_infinite_safety
    (od wall angle straight D : float) (name : pystr)
    (p : app.material_props) :
  app.getitem app.MATERIALS name = Ok p ->
  (wall <? 0) = true ->
  exists r,
    app.compute_bend_parameters od wall angle straight D name = Ok r
    /\ app.wf r = od / app.epsilon
    /\ (0 <? app.stress r) = false
    /\ app.fos r = infinity.
Proof.
  intros Hp Hw. rewrite compute_bend_parameters_unfold, Hp.
  eexists. split; [reflexivity|]. cbn [results_of app.wf app.stress app.fos].
  assert (M : PyFloat.max wall app.epsilon = app.epsilon).
  { unfold PyFloat.max. now rewrite (negative_below_epsilon wall Hw). }
  rewrite M. split; [reflexivity|].
  destruct (materials_finite_positive name p Hp) as [PE _].
  assert (S : (0 <? app.E p * (wall / 2 / PyFloat.max (D * od) app.epsilon)
                    / 1000) = false).
  { apply sign_set_not_positive.
    apply float_div_sign; [|reflexivity].
    apply float_mul_sign; [now apply positive_sign_clear|].
    apply float_div_sign; [|apply max_epsilon_sign].
    apply float_div_sign; [now apply negative_sign_set | reflexivity]. }
  rewrite S. split; reflexivity.
Qed.

Lemma negative_wall_infinite_safety_witness :
  exists r,
    app.compute_bend_parameters 10 (-1) 90 500 3 (lit "Copper") = Ok r
    /\ app.wf r = 10 / app.epsilon
    /\ (0 <? app.stress r) = false
    /\ app.fos r = infinity.
Proof.
  apply (negative_wall_infinite_safety 10 (-1) 90 500 3 (lit "Copper")
           (app.mk_props 110000 200)); reflexivity.
Defined.

(** X3.  The clamp does not catch a NaN: [max(nan, 1e-6)] is the NaN, so a NaN
    wall gives a NaN wall factor and a NaN stress, and, since a NaN is not
    [> 0], a factor of safety of [inf]. *)
Theorem nan_wall_passes_the_clamp
    (od wall angle straight D : float) (name : pystr)
    (p : app.material_props) :
  app.getitem app.MATERIALS name = Ok p ->
  is_nan wall = true ->
  exists r,
    app.compute_bend_parameters od wall angle straight D name = Ok r
    /\ is_nan (app.wf r) = true
    /\ is_nan (app.stress r) = true
    /\ app.fos r = infinity.
Proof.
  intros Hp Hw. rewrite compute_bend_parameters_unfold, Hp.
  eexists. split; [reflexivity|]. cbn [results_of app.wf app.stress app.fos].
  assert (M : PyFloat.max wall app.epsilon = wall).
  { unfold PyFloat.max. now rewrite (nan_not_below wall app.epsilon Hw). }
  rewrite M.
  assert (S : is_nan (app.E p * (wall / 2 / PyFloat.max (D * od) app.epsilon)
                      / 1000) = true).
  { apply div_nan_l, mul_nan_r, div_nan_l, div_nan_l, Hw. }
  split; [now apply div_nan_r|]. split; [exact S|].
  now rewrite (nan_not_above _ 0 S).
Qed.

Lemma nan_wall_passes_the_clamp_witness :
  exists r,
    app.compute_bend_parameters 10 nan 90 500 3 (lit "Copper") = Ok r
    /\ is_nan (app.wf r) = true
    /\ is_nan (app.stress r) = true
    /\ app.fos r = infinity.
Proof.
  apply (nan_wall_passes_the_clamp 10 nan 90 500 3 (lit "Copper")
           (app.mk_props 110000 200)); reflexivity.
Defined.

(** X4.  A gentler bend: with the tube and the material fixed (a finite positive
    diameter, a finite wall that is not negative), a larger D of bend never
    gives a smaller centre-line radius, never a larger stress and never a
    smaller factor of safety. *)
Theorem gentler_bend_is_safer
    (od wall angle straight D1 D2 : float) (name : pystr)
    (p : app.material_props) :
  app.getitem app.MATERIALS name = Ok p ->
  (0 <? od) = true -> is_finite od = true ->
  (0 <=? wall) = true -> is_finite wall = true ->
  (0 <? D1) = true -> (D1 <=? D2) = true ->
  exists r1 r2,
    app.compute_bend_parameters od wall angle straight D1 name = Ok r1
    /\ app.compute_bend_parameters od wall angle straight D2 name = Ok r2
    /\ (app.clr r1 <=? app.clr r2) = true
    /\ (app.stress r2 <=? app.stress r1) = true
    /\ (app.fos r1 <=? app.fos r2) = true.
Proof.
  intros Hp Hod Fod Hw Fw HD1 HD.
  rewrite !compute_bend_parameters_unfold, Hp.
  eexists. eexists. split; [reflexivity|]. split; [reflexivity|].
  cbn [results_of app.clr app.stress app.fos].
  rewrite good_leb0 in Hw.
  destruct (positive_rank D1 HD1) as [GD1 _].
  rewrite (float_mul_comm D1 od), (float_mul_comm D2 od).
  destruct (float_mul_mono_r od D1 D2 Hod Fod GD1 HD) as [Hc Gc1].
  split; [exact Hc|].
  pose proof (max_epsilon_mono _ _ Gc1 Hc) as HM.
  destruct (max_epsilon_rank _ Gc1) as (_ & _ & PM1).
  destruct (half_finite wall Hw Fw) as [Gh Fh].
  destruct (float_div_mono_r0 (wall / 2) _ _ Gh Fh PM1 HM) as (Hq & Gq2 & _).
  destruct (materials_finite_positive name p Hp) as [PE FE].
  destruct (materials_yield_positive name p Hp) as [PY FY].
  destruct (float_mul_mono_r (app.E p) _ _ PE FE Gq2 Hq) as [He Ge2].
  destruct (float_div_mono_l _ _ 1000 Ge2 He eq_refl eq_refl) as [Hs Gs2].
  split; [exact Hs|].
  now apply fos_antitone.
Qed.

Lemma gentler_bend_is_safer_witness :
  exists r1 r2,
    app.compute_bend_parameters 10 1 90 500 2 (lit "Copper") = Ok r1
    /\ app.compute_bend_parameters 10 1 90 500 5 (lit "Copper") = Ok r2
    /\ (app.clr r1 <=? app.clr r2) = true
    /\ (app.stress r2 <=? app.stress r1) = true
    /\ (app.fos r1 <=? app.fos r2) = true.
Proof.
  apply (gentler_bend_is_safer 10 1 90 500 2 5 (lit "Copper")
           (app.mk_props 110000 200)); reflexivity.
Defined.

(** X5.  A thicker wall: with the other inputs fixed (finite positive diameter,
    positive D), going from a wall [w1 >= 0] to a finite wall [w2 >= w1]
    never lowers the stress and never raises the factor of safety, whether
    or not a clamp is active. *)
Theorem thicker_wall_lowers_safety
    (od w1 w2 angle straight D : float) (name : pystr)
    (p : app.material_props) :
  app.getitem app.MATERIALS name = Ok p ->
  (0 <? od) = true -> is_finite od = true -> (0 <? D) = true ->
  (0 <=? w1) = true -> (w1 <=? w2) = true -> is_finite w2 = true ->
  exists r1 r2,
    app.compute_bend_parameters od w1 angle straight D name = Ok r1
    /\ app.compute_bend_parameters od w2 angle straight D name = Ok r2
    /\ (app.stress r1 <=? app.stress r2) = true
    /\ (app.fos r2 <=? app.fos r1) = true.
Proof.
  intros Hp Hod Fod HD Hw1 Hw Fw2.
  rewrite !compute_bend_parameters_unfold, Hp.
  eexists. eexists. split; [reflexivity|]. split; [reflexivity|].
  cbn [results_of app.stress app.fos].
  rewrite good_leb0 in Hw1.
  destruct (positive_rank D HD) as [GD _].
  assert (Gc : good (D * od) = true).
  { rewrite float_mul_comm.
    apply (float_mul_mono_r od D D Hod Fod GD (float_leb_refl D GD)). }
  destruct (max_epsilon_rank _ Gc) as (_ & _ & PM).
  pose proof (leb_good _ _ Hw1 Hw) as Gw2.
  destruct (half_finite w2 Gw2 Fw2) as [_ Fh2].
  destruct (float_div_mono_l w1 w2 2 Hw1 Hw eq_refl eq_refl) as [Hh Gh1].
  destruct (float_div_mono_l0 _ _ _ Gh1 Hh Fh2 PM) as (Hq & Gq1 & _).
  destruct (materials_finite_positive name p Hp) as [PE FE].
  destruct (materials_yield_positive name p Hp) as [PY FY].
  destruct (float_mul_mono_r (app.E p) _ _ PE FE Gq1 Hq) as [He Ge1].
  destruct (float_div_mono_l _ _ 1000 Ge1 He eq_refl eq_refl) as [Hs Gs1].
  split; [exact Hs|].
  now apply fos_antitone.
Qed.

Lemma thicker_wall_lowers_safety_witness :
  exists r1 r2,
    app.compute_bend_parameters 10 0 90 500 3 (lit "Aluminium") = Ok r1
    /\ app.compute_bend_parameters 10 2 90 500 3 (lit "Aluminium") = Ok r2
    /\ (app.stress r1 <=? app.stress r2) = true
    /\ (app.fos r2 <=? app.fos r1) = true.
Proof.
  apply (thicker_wall_lowers_safety 10 0 2 90 500 3 (lit "Aluminium")
           (app.mk_props 70000 120)); reflexivity.
Defined.

(** X6.  The same tube and bend in the three materials: the stress follows the
    modulus, Aluminium's is at most Copper's, which is at most Carbon
    Steel's. *)
Theorem stress_follows_modulus (od wall angle straight D : float) :
  (0 <? od) = true -> is_finite od = true -> (0 <? D) = true ->
  (0 <=? wall) = true -> is_finite wall = true ->
  exists ra rc rs,
    app.compute_bend_parameters od wall angle straight D (lit "Aluminium")
    = Ok ra
    /\ app.compute_bend_parameters od wall angle straight D (lit "Copper")
       = Ok rc
    /\ app.compute_bend_parameters od wall angle straight D
         (lit "Carbon Steel") = Ok rs
    /\ (app.stress ra <=? app.stress rc) = true
    /\ (app.stress rc <=? app.stress rs) = true.
Proof.
  intros Hod Fod HD Hw Fw.
  rewrite !compute_bend_parameters_unfold.
  change (app.getitem app.MATERIALS (lit "Aluminium"))
    with (Ok (app.mk_props 70000 120)).
  change (app.getitem app.MATERIALS (lit "Copper"))
    with (Ok (app.mk_props 110000 200)).
  change (app.getitem app.MATERIALS (lit "Carbon Steel"))
    with (Ok (app.mk_props 210000 250)).
  eexists. eexists. eexists.
  split; [reflexivity|]. split; [reflexivity|]. split; [reflexivity|].
  cbn [results_of app.stress app.E].
  rewrite good_leb0 in Hw.
  destruct (positive_rank D HD) as [GD _].
  assert (Gc : good (D * od) = true).
  { rewrite float_mul_comm.
    apply (float_mul_mono_r od D D Hod Fod GD (float_leb_refl D GD)). }
  destruct (max_epsilon_rank _ Gc) as (GM & _ & PM).
  destruct (half_finite wall Hw Fw) as [Gh Fh].
  destruct (positive_rank _ PM) as [_ RM].
  destruct (float_div_rank (wall / 2) _ Gh GM RM
              (or_introl (finite_rank _ Fh))) as [Gq _].
  set (q := wall / 2 / PyFloat.max (D * od) app.epsilon) in *.
  destruct (float_mul_mono_l 70000 110000 q eq_refl eq_refl eq_refl Gq)
    as (H1 & G1 & _).
  destruct (float_mul_mono_l 110000 210000 q eq_refl eq_refl eq_refl Gq)
    as (H2 & G2 & _).
  split.
  - apply (float_div_mono_l _ _ 1000 G1 H1 eq_refl eq_refl).
  - apply (float_div_mono_l _ _ 1000 G2 H2 eq_refl eq_refl).
Qed.

Lemma stress_follows_modulus_witness :
  exists ra rc rs,
    app.compute_bend_parameters 10 1 90 500 3 (lit "Aluminium") = Ok ra
    /\ app.compute_bend_parameters 10 1 90 500 3 (lit "Copper") = Ok rc
    /\ app.compute_bend_parameters 10 1 90 500 3 (lit "Carbon Steel") = Ok rs
    /\ (app.stress ra <=? app.stress rc) = true
    /\ (app.stress rc <=? app.stress rs) = true.
Proof.
  apply (stress_follows_modulus 10 1 90 500 3); reflexivity.
Defined.

(** X7.  Lengths: for a finite positive centre-line radius, a straight length
    that is not negative and angles [0 <= a1 <= a2], the arc length is not
    negative, the total length is never less than the straight length, and
    a larger angle never gives a shorter arc or a shorter tube. *)
Theorem lengths_grow_with_angle
    (od wall a1 a2 straight D : float) (name : pystr)
    (p : app.material_props) :
  app.getitem app.MATERIALS name = Ok p ->
  (0 <? D * od) = true -> is_finite (D * od) = true ->
  (0 <=? straight) = true ->
  (0 <=? a1) = true -> (a1 <=? a2) = true ->
  exists r1 r2,
    app.compute_bend_parameters od wall a1 straight D name = Ok r1
    /\ app.compute_bend_parameters od wall a2 straight D name = Ok r2
    /\ (0 <=? app.arc_len r1) = true
    /\ (straight <=? app.total_len r1) = true
    /\ (app.arc_len r1 <=? app.arc_len r2) = true
    /\ (app.total_len r1 <=? app.total_len r2) = true.
Proof.
  intros Hp Hc Fc Hs Ha1 Ha.
  rewrite !compute_bend_parameters_unfold, Hp.
  eexists. eexists. split; [reflexivity|]. split; [reflexivity|].
  cbn [results_of app.arc_len app.total_len].
  rewrite good_leb0 in Hs, Ha1. unfold PyFloat.radians.
  rewrite (float_mul_comm a1), (float_mul_comm a2).
  destruct (float_mul_mono_r PyFloat.degToRad a1 a2 eq_refl eq_refl Ha1 Ha)
    as [Ht Gt1].
  destruct (float_mul_mono_r (D * od) _ _ Hc Fc Gt1 Ht) as [Harc Garc1].
  split; [now rewrite good_leb0|].
  split; [now apply float_add_ge|].
  split; [exact Harc|].
  now apply float_add_mono_r.
Qed.

Lemma lengths_grow_with_angle_witness :
  exists r1 r2,
    app.compute_bend_parameters 10 1 0 500 3 (lit "Copper") = Ok r1
    /\ app.compute_bend_parameters 10 1 90 500 3 (lit "Copper") = Ok r2
    /\ (0 <=? app.arc_len r1) = true
    /\ (500 <=? app.total_len r1) = true
    /\ (app.arc_len r1 <=? app.arc_len r2) = true
    /\ (app.total_len r1 <=? app.total_len r2) = true.
Proof.
  apply (lengths_grow_with_angle 10 1 0 90 500 3 (lit "Copper")
           (app.mk_props 110000 200)); reflexivity.
Defined.
End EngineProperties.

Section MoreEngine.
Local Open Scope float_scope.

(** X8.  A larger tube with the same wall: for finite positive diameters
    [od1 <= od2], a wall that is not negative and a finite positive D, the
    centre-line radius, the wall factor and the minimum bend radius of the
    larger tube are never smaller. *)
Theorem larger_tube_larger_radii
    (od1 od2 wall angle straight D : float) (name : pystr)
    (p : app.material_props) :
  app.getitem app.MATERIALS name = Ok p ->
  (0 <? od1) = true -> (od1 <=? od2) = true -> is_finite od2 = true ->
  (0 <=? wall) = true ->
  (0 <? D) = true -> is_finite D = true ->
  exists r1 r2,
    app.compute_bend_parameters od1 wall angle straight D name = Ok r1
    /\ app.compute_bend_parameters od2 wall angle straight D name = Ok r2
    /\ (app.clr r1 <=? app.clr r2) = true
    /\ (app.wf r1 <=? app.wf r2) = true
    /\ (app.mbr r1 <=? app.mbr r2) = true.
Proof.
  intros Hp H1 H12 F2 Hw HD FD.
  rewrite !compute_bend_parameters_unfold, Hp.
  eexists. eexists. split; [reflexivity|]. split; [reflexivity|].
  cbn [results_of app.clr app.wf app.mbr].
  rewrite good_leb0 in Hw.
  destruct (positive_rank od1 H1) as [G1 _].
  pose proof (float_ltb_leb_trans 0 od1 od2 good_zero H1 H12) as H2.
  assert (F1 : is_finite od1 = true).
  { apply good_finite; [exact G1|].
    pose proof (leb_good _ _ G1 H12) as G2. pose proof (finite_rank od2 F2).
    rewrite (float_leb_rank _ _ G1 G2) in H12. apply Z.leb_le in H12. lia. }
  destruct (max_epsilon_rank wall Hw) as (_ & _ & PM).
  split; [apply (float_mul_mono_r D od1 od2 HD FD G1 H12)|].
  destruct (float_div_mono_l0 od1 od2 _ G1 H12 F2 PM) as (Hwf & Gwf1 & Gwf2).
  split; [exact Hwf|].
  set (wf1 := od1 / PyFloat.max wall app.epsilon) in *.
  set (wf2 := od2 / PyFloat.max wall app.epsilon) in *.
  rewrite (float_mul_comm wf1), (float_mul_comm wf2).
  destruct (float_mul_mono_r od1 wf1 wf2 H1 F1 Gwf1 Hwf) as [A GA].
  destruct (float_mul_mono_l od1 od2 wf2 H1 H12 F2 Gwf2) as (B & _ & _).
  exact (float_leb_trans _ _ _ GA A B).
Qed.

Lemma larger_tube_larger_radii_witness :
  exists r1 r2,
    app.compute_bend_parameters 10 1 90 500 3 (lit "Copper") = Ok r1
    /\ app.compute_bend_parameters 12 1 90 500 3 (lit "Copper") = Ok r2
    /\ (app.clr r1 <=? app.clr r2) = true
    /\ (app.wf r1 <=? app.wf r2) = true
    /\ (app.mbr r1 <=? app.mbr r2) = true.
Proof.
  apply (larger_tube_larger_radii 10 12 1 90 500 3 (lit "Copper")
           (app.mk_props 110000 200)); reflexivity.
Defined.

(** ** bending_calc.py and the engine *)

(** X9.  The two helpers of [bending_calc.py] chained, with the default
    [material_factor] of 2.0, give the centre-line radius and the total
    length the engine gives for D = 2.0. *)
Theorem bending_calc_is_the_engine_at_D_2
    (od wall angle straight : float) (name : pystr) (p : app.material_props) :
  app.getitem app.MATERIALS name = Ok p ->
  exists r,
    app.compute_bend_parameters od wall angle straight 2 name = Ok r
    /\ bending_calc.calculate_bend_radius od angle default_material_factor
       = app.clr r
    /\ bending_calc.calculate_tube_length straight angle
         (bending_calc.calculate_bend_radius od angle default_material_factor)
       = app.total_len r.
Proof.
  intros Hp. rewrite compute_bend_parameters_unfold, Hp.
  eexists. split; [reflexivity|].
  cbn [results_of app.clr app.total_len].
  unfold bending_calc.calculate_tube_length,
    bending_calc.calculate_bend_radius, default_material_factor.
  rewrite (float_mul_comm od 2). split; [reflexivity|].
  now rewrite (float_mul_comm (PyFloat.radians angle)).
Qed.

Lemma bending_calc_is_the_engine_at_D_2_witness :
  exists r,
    app.compute_bend_parameters 10 1 90 500 2 (lit "Copper") = Ok r
    /\ bending_calc.calculate_bend_radius 10 90 default_material_factor
       = app.clr r
    /\ bending_calc.calculate_tube_length 500 90
         (bending_calc.calculate_bend_radius 10 90 default_material_factor)
       = app.total_len r.
Proof.
  apply (bending_calc_is_the_engine_at_D_2 10 1 90 500 (lit "Copper")
           (app.mk_props 110000 200)).
  reflexivity.
Defined.
End MoreEngine.

Section Formatting.
Local Open Scope Z_scope.

(** ** [:.2f] rounds to the nearest hundredth *)

Lemma div_half_even_near (n d : Z) :
  0 <= n -> 0 < d ->
  0 <= PyFormat.div_half_even n d
  /\ 2 * Z.abs (PyFormat.div_half_even n d * d - n) <= d.
Proof.
  intros Hn Hd. unfold PyFormat.div_half_even.
  pose proof (Z.div_mod n d ltac:(lia)) as E.
  pose proof (Z.mod_pos_bound n d Hd) as B.
  pose proof (Z.div_pos n d Hn Hd) as Q.
  set (q := n / d) in *. set (r := n mod d) in *.
  assert (A : q * d - n = - r) by lia.
  assert (A' : (q + 1) * d - n = d - r) by lia.
  destruct (Z.compare_spec (2 * r) d) as [C | C | C];
    [destruct (Z.even q)| |]; rewrite ?A, ?A'; split; lia.
Qed.

Lemma decimal_one_digit (n : Z) :
  0 <= n < 10 -> PyFormat.decimal n = [Z.to_N (48 + n)].
Proof.
  intros H. rewrite <- (Z2Nat.id n) by lia.
  assert (Z.to_nat n < 10)%nat as Hk by lia.
  revert Hk. generalize (Z.to_nat n) as k. intros k Hk.
  do 10 (destruct k as [|k]; [reflexivity|]). lia.
Qed.

(** X10.  For a finite float [x = (-1)^s * m * 2^e] that is not zero, [:.2f]
    prints the sign, then the digits of a whole number [h] of hundredths,
    and [h] is a nearest one: it is within half a hundredth of [|x|]. *)
Theorem two_decimals_are_the_nearest_hundredth
    (x : float) (s : bool) (m : positive) (e : Z) :
  Prim2SF x = S754_finite s m e ->
  exists h : Z,
    0 <= h
    /\ PyFormat.format_2f x
       = PyFormat.sign_prefix s ++ PyFormat.decimal (h / 100) ++ lit "."
         ++ [Z.to_N (48 + h mod 100 / 10); Z.to_N (48 + h mod 10)]
    /\ (- (1 # 2) <= inject_Z h - 100 * (inject_Z (Z.pos m) * bpow e)
        <= 1 # 2)%Q.
Proof.
  intros Hx. exists (PyFormat.hundredths m e).
  assert (Hh : 0 <= PyFormat.hundredths m e
               /\ (- (1 # 2)
                   <= inject_Z (PyFormat.hundredths m e)
                      - 100 * (inject_Z (Z.pos m) * bpow e)
                   <= 1 # 2)%Q).
  { unfold PyFormat.hundredths. destruct e as [|pe|pe].
    - split; [lia|]. rewrite bpow_0.
      setoid_replace (inject_Z (Z.pos m * 100 * 2 ^ 0)
                      - 100 * (inject_Z (Z.pos m) * 1))%Q with 0%Q.
      + split; discriminate.
      + rewrite Z.pow_0_r, !inject_Z_mult. change (inject_Z 100) with 100%Q.
        change (inject_Z 1) with 1%Q. ring.
    - split; [apply Z.mul_nonneg_nonneg; [lia | apply Z.pow_nonneg; lia]|].
      setoid_replace (inject_Z (Z.pos m * 100 * 2 ^ Z.pos pe)
                      - 100 * (inject_Z (Z.pos m) * bpow (Z.pos pe)))%Q
        with 0%Q.
      + split; discriminate.
      + rewrite inject_Z_pow2 by lia. rewrite inject_Z_mult.
        change (inject_Z 100) with 100%Q. ring.
    - set (d := 2 ^ Z.pos pe).
      assert (Hd : 0 < d) by (apply Z.pow_pos_nonneg; lia).
      destruct (div_half_even_near (Z.pos m * 100) d ltac:(lia) Hd) as [H0 H1].
      split; [exact H0|].
      set (h := PyFormat.div_half_even (Z.pos m * 100) d) in *.
      assert (Eb : (bpow (Z.neg pe) * inject_Z d == 1)%Q).
      { unfold d. rewrite <- bpow_Z by lia. rewrite <- bpow_add.
        change (Z.neg pe + Z.pos pe) with (- Z.pos pe + Z.pos pe).
        rewrite Z.add_opp_diag_l. apply bpow_0. }
      assert (Pd : (0 < inject_Z d)%Q) by now apply inject_Z_pos.
      pose proof (bpow_pos (Z.neg pe)) as Pb.
      assert (K : (inject_Z h - 100 * (inject_Z (Z.pos m) * bpow (Z.neg pe))
                   == inject_Z (h * d - Z.pos m * 100) * bpow (Z.neg pe))%Q).
      { unfold Zminus. rewrite inject_Z_plus, inject_Z_opp, !inject_Z_mult.
        change (inject_Z 100) with 100%Q.
        transitivity (inject_Z h * (bpow (Z.neg pe) * inject_Z d)
                      - 100 * (inject_Z (Z.pos m) * bpow (Z.neg pe)))%Q.
        - rewrite Eb. ring.
        - ring. }
      rewrite K.
      assert (L1 : (- inject_Z d <= 2 * inject_Z (h * d - Z.pos m * 100))%Q).
      { change 2%Q with (inject_Z 2). rewrite <- inject_Z_mult, <- inject_Z_opp.
        rewrite <- Zle_Qle. lia. }
      assert (L2 : (2 * inject_Z (h * d - Z.pos m * 100) <= inject_Z d)%Q).
      { change 2%Q with (inject_Z 2). rewrite <- inject_Z_mult.
        rewrite <- Zle_Qle. lia. }
      set (t := inject_Z (h * d - Z.pos m * 100)) in *.
      set (b := bpow (Z.neg pe)) in *. set (D := inject_Z d) in *.
      split; nra. }
  destruct Hh as [H0 HQ]. split; [exact H0|]. split; [|exact HQ].
  unfold PyFormat.format_2f. rewrite Hx. unfold PyFormat.fixed2.
  set (h := PyFormat.hundredths m e) in *.
  pose proof (Z.mod_pos_bound h 100 ltac:(lia)).
  rewrite (decimal_one_digit (h mod 100 / 10))
    by (split; [apply Z.div_pos; lia | apply Z.div_lt_upper_bound; lia]).
  rewrite (decimal_one_digit (h mod 10)) by (apply Z.mod_pos_bound; lia).
  reflexivity.
Qed.

Lemma two_decimals_are_the_nearest_hundredth_witness :
  exists h : Z,
    0 <= h
    /\ PyFormat.format_2f 0x1.78fdf3b645a1dp+5
       = PyFormat.sign_prefix false ++ PyFormat.decimal (h / 100) ++ lit "."
         ++ [Z.to_N (48 + h mod 100 / 10); Z.to_N (48 + h mod 10)]
    /\ (- (1 # 2)
        <= inject_Z h - 100 * (inject_Z (Z.pos 6632113401256477) * bpow (-47))
        <= 1 # 2)%Q.
Proof.
  apply (two_decimals_are_the_nearest_hundredth 0x1.78fdf3b645a1dp+5 false
           6632113401256477 (-47)).
  reflexivity.
Defined.
End Formatting.

Section PageProperties.
Local Open Scope float_scope.

(** ** The page: what the widgets can deliver *)

Lemma good_both (x : float) :
  good x = true -> is_nan x = false /\ (0 <=? x) = true.
Proof. intros G. split; [now apply good_not_nan | now rewrite good_leb0]. Qed.

Lemma d_of_bend_options_range (D : float) :
  page.select_offers page.d_of_bend_select D ->
  (2 <=? D) = true /\ is_finite D = true.
Proof.
  unfold page.select_offers. cbn [page.options page.d_of_bend_select In].
  intros [<- | [<- | [<- | [<- | [<- | []]]]]]; split; reflexivity.
Qed.

Lemma material_options_found (name : pystr) :
  page.select_offers page.material_select name ->
  exists p, app.getitem app.MATERIALS name = Ok p.
Proof.
  unfold page.select_offers.
  cbn [page.options page.material_select app.MATERIALS map fst In].
  intros [<- | [<- | [<- | []]]]; eexists; reflexivity.
Qed.

Lemma number_offers_min (w : page.number_input) (x : float) :
  page.number_offers w x = true ->
  is_finite x = true /\ (page.min_value w <=? x) = true.
Proof.
  unfold page.number_offers. intros H.
  apply andb_prop in H. destruct H as [H _].
  apply andb_prop in H. exact H.
Qed.

(** X11.  On every input the widgets of the page can deliver, the engine does not
    raise and neither clamp is active: the wall factor is od / wall itself,
    the stress is computed with the centre-line radius D * od itself, which
    is at least 2; none of the seven results is a NaN or negative; and the
    only exception the script can end in is one of the PDF library. *)
Theorem page_inputs_are_safe
    (FPDF_output : list report.fpdf_call -> result pystr)
    (material : pystr) (od wall angle straight D : float) :
  page.select_offers page.material_select material ->
  page.number_offers page.od_input od = true ->
  page.number_offers page.wall_input wall = true ->
  page.number_offers page.angle_input angle = true ->
  page.number_offers page.straight_input straight = true ->
  page.select_offers page.d_of_bend_select D ->
  exists p r,
    app.getitem app.MATERIALS material = Ok p
    /\ app.compute_bend_parameters od wall angle straight D material = Ok r
    /\ app.wf r = od / wall
    /\ app.stress r = app.E p * (wall / 2 / (D * od)) / 1000
    /\ (2 <=? app.clr r) = true
    /\ Forall (fun x => is_nan x = false /\ (0 <=? x) = true)
         [app.wf r; app.clr r; app.mbr r; app.arc_len r; app.total_len r;
          app.stress r; app.fos r]
    /\ page.run FPDF_output material od wall angle straight D
       = match FPDF_output
                 (report.report_calls
                    (report.mk_inputs material od wall angle straight D) r)
         with
         | Ok s => Ok (r, report.encode_latin1_replace s)
         | Raise e => Raise e
         end.
Proof.
  intros Hm Hod Hwall Hangle Hstraight HD.
  destruct (material_options_found material Hm) as [p Hp].
  destruct (number_offers_min _ _ Hod) as [Fod Lod].
  destruct (number_offers_min _ _ Hwall) as [Fw Lw].
  destruct (number_offers_min _ _ Hstraight) as [Fs Ls].
  destruct (number_offers_min _ _ Hangle) as [Fa La].
  assert (Ua : (angle <=? 180) = true).
  { unfold page.number_offers in Hangle.
    apply andb_prop in Hangle. apply Hangle. }
  cbn [page.min_value page.od_input page.wall_input page.straight_input
       page.angle_input] in Lod, Lw, Ls, La.
  destruct (d_of_bend_options_range D HD) as [LD FD].
  exists p, (results_of p od wall angle straight D).
  split; [exact Hp|].
  assert (Hrun : app.compute_bend_parameters od wall angle straight D material
                 = Ok (results_of p od wall angle straight D))
    by now rewrite compute_bend_parameters_unfold, Hp.
  split; [exact Hrun|].
  assert (Hpage :
            page.run FPDF_output material od wall angle straight D
            = match FPDF_output
                      (report.report_calls
                         (report.mk_inputs material od wall angle straight D)
                         (results_of p od wall angle straight D))
              with
              | Ok s => Ok (results_of p od wall angle straight D,
                            report.encode_latin1_replace s)
              | Raise e => Raise e
              end).
  { unfold page.run. rewrite Hrun. cbn [bind].
    unfold report.generate_pdf_report.
    now destruct (FPDF_output _). }
  (* the diameter and the wall *)
  pose proof (leb_good 1 od eq_refl Lod) as God.
  pose proof (float_ltb_leb_trans 0 1 od eq_refl eq_refl Lod) as Pod.
  pose proof (float_ltb_leb_trans app.epsilon page.tenth wall
                epsilon_good eq_refl Lw) as Ew.
  destruct (above_epsilon wall Ew) as (Mw & Pw & Gw).
  (* the centre-line radius *)
  assert (L2 : (2 <=? D * od) = true).
  { rewrite float_mul_comm.
    destruct (float_mul_mono_r 2 1 od eq_refl eq_refl eq_refl Lod) as [A _].
    change (2 * 1) with 2 in A. rewrite float_mul_comm in A.
    destruct (float_mul_mono_r od 2 D Pod Fod eq_refl LD) as [B _].
    exact (float_leb_trans 2 (od * 2) (od * D) eq_refl A B). }
  pose proof (float_ltb_leb_trans app.epsilon 2 (D * od)
                epsilon_good eq_refl L2) as Ec.
  destruct (above_epsilon (D * od) Ec) as (Mc & Pc & Gc).
  split; [cbn [results_of app.wf]; now rewrite Mw|].
  split; [cbn [results_of app.stress]; now rewrite Mc|].
  split; [exact L2|].
  split; [|exact Hpage].
  cbn [results_of app.wf app.clr app.mbr app.arc_len app.total_len
       app.stress app.fos].
  rewrite Mw, Mc.
  (* the wall factor and the bend radius *)
  destruct (positive_rank wall Pw) as [_ Rw].
  destruct (positive_rank od Pod) as [_ Rod].
  pose proof (finite_rank od Fod) as Tod.
  destruct (float_div_rank od wall God Gw Rw (or_introl Tod)) as [Gwf _].
  assert (Gmbr : good (od / wall * od) = true).
  { rewrite float_mul_comm.
    apply (float_mul_rank od (od / wall) God Gwf (conj Rod Tod)). }
  (* the angle in radians, the arc and the total length *)
  pose proof (leb_good 1 angle eq_refl La) as Ga.
  assert (Gs : good straight = true) by exact (leb_good 1 straight eq_refl Ls).
  unfold PyFloat.radians. rewrite (float_mul_comm angle).
  destruct (float_mul_mono_r PyFloat.degToRad 1 angle eq_refl eq_refl
              eq_refl La) as [T1 _].
  destruct (float_mul_mono_r PyFloat.degToRad angle 180 eq_refl eq_refl
              Ga Ua) as [T2 Gt].
  set (theta := PyFloat.degToRad * angle) in *.
  assert (Pt : (0 <? theta) = true)
    by exact (float_ltb_leb_trans 0 (PyFloat.degToRad * 1) theta
                eq_refl eq_refl T1).
  destruct (positive_rank theta Pt) as [_ Rt].
  assert (Tt : (rank theta < top)%Z).
  { pose proof (leb_good _ _ Gt T2) as G180.
    rewrite (float_leb_rank _ _ Gt G180) in T2. apply Z.leb_le in T2.
    assert (F : is_finite (PyFloat.degToRad * 180) = true) by reflexivity.
    apply finite_rank in F. lia. }
  assert (Garc : good (D * od * theta) = true).
  { rewrite float_mul_comm.
    apply (float_mul_rank theta (D * od) Gt Gc (conj Rt Tt)). }
  destruct (float_add_rank straight _ Gs Garc) as [Gtot _].
  (* the stress and the factor of safety *)
  destruct (half_finite wall Gw Fw) as [Gh Fh].
  destruct (positive_rank _ Pc) as [_ Rc].
  destruct (float_div_rank (wall / 2) (D * od) Gh Gc Rc
              (or_introl (finite_rank _ Fh))) as [Gq _].
  destruct (materials_finite_positive material p Hp) as [PE FE].
  destruct (materials_yield_positive material p Hp) as [PY FY].
  destruct (positive_rank _ PE) as [GE RE].
  destruct (float_mul_rank (app.E p) _ GE Gq (conj RE (finite_rank _ FE)))
    as [Gm _].
  destruct (float_div_rank _ 1000 Gm eq_refl eq_refl
              (or_intror (finite_rank 1000 eq_refl))) as [Gst _].
  pose proof (fos_good (app.yield p)
                (app.E p * (wall / 2 / (D * od)) / 1000) PY FY) as Gfos.
  repeat (apply Forall_cons; [apply good_both; assumption|]).
  apply Forall_nil.
Qed.
Lemma page_inputs_are_safe_witness :
  exists p r,
    app.getitem app.MATERIALS (lit "Copper") = Ok p
    /\ app.compute_bend_parameters 10 1 90 500 3 (lit "Copper") = Ok r
    /\ app.wf r = 10 / 1
    /\ app.stress r = app.E p * (1 / 2 / (3 * 10)) / 1000
    /\ (2 <=? app.clr r) = true
    /\ Forall (fun x => is_nan x = false /\ (0 <=? x) = true)
         [app.wf r; app.clr r; app.mbr r; app.arc_len r; app.total_len r;
          app.stress r; app.fos r]
    /\ page.run (fun _ => Ok []) (lit "Copper") 10 1 90 500 3
       = match (fun _ : list report.fpdf_call => @Ok pystr [])
                 (report.report_calls
                    (report.mk_inputs (lit "Copper") 10 1 90 500 3) r)
         with
         | Ok s => Ok (r, report.encode_latin1_replace s)
         | Raise e => Raise e
         end.
Proof.
  apply (page_inputs_are_safe (fun _ => Ok []) (lit "Copper") 10 1 90 500 3).
  - left. reflexivity.
  - reflexivity.
  - reflexivity.
  - reflexivity.
  - reflexivity.
  - right. right. left. reflexivity.
Defined.
End PageProperties.

Section Texts.
Local Open Scope float_scope.

(** ** What [:.2f] can print *)

Lemma ascii7_latin1 (s : pystr) :
  forallb ascii7 s = true -> forallb latin1 s = true.
Proof.
  rewrite !forallb_forall. intros H c Hc. specialize (H c Hc).
  unfold ascii7, latin1 in *. apply N.ltb_lt in H. apply N.leb_le. lia.
Qed.

Lemma uint_ascii (d : Decimal.uint) :
  forallb ascii7 (lit (NilEmpty.string_of_uint d)) = true.
Proof. induction d; cbn; auto. Qed.

Lemma decimal_ascii (n : Z) : forallb ascii7 (PyFormat.decimal n) = true.
Proof.
  unfold PyFormat.decimal, NilZero.string_of_uint.
  destruct (N.to_uint (Z.to_N n)) eqn:E; try apply uint_ascii. reflexivity.
Qed.

Lemma sign_prefix_ascii (s : bool) :
  forallb ascii7 (PyFormat.sign_prefix s) = true.
Proof. now destruct s. Qed.

(** [:.2f] prints ASCII only, for every float. *)
Lemma format_2f_ascii (x : float) :
  forallb ascii7 (PyFormat.format_2f x) = true.
Proof.
  unfold PyFormat.format_2f.
  destruct (Prim2SF x) as [s | s | | s m e]; unfold PyFormat.fixed2;
    rewrite ?forallb_app, ?sign_prefix_ascii, ?decimal_ascii; reflexivity.
Qed.

Lemma fmt_latin1 (x : float) : forallb latin1 (report.fmt x) = true.
Proof. apply ascii7_latin1, format_2f_ascii. Qed.

Lemma strict_ok (t : pystr) :
  forallb latin1 t = true -> report.encode_latin1_strict t = Ok t.
Proof.
  intros H. unfold report.encode_latin1_strict.
  change (forallb (fun c => (c <=? 255)%N) t) with (forallb latin1 t).
  now rewrite H.
Qed.

(** ** The report of [app.py] and the Latin-1 codec *)

(** X12.  In the report of [app.py], whatever the numbers are, every text put on
    the page is within Latin-1 as long as the material name is, except the
    formula block: that one text is what the strict codec refuses. *)
Theorem only_the_formula_block_leaves_latin1
    (i : report.bend_inputs) (r : app.bend_results) :
  forallb latin1 (report.material i) = true ->
  report.encode_latin1_strict report.formulas_text = Raise UnicodeEncodeError
  /\ forall t, In t (report.texts (report.report_calls i r)) ->
       t <> report.formulas_text ->
       report.encode_latin1_strict t = Ok t.
Proof.
  intros Hm. split; [vm_compute; reflexivity|].
  unfold report.report_calls, report.title_block, report.inputs_block,
    report.results_block, report.formulas_block.
  cbn [app report.texts report.call_text In].
  intros t Ht Hne.
  repeat (destruct Ht as [<- | Ht];
          [try (apply strict_ok;
                rewrite ?forallb_app, ?fmt_latin1, ?Hm; reflexivity)|]).
  - contradiction Hne. reflexivity.
  - destruct Ht.
Qed.

Lemma only_the_formula_block_leaves_latin1_witness :
  report.encode_latin1_strict report.formulas_text = Raise UnicodeEncodeError
  /\ forall t,
       In t (report.texts (report.report_calls example_inputs example_results)) ->
       t <> report.formulas_text ->
       report.encode_latin1_strict t = Ok t.
Proof.
  apply (only_the_formula_block_leaves_latin1 example_inputs example_results).
  reflexivity.
Defined.

(** X13.  The page and the report together: whenever the stress the engine
    returns is not positive (a wall of zero, a negative wall, a NaN), the
    report carries the line [Factor of Safety vs Yield (FoS)   : inf]. *)
Theorem report_prints_inf_without_positive_stress
    (od wall angle straight D : float) (name : pystr) (r : app.bend_results) :
  app.compute_bend_parameters od wall angle straight D name = Ok r ->
  (0 <? app.stress r) = false ->
  In (lit "Factor of Safety vs Yield (FoS)   : inf")
     (report.texts
        (report.report_calls
           (report.mk_inputs name od wall angle straight D) r)).
Proof.
  rewrite compute_bend_parameters_unfold.
  destruct (app.getitem app.MATERIALS name) as [p | e]; [|discriminate].
  intros H Hs. injection H as <-.
  cbn [results_of app.stress] in Hs.
  do 14 right. left.
  cbn [results_of app.fos]. rewrite Hs. reflexivity.
Qed.

Lemma report_prints_inf_without_positive_stress_witness :
  In (lit "Factor of Safety vs Yield (FoS)   : inf")
     (report.texts
        (report.report_calls
           (report.mk_inputs (lit "Copper") 10 0 90 500 3)
           (results_of (app.mk_props 110000 200) 10 0 90 500 3))).
Proof.
  apply (report_prints_inf_without_positive_stress 10 0 90 500 3
           (lit "Copper")); reflexivity.
Defined.
End Texts.

Section OtherReport.
Local Open Scope float_scope.

(** ** report.py *)


End OtherReport.

Section PdfReader.
Variables (error file page : Type).
Variable open_rb : pystr -> outcome error file.
Variable PdfReader_pages : file -> outcome error (list page).
Variable page_extract_text : page -> outcome error pystr.

Local Notation "'read_pages'" :=
  (pdf_reader.read_pages error page page_extract_text).
Local Notation "'extract_text'" :=
  (pdf_reader.extract_text error file page open_rb PdfReader_pages
     page_extract_text).

(** ** pdf_reader.py *)

(** The loop returns exactly when every page returns its text, with the
    texts appended to the accumulator in page order. *)
Lemma read_pages_returns (pages : list page) (acc text : pystr) :
  read_pages pages acc = Returns text
  <-> exists texts,
        Forall2 (fun p t => page_extract_text p = Returns t) pages texts
        /\ text = acc ++ List.concat texts.
Proof.
  revert acc. induction pages as [|p rest IH]; intros acc; cbn [pdf_reader.read_pages].
  - split.
    + intros H. injection H as <-. exists []. split; [constructor|].
      cbn. now rewrite app_nil_r.
    + intros (texts & F & ->). inversion F. subst. cbn. now rewrite app_nil_r.
  - destruct (page_extract_text p) as [t | e] eqn:E.
    + rewrite IH. split.
      * intros (texts & F & ->). exists (t :: texts).
        split; [now constructor|]. cbn. now rewrite app_assoc.
      * intros (texts & F & ->). inversion F as [|? t' ? texts' Ep F']. subst.
        rewrite E in Ep. injection Ep as <-.
        exists texts'. split; [exact F'|]. cbn. now rewrite app_assoc.
    + split; [discriminate|].
      intros (texts & F & _). inversion F as [|? t' ? texts' Ep F']. subst.
      rewrite E in Ep. discriminate Ep.
Qed.

(** The loop raises exactly the exception of the first page that fails. *)
Lemma read_pages_raises (pages : list page) (acc : pystr) (e : error) :
  read_pages pages acc = Raises e
  <-> exists before p after,
        pages = before ++ p :: after
        /\ Forall (fun q => exists t, page_extract_text q = Returns t) before
        /\ page_extract_text p = Raises e.
Proof.
  revert acc. induction pages as [|p rest IH]; intros acc; cbn [pdf_reader.read_pages].
  - split; [discriminate|]. intros (before & q & after & H & _).
    now destruct before.
  - destruct (page_extract_text p) as [t | e'] eqn:E.
    + rewrite IH. split.
      * intros (before & q & after & -> & F & Hq).
        exists (p :: before), q, after.
        split; [reflexivity|]. split; [|exact Hq].
        constructor; [now exists t | exact F].
      * intros (before & q & after & H & F & Hq).
        destruct before as [|b before]; cbn in H; injection H as <- ->.
        -- rewrite E in Hq. discriminate Hq.
        -- inversion F. subst. now exists before, q, after.
    + split.
      * intros H. injection H as <-. exists [], p, rest.
        split; [reflexivity|]. split; [constructor | exact E].
      * intros (before & q & after & H & F & Hq).
        destruct before as [|b before]; cbn in H; injection H as <- ->.
        -- rewrite E in Hq. now injection Hq as <-.
        -- inversion F as [|? ? [t Ht] ?]. subst. rewrite E in Ht.
           discriminate Ht.
Qed.

(** X16.  [extract_text] returns a text exactly when the file opens, the reader
    lists its pages and every page gives its text; the text is then the
    texts of the pages joined in page order, nothing between them. *)
Theorem extract_text_joins_the_pages (pdf_path text : pystr) :
  extract_text pdf_path = Returns text
  <-> exists f pages texts,
        open_rb pdf_path = Returns f
        /\ PdfReader_pages f = Returns pages
        /\ Forall2 (fun p t => page_extract_text p = Returns t) pages texts
        /\ text = List.concat texts.
Proof.
  unfold pdf_reader.extract_text. split.
  - destruct (open_rb pdf_path) as [f | e] eqn:Ho; [|discriminate].
    destruct (PdfReader_pages f) as [pages | e] eqn:Hp; [|discriminate].
    intros H. apply read_pages_returns in H. destruct H as (texts & F & ->).
    now exists f, pages, texts.
  - intros (f & pages & texts & -> & -> & F & ->).
    apply read_pages_returns. now exists texts.
Qed.

(** X17.  When a page fails, the text of the pages before it is lost: the call
    raises the exception of the first page that fails, provided the file
    opened and the reader listed the pages. *)
Theorem extract_text_fails_at_the_first_bad_page
    (pdf_path : pystr) (f : file) (before after : list page) (p : page)
    (e : error) :
  open_rb pdf_path = Returns f ->
  PdfReader_pages f = Returns (before ++ p :: after) ->
  Forall (fun q => exists t, page_extract_text q = Returns t) before ->
  page_extract_text p = Raises e ->
  extract_text pdf_path = Raises e.
Proof.
  intros Ho Hp F Hq. unfold pdf_reader.extract_text. rewrite Ho, Hp.
  apply read_pages_raises. now exists before, p, after.
Qed.

(** X18.  What the module prints, [text[:500]]: never more than 500 code points,
    the whole text when it is that short, and only the start of the first
    page when that page alone has 500 code points or more. *)
Theorem first_500_of_the_first_page
    (pdf_path text : pystr) (f : file) (p : page) (rest : list page)
    (t1 : pystr) :
  open_rb pdf_path = Returns f ->
  PdfReader_pages f = Returns (p :: rest) ->
  page_extract_text p = Returns t1 ->
  extract_text pdf_path = Returns text ->
  List.length (pdf_reader.first_500 text) = Nat.min 500 (List.length text)
  /\ (List.length text <= 500 -> pdf_reader.first_500 text = text)%nat
  /\ (500 <= List.length t1 ->
      pdf_reader.first_500 text = pdf_reader.first_500 t1)%nat.
Proof.
  intros Ho Hp Ht H. unfold pdf_reader.first_500.
  split; [apply length_firstn|]. split; [apply firstn_all2|].
  intros L. unfold pdf_reader.extract_text in H. rewrite Ho, Hp in H.
  apply read_pages_returns in H. destruct H as (texts & F & ->).
  inversion F as [|? t ? texts' Ep F']. subst.
  rewrite Ht in Ep. injection Ep as <-. cbn [List.concat app].
  rewrite firstn_app.
  replace (500 - List.length t1)%nat with 0%nat by lia.
  cbn [firstn]. now rewrite app_nil_r.
Qed.
End PdfReader.

Lemma extract_text_fails_at_the_first_bad_page_witness :
  pdf_reader.extract_text nat unit nat
    (fun _ => Returns tt) (fun _ => Returns [1; 2; 3; 4]%nat)
    (fun p => if Nat.eqb p 3 then Raises 7%nat else Returns (lit "page"))
    (lit "pdfs/Bend_manual.pdf")
  = Raises 7%nat.
Proof.
  apply (extract_text_fails_at_the_first_bad_page nat unit nat
           (fun _ => Returns tt) (fun _ => Returns [1; 2; 3; 4]%nat)
           (fun p => if Nat.eqb p 3 then Raises 7%nat else Returns (lit "page"))
           (lit "pdfs/Bend_manual.pdf") tt [1; 2]%nat [4]%nat 3%nat 7%nat).
  - reflexivity.
  - reflexivity.
  - repeat constructor; exists (lit "page"); reflexivity.
  - reflexivity.
Defined.

Lemma first_500_of_the_first_page_witness :
  let text := repeat 65%N 600 ++ lit "second page" in
  List.length (pdf_reader.first_500 text) = Nat.min 500 (List.length text)
  /\ (List.length text <= 500 -> pdf_reader.first_500 text = text)%nat
  /\ (500 <= List.length (repeat 65%N 600) ->
      pdf_reader.first_500 text = pdf_reader.first_500 (repeat 65%N 600))%nat.
Proof.
  intros text.
  apply (first_500_of_the_first_page unit unit nat
           (fun _ => Returns tt) (fun _ => Returns [0; 1]%nat)
           (fun p => if Nat.eqb p 0 then Returns (repeat 65%N 600)
                     else Returns (lit "second page"))
           (lit "pdfs/Bend_manual.pdf") text tt 0%nat [1]%nat
           (repeat 65%N 600)); reflexivity.
Defined.

Section MeshOps.
Context {A : Type}.

(** ** mesh_ops.py *)

Lemma take_every_nth (period : nat) (a : list A) (wait k : nat) :
  nth_error (mesh_ops.take_every period wait a) k
  = nth_error a (wait + S period * k).
Proof.
  revert wait k. induction a as [|x a IH]; intros wait k.
  - cbn [mesh_ops.take_every]. now rewrite !nth_error_nil.
  - cbn [mesh_ops.take_every]. destruct wait as [|w].
    + destruct k as [|k].
      * now rewrite Nat.mul_0_r.
      * cbn [nth_error]. rewrite IH.
        replace (0 + S period * S k)%nat with (S (period + S period * k)) by lia.
        reflexivity.
    + rewrite IH. reflexivity.
Qed.

Lemma take_every_length (period : nat) (a : list A) (wait : nat) :
  (wait <= period)%nat ->
  List.length (mesh_ops.take_every period wait a)
  = ((List.length a + period - wait) / S period)%nat.
Proof.
  revert wait. induction a as [|x a IH]; intros wait Hw.
  - cbn [mesh_ops.take_every List.length].
    symmetry. apply Nat.div_small. lia.
  - cbn [mesh_ops.take_every List.length]. destruct wait as [|w].
    + cbn [List.length]. rewrite IH by lia.
      replace (S (List.length a) + period - 0)%nat
        with (List.length a + period - period + 1 * S period)%nat by lia.
      rewrite Nat.div_add by lia. lia.
    + rewrite IH by lia. f_equal; lia.
Qed.
End MeshOps.

Section MeshOpsLibrary.
Variables (error mesh box point rng : Type).
Variable trimesh_load : pystr -> outcome error mesh.
Variable bounding_box_oriented : mesh -> outcome error box.
Variable sample_volume : box -> nat -> rng -> outcome error (list point * rng).

(** X19.  The bends [load_stl_and_extract_centerline] returns are every tenth of
    the points it returns, starting with the first: bend [k] is point
    [10 * k], there is one bend for every started ten of points, and five of
    them when the library gives the 50 points asked for. *)
Theorem bends_are_every_tenth_point
    (file : pystr) (g g' : rng) (center_points bends : list point) :
  mesh_ops.load_stl_and_extract_centerline error mesh box point rng
    trimesh_load bounding_box_oriented sample_volume file g
  = Returns (center_points, bends, g') ->
  (forall k, nth_error bends k = nth_error center_points (10 * k))
  /\ List.length bends = ((List.length center_points + 9) / 10)%nat
  /\ (List.length center_points = 50%nat -> List.length bends = 5%nat)
  /\ (forall b, In b bends -> In b center_points).
Proof.
  unfold mesh_ops.load_stl_and_extract_centerline.
  destruct (trimesh_load file) as [m | e]; [|discriminate].
  destruct (bounding_box_oriented m) as [bbox | e]; [|discriminate].
  destruct (sample_volume bbox 50 g) as [[pts g1] | e]; [|discriminate].
  intros H. injection H as <- <- <-.
  assert (N : forall k, nth_error (mesh_ops.slice_step_10 pts) k
                        = nth_error pts (10 * k)).
  { intros k. unfold mesh_ops.slice_step_10. now rewrite take_every_nth. }
  assert (L : List.length (mesh_ops.slice_step_10 pts)
              = ((List.length pts + 9) / 10)%nat).
  { unfold mesh_ops.slice_step_10. rewrite take_every_length by lia.
    f_equal. lia. }
  split; [exact N|]. split; [exact L|]. split.
  - intros H50. rewrite L, H50. reflexivity.
  - intros b Hb. apply In_nth_error in Hb. destruct Hb as [k Hk].
    rewrite N in Hk. now apply nth_error_In in Hk.
Qed.

End MeshOpsLibrary.

Lemma bends_are_every_tenth_point_witness :
  (forall k, nth_error [0; 10; 20; 30; 40]%nat k
             = nth_error (seq 0 50) (10 * k))
  /\ List.length [0; 10; 20; 30; 40]%nat = ((List.length (seq 0 50) + 9) / 10)%nat
  /\ (List.length (seq 0 50) = 50%nat
      -> List.length [0; 10; 20; 30; 40]%nat = 5%nat)
  /\ (forall b, In b [0; 10; 20; 30; 40]%nat -> In b (seq 0 50)).
Proof.
  apply (bends_are_every_tenth_point unit unit unit nat unit
           (fun _ => Returns tt) (fun _ => Returns tt)
           (fun _ n g => Returns (seq 0 n, g)) (lit "tube.stl") tt tt).
  reflexivity.
Defined.

Section WallFactorAndOne.
Local Open Scope float_scope.

(** ** The wall factor against 1 *)

Lemma div_rank_diag (a : Z) : (0 < a < top)%Z -> div_rank a a = rank 1.
Proof.
  intros Ha. unfold div_rank.
  destruct (Z.eqb_spec a 0) as [E | _]; [lia|].
  destruct (Z.eqb_spec a top) as [E | _]; [lia|].
  assert (Pa : (0 < inject_Z a)%Q) by (apply inject_Z_pos; lia).
  assert (E : (quot_units a a == inject_Z (2 ^ 1074))%Q).
  { unfold quot_units. rewrite <- bpow_Z by lia. field. lra. }
  assert (R : RN (inject_Z (2 ^ 1074)) = (2 ^ 1074)%Z).
  { apply (RN_rk (Prim2SF 1) (Prim2SF_valid 1)). reflexivity. }
  assert (RN (quot_units a a) = 2 ^ 1074)%Z.
  { apply Z.le_antisymm.
    - rewrite <- R. apply RN_mono; [|rewrite E; apply Qle_refl].
      apply quot_units_nonneg; lia.
    - rewrite <- R at 1. apply RN_mono; [|rewrite E; apply Qle_refl].
      apply inject_Z_nonneg. apply Z.pow_nonneg. lia. }
  change (rank 1) with (2 ^ 1074)%Z.
  assert (2 ^ 1074 < top)%Z by (unfold top; apply Z.pow_lt_mono_r; lia).
  lia.
Qed.

(** A finite positive float divided by itself is 1. *)
Lemma float_div_diag (x : float) :
  (0 <? x) = true -> is_finite x = true ->
  good (x / x) = true /\ rank (x / x) = rank 1.
Proof.
  intros Hx Fx. destruct (positive_rank x Hx) as [G P].
  pose proof (finite_rank x Fx) as T.
  destruct (float_div_rank x x G G P (or_introl T)) as [Q R].
  split; [exact Q|]. rewrite R. apply div_rank_diag. lia.
Qed.

(** X20.  For a finite wall above the clamp and a finite diameter that is not
    negative: a wall no thicker than the diameter gives a wall factor of at
    least 1, a wall at least as thick as the diameter a wall factor of at
    most 1. *)
Theorem wall_factor_against_one
    (od wall angle straight D : float) (name : pystr)
    (p : app.material_props) :
  app.getitem app.MATERIALS name = Ok p ->
  (app.epsilon <? wall) = true -> is_finite wall = true ->
  (0 <=? od) = true -> is_finite od = true ->
  exists r,
    app.compute_bend_parameters od wall angle straight D name = Ok r
    /\ ((wall <=? od) = true -> (1 <=? app.wf r) = true)
    /\ ((od <=? wall) = true -> (app.wf r <=? 1) = true).
Proof.
  intros Hp Hw Fw Hod Fod. rewrite compute_bend_parameters_unfold, Hp.
  eexists. split; [reflexivity|]. cbn [results_of app.wf].
  destruct (above_epsilon wall Hw) as (M & Pw & Gw). rewrite M.
  rewrite good_leb0 in Hod.
  destruct (float_div_diag wall Pw Fw) as [Gd Rd].
  split; intros H.
  - destruct (float_div_mono_l wall od wall Gw H Pw Fw) as [L _].
    pose proof (leb_good _ _ Gd L) as Gq.
    rewrite (float_leb_rank _ _ Gd Gq), Rd in L.
    now rewrite (float_leb_rank 1 _ eq_refl Gq).
  - destruct (float_div_mono_l od wall wall Hod H Pw Fw) as [L Gq].
    rewrite (float_leb_rank _ _ Gq Gd), Rd in L.
    now rewrite (float_leb_rank _ 1 Gq eq_refl).
Qed.

Lemma wall_factor_against_one_witness :
  exists r,
    app.compute_bend_parameters 10 1 90 500 3 (lit "Copper") = Ok r
    /\ ((1 <=? 10) = true -> (1 <=? app.wf r) = true)
    /\ ((10 <=? 1) = true -> (app.wf r <=? 1) = true).
Proof.
  apply (wall_factor_against_one 10 1 90 500 3 (lit "Copper")
           (app.mk_props 110000 200)); reflexivity.
Defined.
End WallFactorAndOne.
